(** * The amount engine of ledger (amount.cc)

    A shallow embedding of [amount.cc]: arbitrary-precision quantities
    ([mpz_t] modelled by [Z]), reference-counted [bigint_t] cells living in
    a store, interned commodities, and the arithmetic, comparison, parsing,
    formatting, valuation, price histories and binary input and output
    of [amount_t].

    Conventions.  Pointers are [option positive], [None] being [NULL].  A
    member function takes the receiver [this] by value and returns its new
    content; receiver and argument are distinct objects, which may share a
    cell.  An [assert] that fails is a fault.  What amount.cc uses from
    amount.h and util.h, which are not part of the sources, is modelled
    from the specification and marked so. *)

From Stdlib Require Import ZArith String Ascii List Bool Lia.
From Stdlib Require Import Floats.SpecFloat.
From stdpp Require Import base option gmap strings pretty sorting.

Local Open Scope Z_scope.

(** ** GMP primitives

    [mpz_t] is an unbounded integer, so [Z] is exact.  [mpz_tdiv_q] and
    [mpz_tdiv_qr] truncate toward zero: they are [Z.quot] and [Z.rem]. *)

Module Gmp.

Definition mpz_sgn (x : Z) : Z := Z.sgn x.

Definition mpz_cmp (x y : Z) : Z :=
  match x ?= y with Lt => -1 | Eq => 0 | Gt => 1 end.

Definition mpz_ui_pow_ui (base exp : Z) : Z := base ^ exp.

End Gmp.

Import Gmp.

(** ** [mpz_round] (amount.cc, static)

    Rounds [value], encoded with [value_prec] decimals, to [round_prec]
    decimals.  The C function asserts [value_prec > round_prec]; every call
    site tests that before calling.  The local names follow the source: the
    global scratch integer [divisor] is reassigned several times. *)

Definition mpz_round (value : Z) (value_prec round_prec : Z) : Z :=
  let divisor := mpz_ui_pow_ui 10 (value_prec - round_prec) in
  let quotient := Z.quot value divisor in
  let remainder := Z.rem value divisor in
  let divisor := Z.quot divisor 10 in          (* mpz_divexact_ui *)
  let divisor := divisor * 5 in                (* mpz_mul_ui *)
  let out :=
    if mpz_sgn remainder <? 0 then
      let divisor := - divisor in
      if mpz_cmp remainder divisor <? 0 then
        let divisor := mpz_ui_pow_ui 10 (value_prec - round_prec) in
        let remainder := divisor + remainder in
        let remainder := 0 - remainder in
        value + remainder
      else
        value - remainder
    else
      if mpz_cmp remainder divisor >=? 0 then
        let divisor := mpz_ui_pow_ui 10 (value_prec - round_prec) in
        let remainder := divisor - remainder in
        value + remainder
      else
        value - remainder in
  (* chop off the rounded bits *)
  let divisor := mpz_ui_pow_ui 10 (value_prec - round_prec) in
  Z.quot out divisor.

(** What the code computes, in terms of the truncated quotient [q] and
    remainder [r] of [value] by [10^(from-to)] and of
    [half = 5 * 10^(from-to-1)]: the positive side rounds up from
    [r >= half], the negative side rounds down only from [r < -half]. *)

Definition round_by_cases (value from_scale to_scale : Z) : Z :=
  let d := 10 ^ (from_scale - to_scale) in
  let q := Z.quot value d in
  let r := Z.rem value d in
  let half := 5 * 10 ^ (from_scale - to_scale - 1) in
  if (0 <=? r) && (half <=? r) then q + 1
  else if (r <? 0) && (r <? - half) then q - 1
  else q.


(** ** Machine integers

    [unsigned short] and [unsigned int] fields are kept in [Z]; every
    assignment that can leave the range writes the wrap-around out. *)

Definition ushort (x : Z) : Z := x mod 65536.
Definition uint (x : Z) : Z := x mod 4294967296.

(** ** Data

    A [bigint_t] is the shared cell behind a quantity: the magnitude [val],
    the number of decimals [prec], the allocation [flags], the reference
    count [ref] and the serialization [index]. *)

Record bigint_t : Type := Bigint {
  val : Z;
  prec : Z;        (* unsigned short *)
  flags : Z;       (* unsigned short *)
  ref : Z;         (* unsigned int *)
  index : Z        (* unsigned int *)
}.

Definition BIGINT_BULK_ALLOC : Z := 1.

(** [bigint_t()]: the default constructor, on an [mpz_init]ed value. *)
Definition bigint_new : bigint_t := Bigint 0 0 0 1 0.

(** [bigint_t(const bigint_t& other)]: copies value and precision only. *)
Definition bigint_copy (other : bigint_t) : bigint_t :=
  Bigint (val other) (prec other) 0 1 0.

Definition set_val (v : Z) (c : bigint_t) : bigint_t :=
  Bigint v (prec c) (flags c) (ref c) (index c).
Definition set_prec (p : Z) (c : bigint_t) : bigint_t :=
  Bigint (val c) p (flags c) (ref c) (index c).
Definition set_flags (f : Z) (c : bigint_t) : bigint_t :=
  Bigint (val c) (prec c) f (ref c) (index c).
Definition set_ref (r : Z) (c : bigint_t) : bigint_t :=
  Bigint (val c) (prec c) (flags c) r (index c).

(** An [amount_t] is two pointers; [None] is the C++ [NULL]. *)
Record amount_t : Type := Amount {
  quantity : option positive;   (* bigint_t * *)
  commodity : option positive   (* commodity_t * *)
}.

Definition non_null (p : option positive) : bool :=
  match p with Some _ => true | None => false end.

(** [amount_t()]. *)
Definition amount_absent : amount_t := Amount None None.

Definition with_quantity (q : option positive) (a : amount_t) : amount_t :=
  Amount q (commodity a).
Definition with_commodity (c : option positive) (a : amount_t) : amount_t :=
  Amount (quantity a) c.

(** Modelled from the spec: the class [commodity_t] and the
    [COMMODITY_STYLE_*] flag bits are declared in amount.h, which is not
    part of the sources.  The fields are those amount.cc reads and writes
    (symbol, quote, precision, flags, history); the style record of the
    specification lists the same ones.  The flags are distinct bits and the
    default style is the empty set. *)
Record commodity_t : Type := Commodity {
  symbol : string;
  quote : bool;
  precision : Z;                     (* unsigned int *)
  c_flags : Z;                       (* the member [flags] *)
  history : list (Z * amount_t)      (* history_map, ascending in time *)
}.

Definition COMMODITY_STYLE_DEFAULTS : Z := 0.
Definition COMMODITY_STYLE_SUFFIXED : Z := 1.
Definition COMMODITY_STYLE_SEPARATED : Z := 2.
Definition COMMODITY_STYLE_EUROPEAN : Z := 4.
Definition COMMODITY_STYLE_THOUSANDS : Z := 8.
Definition COMMODITY_STYLE_NOMARKET : Z := 16.

Definition has_flag (fl bit : Z) : bool := negb (Z.land fl bit =? 0).

Definition set_precision (p : Z) (c : commodity_t) : commodity_t :=
  Commodity (symbol c) (quote c) p (c_flags c) (history c).
Definition set_c_flags (f : Z) (c : commodity_t) : commodity_t :=
  Commodity (symbol c) (quote c) (precision c) f (history c).
Definition set_history (h : list (Z * amount_t)) (c : commodity_t) : commodity_t :=
  Commodity (symbol c) (quote c) (precision c) (c_flags c) h.

(** ** The store

    The objects the amounts point into: the live [bigint_t] cells, the
    live [commodity_t] objects, the static members of [commodity_t]
    ([commodities], [null_commodity]) and the bulk arena of binary.cc
    ([bigints] as the list of its slot addresses, [bigints_next] as the
    number of slots handed out). *)

Record store : Type := Store {
  cells : gmap positive bigint_t;
  objects : gmap positive commodity_t;
  commodities : gmap string positive;
  null_commodity : option positive;
  bigints : list positive;
  bigints_next : nat
}.

(** The static cell [true_value] has a fixed address. *)
Definition true_value : positive := 1%positive.

Definition set_cells (f : gmap positive bigint_t -> gmap positive bigint_t)
    (s : store) : store :=
  Store (f (cells s)) (objects s) (commodities s) (null_commodity s)
        (bigints s) (bigints_next s).
Definition set_objects (f : gmap positive commodity_t -> gmap positive commodity_t)
    (s : store) : store :=
  Store (cells s) (f (objects s)) (commodities s) (null_commodity s)
        (bigints s) (bigints_next s).
Definition set_commodities (f : gmap string positive -> gmap string positive)
    (s : store) : store :=
  Store (cells s) (objects s) (f (commodities s)) (null_commodity s)
        (bigints s) (bigints_next s).
Definition set_null_commodity (c : option positive) (s : store) : store :=
  Store (cells s) (objects s) (commodities s) c (bigints s) (bigints_next s).
Definition set_bigints_next (n : nat) (s : store) : store :=
  Store (cells s) (objects s) (commodities s) (null_commodity s) (bigints s) n.

(** Static storage before [initialize_amounts]: [true_value] is default
    constructed, the symbol table is empty, the pointers are null. *)
Definition static_store : store :=
  Store {[ true_value := bigint_new ]} ∅ ∅ None [] 0.

(** ** Outcomes

    An operation returns normally with its result and the store it leaves,
    throws an [amount_error] (the receiver and the store are kept as they
    are at the throw), or leaves defined behaviour: a pointer that is null
    or dangling is dereferenced, GMP divides by zero, an [assert] fails. *)

Inductive amount_error : Type := AmountError (what : string).

Inductive fault : Type :=
| BadPointer
| GmpDivisionByZero
| GmpNotFinite
| AssertionFailed
| OutOfBounds.

Inductive result (A : Type) : Type :=
| Ok (a : A) (s : store)
| Throw (e : amount_error) (this : amount_t) (s : store)
| Undefined (f : fault).

Arguments Ok {A} a s.
Arguments Throw {A} e this s.
Arguments Undefined {A} f.

Definition M (A : Type) : Type := store -> result A.

Definition ret {A} (a : A) : M A := fun s => Ok a s.

Definition bind {A B} (m : M A) (k : A -> M B) : M B :=
  fun s => match m s with
           | Ok a s' => k a s'
           | Throw e this s' => Throw e this s'
           | Undefined f => Undefined f
           end.

Definition throw {A} (what : string) (this : amount_t) : M A :=
  fun s => Throw (AmountError what) this s.

Definition undefined {A} (f : fault) : M A := fun _ => Undefined f.

Declare Scope amount_scope.
Delimit Scope amount_scope with amount.
Notation "'let*' x := c 'in' k" := (bind c (fun x => k))
  (at level 10, x name, c at level 100, k at level 200) : amount_scope.
Local Open Scope amount_scope.

(** The error kinds of the specification are [amount_error]s told apart by
    their message. *)
Definition DivideByZero : amount_error := AmountError "Divide by zero".

Definition CommodityMismatch (e : amount_error) : Prop :=
  e = AmountError "Adding amounts with different commodities" \/
  e = AmountError "Subtracting amounts with different commodities".

(** ** Access to cells and commodities *)

(** [*p] for a [bigint_t * p]. *)
Definition deref (p : option positive) : M positive :=
  match p with
  | Some q => ret q
  | None => undefined BadPointer
  end.

Definition load (q : positive) : M bigint_t :=
  fun s => match cells s !! q with
           | Some c => Ok c s
           | None => Undefined BadPointer
           end.

Definition save (q : positive) (c : bigint_t) : M unit :=
  fun s => Ok tt (set_cells <[q := c]> s).

(** [p->field = ...] on a live cell. *)
Definition update (q : positive) (f : bigint_t -> bigint_t) : M unit :=
  let* c := load q in save q (f c).

(** [new bigint_t ...]: a live cell at an address that is neither live,
    nor static, nor in the arena. *)
Definition heap_fresh (s : store) : positive :=
  fresh ({[ true_value ]} ∪ dom (cells s) ∪ list_to_set (bigints s) : gset positive).

Definition new_bigint (c : bigint_t) : M positive :=
  fun s => let q := heap_fresh s in Ok q (set_cells <[q := c]> s).

(** [delete p] and [p->~bigint_t()] both end the life of the cell; bulk
    cells keep their storage, which the store does not track. *)
Definition destroy (q : positive) : M unit :=
  fun s => Ok tt (set_cells (delete q) s).

Definition load_commodity (p : option positive) : M commodity_t :=
  fun s => match p with
           | Some c => match objects s !! c with
                       | Some o => Ok o s
                       | None => Undefined BadPointer
                       end
           | None => Undefined BadPointer
           end.

Definition save_commodity (c : positive) (o : commodity_t) : M unit :=
  fun s => Ok tt (set_objects <[c := o]> s).

Definition get_null_commodity : M (option positive) :=
  fun s => Ok (null_commodity s) s.

(** ** Memory management of [amount_t] *)

Definition _release (this : amount_t) : M unit :=
  let* q := deref (quantity this) in
  let* c := load q in
  let r := uint (ref c - 1) in
  let* _ := save q (set_ref r c) in
  if r =? 0 then
    if negb (has_flag (flags c) BIGINT_BULK_ALLOC) then destroy q
    else destroy q
  else ret tt.

Definition _init (this : amount_t) : M amount_t :=
  match quantity this with
  | None =>
      let* q := new_bigint bigint_new in
      ret (with_quantity (Some q) this)
  | Some q0 =>
      let* c := load q0 in
      if ref c >? 1 then
        let* _ := _release this in
        let* q := new_bigint bigint_new in
        ret (with_quantity (Some q) this)
      else ret this
  end.

Definition _dup (this : amount_t) : M amount_t :=
  let* q0 := deref (quantity this) in
  let* c := load q0 in
  if ref c >? 1 then
    let* q := new_bigint (bigint_copy c) in
    let* _ := _release this in
    ret (with_quantity (Some q) this)
  else ret this.

Definition _copy (this amt : amount_t) : M amount_t :=
  let* this :=
    (if decide (quantity this = quantity amt) then ret this
     else
       let* _ := (if non_null (quantity this) then _release this else ret tt) in
       let this := with_quantity (quantity amt) this in
       let* q := deref (quantity this) in
       let* _ := update q (fun c => set_ref (uint (ref c + 1)) c) in
       ret this) in
  ret (with_commodity (commodity amt) this).

(** Modelled from the spec: [_clear], the copy constructor and the
    destructor of [amount_t] are inline in amount.h, which is not part of
    the sources.  Clearing releases the cell and leaves both pointers null
    (both-absent encodes no value); a copy shares the cell and increments
    its count; destruction releases the cell. *)
Definition _clear (this : amount_t) : M amount_t :=
  let* _ := (if non_null (quantity this) then _release this else ret tt) in
  ret amount_absent.

Definition amount_copy (amt : amount_t) : M amount_t :=
  if non_null (quantity amt) then _copy (Amount None None) amt
  else ret (Amount None None).

Definition amount_destroy (this : amount_t) : M unit :=
  if non_null (quantity this) then _release this else ret tt.

(** [p->field] and [p->field = ...] through a possibly null pointer. *)
Definition get (p : option positive) : M bigint_t :=
  let* q := deref p in load q.

Definition modify (p : option positive) (f : bigint_t -> bigint_t) : M unit :=
  let* q := deref p in update q f.

(** ** Constructors *)

Definition amount_of_bool (value : bool) : M amount_t :=
  if value then
    let* _ := update true_value (fun c => set_ref (uint (ref c + 1)) c) in
    let* null := get_null_commodity in
    ret (Amount (Some true_value) null)
  else ret (Amount None None).

Definition amount_of_int (value : Z) : M amount_t :=
  if negb (value =? 0) then
    let* q := new_bigint bigint_new in
    let* _ := update q (set_val value) in           (* mpz_set_si *)
    let* null := get_null_commodity in
    ret (Amount (Some q) null)
  else ret (Amount None None).

Definition amount_of_uint (value : Z) : M amount_t :=
  if negb (value =? 0) then
    let* q := new_bigint bigint_new in
    let* _ := update q (set_val value) in           (* mpz_set_ui *)
    let* null := get_null_commodity in
    ret (Amount (Some q) null)
  else ret (Amount None None).

(** A [double] is an IEEE value; [value != 0.0] is false exactly on the two
    zeros.  [mpz_set_d] truncates a finite value toward zero and is not
    defined on infinities and NaN. *)
Definition double_nonzero (value : spec_float) : bool :=
  match value with
  | S754_zero _ => false
  | _ => true
  end.

Definition mpz_set_d (value : spec_float) : option Z :=
  match value with
  | S754_zero _ => Some 0
  | S754_finite sign m e =>
      let mag := if 0 <=? e then Z.pos m * 2 ^ e else Z.quot (Z.pos m) (2 ^ (- e)) in
      Some (if sign then - mag else mag)
  | S754_infinity _ | S754_nan => None
  end.

Definition amount_of_double (value : spec_float) : M amount_t :=
  if double_nonzero value then
    let* q := new_bigint bigint_new in
    match mpz_set_d value with
    | Some v =>
        let* _ := update q (set_val v) in
        let* null := get_null_commodity in
        ret (Amount (Some q) null)
    | None => undefined GmpNotFinite
    end
  else ret (Amount None None).

(** ** Assignment

    [operator=(const amount_t&)] is modelled for [this != &amt]; the two
    objects may still share a cell. *)

Definition assign (this amt : amount_t) : M amount_t :=
  if non_null (quantity amt) then _copy this amt
  else if non_null (quantity this) then _clear this
  else ret this.

Definition assign_bool (this : amount_t) (value : bool) : M amount_t :=
  if negb value then
    if non_null (quantity this) then _clear this else ret this
  else
    let* null := get_null_commodity in
    let this := with_commodity null this in
    let* _ := (if non_null (quantity this) then _release this else ret tt) in
    let this := with_quantity (Some true_value) this in
    let* _ := modify (quantity this) (fun c => set_ref (uint (ref c + 1)) c) in
    ret this.

Definition assign_int (this : amount_t) (value : Z) : M amount_t :=
  if value =? 0 then
    if non_null (quantity this) then _clear this else ret this
  else
    let* null := get_null_commodity in
    let this := with_commodity null this in
    let* this := _init this in
    let* _ := modify (quantity this) (set_val value) in   (* mpz_set_si *)
    ret this.

Definition assign_uint (this : amount_t) (value : Z) : M amount_t :=
  if value =? 0 then
    if non_null (quantity this) then _clear this else ret this
  else
    let* null := get_null_commodity in
    let this := with_commodity null this in
    let* this := _init this in
    let* _ := modify (quantity this) (set_val value) in   (* mpz_set_ui *)
    ret this.

Definition assign_double (this : amount_t) (value : spec_float) : M amount_t :=
  if negb (double_nonzero value) then
    if non_null (quantity this) then _clear this else ret this
  else
    let* null := get_null_commodity in
    let this := with_commodity null this in
    let* this := _init this in
    match mpz_set_d value with
    | Some v =>
        let* _ := modify (quantity this) (set_val v) in
        ret this
    | None => undefined GmpNotFinite
    end.

(** ** Rescaling *)

Definition _resize (this : amount_t) (prec' : Z) : M amount_t :=
  if negb (prec' <? 256) then undefined AssertionFailed
  else
    match quantity this with
    | None => ret this
    | Some q0 =>
        let* c := load q0 in
        if prec' =? prec c then ret this
        else
          let* this := _dup this in
          let* c := get (quantity this) in
          let* _ :=
            (if prec' <? prec c then
               let divisor := mpz_ui_pow_ui 10 (prec c - prec') in
               modify (quantity this) (set_val (Z.quot (val c) divisor))
             else
               let divisor := mpz_ui_pow_ui 10 (prec' - prec c) in
               modify (quantity this) (set_val (val c * divisor))) in
          let* _ := modify (quantity this) (set_prec (ushort prec')) in
          ret this
    end.

(** ** Arithmetic *)

(** The three-way scale alignment shared by [operator+=] and [operator-=];
    [mpz_op] is [mpz_add] or [mpz_sub]. *)
Definition combine (mpz_op : Z -> Z -> Z) (this amt : amount_t) : M amount_t :=
  let* c := get (quantity this) in
  let* ac := get (quantity amt) in
  if prec c =? prec ac then
    let* _ := modify (quantity this) (set_val (mpz_op (val c) (val ac))) in
    ret this
  else if prec c <? prec ac then
    let* this := _resize this (prec ac) in
    let* c := get (quantity this) in
    let* ac := get (quantity amt) in
    let* _ := modify (quantity this) (set_val (mpz_op (val c) (val ac))) in
    ret this
  else
    let* temp := amount_copy amt in
    let* temp := _resize temp (prec c) in
    let* c := get (quantity this) in
    let* tc := get (quantity temp) in
    let* _ := modify (quantity this) (set_val (mpz_op (val c) (val tc))) in
    let* _ := amount_destroy temp in
    ret this.

Definition add_assign (this amt : amount_t) : M amount_t :=
  if negb (non_null (quantity amt)) then ret this
  else if negb (non_null (quantity this)) then _copy this amt
  else
    let* this := _dup this in
    if negb (bool_decide (commodity this = commodity amt)) then
      throw "Adding amounts with different commodities" this
    else combine Z.add this amt.

Definition sub_assign (this amt : amount_t) : M amount_t :=
  if negb (non_null (quantity amt)) then ret this
  else if negb (non_null (quantity this)) then
    let* ac := get (quantity amt) in
    let* q := new_bigint (bigint_copy ac) in
    let this := Amount (Some q) (commodity amt) in
    let* _ := update q (fun c => set_val (- val c) c) in
    ret this
  else
    let* this := _dup this in
    if negb (bool_decide (commodity this = commodity amt)) then
      throw "Subtracting amounts with different commodities" this
    else combine Z.sub this amt.

(** The rounding step shared by [operator*=] and [operator/=]: keep at most
    six decimals beyond the display precision of the commodity. *)
Definition round_to_headroom (this : amount_t) : M amount_t :=
  let* c := get (quantity this) in
  let* o := load_commodity (commodity this) in
  if prec c >? uint (precision o + 6) then
    let* _ := modify (quantity this)
                (set_val (mpz_round (val c) (prec c) (uint (precision o + 6)))) in
    let* _ := modify (quantity this) (set_prec (ushort (uint (precision o + 6)))) in
    ret this
  else ret this.

Definition mul_assign (this amt : amount_t) : M amount_t :=
  if negb (non_null (quantity amt)) || negb (non_null (quantity this)) then ret this
  else
    let* this := _dup this in
    let* c := get (quantity this) in
    let* ac := get (quantity amt) in
    let* _ := modify (quantity this) (set_val (val c * val ac)) in
    let* c := get (quantity this) in
    let* ac := get (quantity amt) in
    let* _ := modify (quantity this) (set_prec (ushort (prec c + prec ac))) in
    round_to_headroom this.

Definition div_assign (this amt : amount_t) : M amount_t :=
  if negb (non_null (quantity this)) then ret this
  else if negb (non_null (quantity amt)) then throw "Divide by zero" this
  else
    let* this := _dup this in
    (* Increase the value's precision, to capture fractional parts after
       the divide. *)
    let* ac := get (quantity amt) in
    let divisor := mpz_ui_pow_ui 10 (prec ac + 6) in
    let* c := get (quantity this) in
    let* _ := modify (quantity this) (set_val (val c * divisor)) in
    let* c := get (quantity this) in
    let* ac := get (quantity amt) in
    if val ac =? 0 then undefined GmpDivisionByZero
    else
      let* _ := modify (quantity this) (set_val (Z.quot (val c) (val ac))) in
      let* c := get (quantity this) in
      let* _ := modify (quantity this) (set_prec (ushort (prec c + 6))) in
      round_to_headroom this.

Definition negate (this : amount_t) : M amount_t :=
  if non_null (quantity this) then
    let* this := _dup this in
    let* _ := modify (quantity this) (fun c => set_val (- val c) c) in
    ret this
  else ret this.

(** Modelled from the spec: the binary operators are inline in amount.h,
    which is not part of the sources.  Each works on a copy of the left
    operand with the compound assignment; when that throws, the copy is
    destroyed and the left operand is as it was. *)
Definition binary (op_assign : amount_t -> amount_t -> M amount_t)
    (this amt : amount_t) : M amount_t :=
  let* temp := amount_copy this in
  fun s =>
    match op_assign temp amt s with
    | Ok r s' => Ok r s'
    | Throw e temp s' =>
        match amount_destroy temp s' with
        | Ok _ s'' => Throw e this s''
        | Throw e' t' s'' => Throw e' t' s''
        | Undefined f => Undefined f
        end
    | Undefined f => Undefined f
    end.

Definition add := binary add_assign.
Definition sub := binary sub_assign.
Definition mul := binary mul_assign.
Definition div := binary div_assign.

(** ** Truth value and rounding *)

Definition to_bool (this : amount_t) : M bool :=
  if negb (non_null (quantity this)) then ret false
  else
    let* c := get (quantity this) in
    let* o := load_commodity (commodity this) in
    if prec c <=? precision o then ret (negb (mpz_sgn (val c) =? 0))
    else
      let temp := val c in
      let divisor := mpz_ui_pow_ui 10 (prec c - precision o) in
      let temp := Z.quot temp divisor in
      let zero := mpz_sgn temp =? 0 in
      ret (negb zero).

(** [round] is [const] and returns a new amount. *)
Definition round (this : amount_t) (prec' : Z) : M amount_t :=
  match quantity this with
  | None => amount_copy this
  | Some q0 =>
      let* c := load q0 in
      if prec c <=? prec' then amount_copy this
      else
        let* temp := amount_copy this in
        let* temp := _dup temp in
        let* tc := get (quantity temp) in
        let* _ := modify (quantity temp)
                    (set_val (mpz_round (val tc) (prec tc) prec')) in
        let* _ := modify (quantity temp) (set_prec (ushort prec')) in
        ret temp
  end.

(** ** Input streams

    A [std::istream] over a string: the characters not yet read and the
    [eofbit], which a [peek] or [get] at the end of the input sets.  At the
    end both deliver [EOF], which as a [char] is [-1]. *)

Record istream : Type := Istream {
  rest : string;
  eofbit : bool
}.

Definition istringstream (value : string) : istream := Istream value false.

Definition EOF_char : ascii := ascii_of_nat 255.

(** The double quote character. *)
Definition dquote : ascii := ascii_of_nat 34.

Definition peek (i : istream) : ascii * istream :=
  match rest i with
  | EmptyString => (EOF_char, Istream EmptyString true)
  | String c _ => (c, i)
  end.

Definition isdigit (c : ascii) : bool :=
  let n := nat_of_ascii c in (48 <=? n)%nat && (n <=? 57)%nat.

Definition isspace (c : ascii) : bool :=
  let n := nat_of_ascii c in (n =? 32)%nat || ((9 <=? n)%nat && (n <=? 13)%nat).

Definition is_char (x : ascii) (c : ascii) : bool := bool_decide (c = x).

(** Modelled from the spec: [peek_next_nonws] and the macro [READ_INTO]
    are defined in util.h, which is not part of the sources.  The first
    skips white space and peeks; the second reads into a buffer of [size]
    characters for as long as the next character satisfies the condition,
    and leaves that next character in [var]. *)
Fixpoint skip_ws (s : string) : string :=
  match s with
  | EmptyString => EmptyString
  | String c r => if isspace c then skip_ws r else s
  end.

Definition peek_next_nonws (i : istream) : ascii * istream :=
  peek (Istream (skip_ws (rest i)) (eofbit i)).

Fixpoint read_while (cond : ascii -> bool) (size : nat) (s : string) : string * string :=
  match size, s with
  | S n, String c r =>
      if cond c then let (buf, r') := read_while cond n r in (String c buf, r')
      else (EmptyString, s)
  | _, _ => (EmptyString, s)
  end.

Definition READ_INTO (i : istream) (size : nat) (cond : ascii -> bool)
    : string * ascii * istream :=
  let (buf, r) := read_while cond size (rest i) in
  let (var, i') := peek (Istream r (eofbit i)) in
  (buf, var, i').

Definition parse_quantity (i : istream) : string * istream :=
  let (c, i) := peek_next_nonws i in
  let '(buf, c, i) :=
    READ_INTO i 256
      (fun c => isdigit c || is_char "-" c || is_char "." c || is_char "," c) in
  (buf, i).

(** [None] stands for the throw of
    ["Quoted commodity symbol lacks closing quote"]. *)
Definition parse_commodity (i : istream) : option (string * istream) :=
  let (c, i) := peek_next_nonws i in
  if is_char dquote c then
    let i := Istream (match rest i with String _ r => r | EmptyString => EmptyString end)
                     (eofbit i) in                                   (* in.get(c) *)
    let '(buf, c, i) := READ_INTO i 256 (fun c => negb (is_char dquote c)) in
    if is_char dquote c then
      let i := Istream (match rest i with String _ r => r | EmptyString => EmptyString end)
                       (eofbit i) in                                 (* in.get(c) *)
      Some (buf, i)
    else None
  else
    let '(buf, c, i) :=
      READ_INTO i 256
        (fun c => negb (isspace c) && negb (isdigit c) &&
                  negb (is_char "-" c) && negb (is_char "." c)) in
    Some (buf, i).

(** ** Numeric tokens *)

Definition is_Some_b {A} (o : option A) : bool :=
  match o with Some _ => true | None => false end.

(** [std::string::rfind(char)]: the index of the last occurrence. *)
Fixpoint rfind (s : string) (x : ascii) : option nat :=
  match s with
  | EmptyString => None
  | String c r =>
      match rfind r x with
      | Some k => Some (S k)
      | None => if is_char x c then Some O else None
      end
  end.

(** The copy loop of [parse]: a comma or period is stepped over and the
    character after it is copied whatever it is.  After a separator that
    ends the token the loop copies the terminator and goes on reading past
    the end of the string: [None]. *)
Fixpoint strip_separators (p : string) : option string :=
  match p with
  | EmptyString => Some EmptyString
  | String c p' =>
      if is_char "," c || is_char "." c then
        match p' with
        | EmptyString => None
        | String c' p'' => option_map (String c') (strip_separators p'')
        end
      else option_map (String c) (strip_separators p')
  end.

(** [mpz_set_str(_, str, 10)] on the characters a numeric token can hold:
    an optional minus sign and at least one digit, nothing else.  [None] is
    the return value [-1], on which GMP leaves the target as it was. *)
Fixpoint digits_value (acc : Z) (s : string) : option Z :=
  match s with
  | EmptyString => Some acc
  | String c r =>
      if isdigit c then digits_value (10 * acc + (Z.of_nat (nat_of_ascii c) - 48)) r
      else None
  end.

Definition mpz_set_str (str : string) : option Z :=
  match str with
  | String c r =>
      if is_char "-" c then
        match r with
        | EmptyString => None
        | _ => option_map Z.opp (digits_value 0 r)
        end
      else digits_value 0 str
  | EmptyString => None
  end.

(** ** The commodity registry *)

(** Modelled from the spec: the constructor of [commodity_t] and
    [add_commodity] are inline in amount.h, which is not part of the
    sources.  A new commodity has the default style: precision 0, no flag,
    no price; its symbol is marked as quoted when it holds a character an
    unquoted symbol cannot (white space, a digit, a sign or a period).
    [add_commodity] enters the object in the symbol table. *)
Fixpoint needs_quote (s : string) : bool :=
  match s with
  | EmptyString => false
  | String c r =>
      isspace c || isdigit c || is_char "-" c || is_char "." c || needs_quote r
  end.

Definition commodity_new (symbol : string) : commodity_t :=
  Commodity symbol (needs_quote symbol) 0 COMMODITY_STYLE_DEFAULTS [].

Definition add_commodity (c : positive) (symbol : string) : M unit :=
  fun s => Ok tt (set_commodities <[symbol := c]> s).

Definition new_commodity (o : commodity_t) : M positive :=
  fun s => let c := fresh (dom (objects s)) in Ok c (set_objects <[c := o]> s).

Definition find_commodity (symbol : string) (auto_create : bool)
    : M (option positive) :=
  fun s =>
    match commodities s !! symbol with
    | Some c => Ok (Some c) s
    | None =>
        if auto_create then
          (let* c := new_commodity (commodity_new symbol) in
           let* _ := add_commodity c symbol in
           ret (Some c)) s
        else Ok None s
    end.

Definition initialize_amounts : M unit :=
  let* _ := update true_value (set_val 1) in
  let* null := find_commodity "" true in
  fun s => Ok tt (set_null_commodity null s).

(** ** Parsing

    The possible syntax for an amount is [[-]NUM[ ]SYM] or
    [SYM[ ][-]NUM]. *)

Definition parse_tokens (i : istream) : option (string * string * Z * istream) :=
  let flags := COMMODITY_STYLE_DEFAULTS in
  let (c, i) := peek_next_nonws i in
  if isdigit c || is_char "." c || is_char "-" c then
    let (quant, i) := parse_quantity i in
    if negb (eofbit i) && negb (is_char "010" (fst (peek i))) then
      let n := fst (peek i) in
      let flags := if isspace n then Z.lor flags COMMODITY_STYLE_SEPARATED else flags in
      match parse_commodity i with
      | Some (symbol, i) =>
          let flags := Z.lor flags COMMODITY_STYLE_SUFFIXED in
          Some (symbol, quant, flags, i)
      | None => None
      end
    else Some (EmptyString, quant, flags, i)
  else
    match parse_commodity i with
    | Some (symbol, i) =>
        let flags :=
          if isspace (fst (peek i)) then Z.lor flags COMMODITY_STYLE_SEPARATED
          else flags in
        let i := snd (peek i) in
        let (quant, i) := parse_quantity i in
        Some (symbol, quant, flags, i)
    | None => None
    end.

Definition parse (this : amount_t) (i : istream) : M (amount_t * istream) :=
  let* this := _init this in
  match parse_tokens i with
  | None => throw "Quoted commodity symbol lacks closing quote" this
  | Some (symbol, quant, flags, i) =>
      let last_comma := rfind quant "," in
      let last_period := rfind quant "." in
      let len := Z.of_nat (String.length quant) in
      let '(flags, prec') :=
        match last_comma, last_period with
        | Some lc, Some lp =>
            let flags := Z.lor flags COMMODITY_STYLE_THOUSANDS in
            if (lp <? lc)%nat then
              (Z.lor flags COMMODITY_STYLE_EUROPEAN, ushort (len - Z.of_nat lc - 1))
            else (flags, ushort (len - Z.of_nat lp - 1))
        | Some lc, None =>
            (Z.lor flags COMMODITY_STYLE_EUROPEAN, ushort (len - Z.of_nat lc - 1))
        | None, Some lp => (flags, ushort (len - Z.of_nat lp - 1))
        | None, None => (flags, 0)
        end in
      let* _ := modify (quantity this) (set_prec prec') in
      (* Create the commodity if has not already been seen. *)
      let* found := find_commodity symbol true in
      let this := with_commodity found this in
      let* o := load_commodity found in
      let* c := deref found in
      let* _ := save_commodity c (set_c_flags (Z.lor (c_flags o) flags) o) in
      let* o := load_commodity found in
      let* q := get (quantity this) in
      let* _ := (if prec q >? precision o
                 then save_commodity c (set_precision (prec q) o)
                 else ret tt) in
      (* Now we have the final number.  Remove commas and periods, if
         necessary. *)
      let* buf :=
        (if is_Some_b last_comma || is_Some_b last_period then
           match strip_separators quant with
           | Some buf => ret buf
           | None => undefined OutOfBounds
           end
         else ret quant) in
      let* _ :=
        match mpz_set_str buf with
        | Some v => modify (quantity this) (set_val v)
        | None => ret tt
        end in
      ret (this, i)
  end.

Definition parse_string (this : amount_t) (str : string) : M amount_t :=
  let* r := parse this (istringstream str) in
  ret (fst r).

(** ** Comparison

    The macros [AMOUNT_CMP_INT] and [AMOUNT_CMP_AMOUNT] are instantiated at
    the five operators; [holds op x y] is [x OP y]. *)

Inductive cmp_op : Type := OpLt | OpLe | OpGt | OpGe | OpEq.

Definition holds (op : cmp_op) (x y : Z) : bool :=
  match op with
  | OpLt => x <? y
  | OpLe => x <=? y
  | OpGt => x >? y
  | OpGe => x >=? y
  | OpEq => x =? y
  end.

(** The branch [num == 0] of [AMOUNT_CMP_INT(OP)]. *)
Definition cmp_zero (op : cmp_op) (this : amount_t) : M bool :=
  match quantity this with
  | Some q =>
      let* c := load q in
      ret (holds op (mpz_sgn (val c)) 0)
  | None => ret false
  end.

(** [AMOUNT_CMP_AMOUNT(OP)]: with an absent side the result is [amt > 0] or
    [*this < 0], whatever [OP] is. *)
Definition cmp_amount (op : cmp_op) (this amt : amount_t) : M bool :=
  if negb (non_null (quantity this)) then cmp_zero OpGt amt
  else if negb (non_null (quantity amt)) then cmp_zero OpLt this
  else
    let* null := get_null_commodity in
    if negb (bool_decide (commodity this = commodity amt)) &&
       negb (bool_decide (commodity this = null)) &&
       negb (bool_decide (commodity amt = null))
    then ret false
    else
      let* c := get (quantity this) in
      let* ac := get (quantity amt) in
      if prec c =? prec ac then
        ret (holds op (mpz_cmp (val c) (val ac)) 0)
      else if prec c <? prec ac then
        let* temp := amount_copy this in
        let* temp := _resize temp (prec ac) in
        let* tc := get (quantity temp) in
        let* ac := get (quantity amt) in
        let* _ := amount_destroy temp in
        ret (holds op (mpz_cmp (val tc) (val ac)) 0)
      else
        let* temp := amount_copy amt in
        let* temp := _resize temp (prec c) in
        let* c := get (quantity this) in
        let* tc := get (quantity temp) in
        let* _ := amount_destroy temp in
        ret (holds op (mpz_cmp (val c) (val tc)) 0).

(** [parse_num]: the number is written to a stream initialised from [str];
    [str] itself stays empty and is what gets parsed. *)
Definition parse_num (amt : amount_t) (num : Z) : M amount_t :=
  let str := EmptyString in
  parse_string amt str.

(** [AMOUNT_CMP_INT(OP)] and [AMOUNT_CMP_UINT(OP)]. *)
Definition cmp_int (op : cmp_op) (this : amount_t) (num : Z) : M bool :=
  if num =? 0 then cmp_zero op this
  else
    let amt := amount_absent in
    let* amt := parse_num amt num in
    let* r := cmp_amount op this amt in
    let* _ := amount_destroy amt in
    ret r.

(** ** Formatting *)

(** [mpz_get_str(_, 10, x)]. *)
Definition mpz_get_str (x : Z) : string := pretty x.

(** [out.width(width); out.fill(fill); out << s]. *)
Definition padded (width : nat) (fill : ascii) (s : string) : string :=
  String.concat "" (repeat (String fill EmptyString) (width - String.length s))
    +:+ s.

(** The first loop of the thousands branch: the groups of three digits,
    least significant first.  [fuel] bounds the iterations; [None] would be
    a loop cut short. *)
Fixpoint thousands_groups (fuel : nat) (quotient powers : Z) : option (list string) :=
  match fuel with
  | O => None
  | S fuel =>
      if powers >? 0 then
        let divisor := mpz_ui_pow_ui 10 powers in
        let temp := Z.quot quotient divisor in
        if mpz_sgn temp =? 0 then Some []
        else
          let temp := Z.rem temp 1000 in
          option_map (cons (mpz_get_str temp))
                     (thousands_groups fuel quotient (powers + 3))
      else
        let temp := Z.rem quotient 1000 in
        option_map (cons (mpz_get_str temp))
                   (thousands_groups fuel quotient (powers + 3))
  end.

(** The second loop: the groups in reverse, each after the first preceded
    by the separator and padded to three digits. *)
Fixpoint print_groups (sep : ascii) (printed : bool) (strs : list string) : string :=
  match strs with
  | [] => EmptyString
  | i :: strs =>
      (if printed then String sep (padded 3 "0" i) else i)
        +:+ print_groups sep true strs
  end.

Definition print_symbol (o : commodity_t) : string :=
  if quote o then String dquote (symbol o +:+ String dquote EmptyString)
  else symbol o.

(** [operator<<(std::ostream&, const amount_t&)]: the text sent to the
    stream, built in the local [out] first. *)
Definition format (amt : amount_t) : M string :=
  if negb (non_null (quantity amt)) then ret EmptyString
  else
    let* q := get (quantity amt) in
    let* o := load_commodity (commodity amt) in
    (* Ensure the value is rounded to the commodity's precision before
       outputting it. *)
    let '(quotient, remainder) :=
      if precision o <? prec q then
        let rquotient := mpz_round (val q) (prec q) (precision o) in
        let divisor := mpz_ui_pow_ui 10 (precision o) in
        (Z.quot rquotient divisor, Z.rem rquotient divisor)
      else if precision o >? prec q then
        let divisor := mpz_ui_pow_ui 10 (precision o - prec q) in
        let rquotient := val q * divisor in
        let divisor := mpz_ui_pow_ui 10 (precision o) in
        (Z.quot rquotient divisor, Z.rem rquotient divisor)
      else if negb (prec q =? 0) then
        let divisor := mpz_ui_pow_ui 10 (prec q) in
        (Z.quot (val q) divisor, Z.rem (val q) divisor)
      else (val q, 0) in
    let negative := (mpz_sgn quotient <? 0) || (mpz_sgn remainder <? 0) in
    let quotient := if negative then Z.abs quotient else quotient in
    let remainder := if negative then Z.abs remainder else remainder in
    let rquotient := remainder in
    let european := has_flag (c_flags o) COMMODITY_STYLE_EUROPEAN in
    let out := EmptyString in
    let out :=
      if negb (has_flag (c_flags o) COMMODITY_STYLE_SUFFIXED) then
        let out := out +:+ print_symbol o in
        if has_flag (c_flags o) COMMODITY_STYLE_SEPARATED then out +:+ " " else out
      else out in
    let out := if negative then out +:+ "-" else out in
    let* out :=
      (if mpz_sgn quotient =? 0 then ret (out +:+ "0")
       else if negb (has_flag (c_flags o) COMMODITY_STYLE_THOUSANDS) then
         ret (out +:+ mpz_get_str quotient)
       else
         match thousands_groups (S (S (Z.to_nat (Z.log2 quotient)))) quotient 0 with
         | Some strs =>
             ret (out +:+ print_groups (if european then "." else ",")%char
                                      false (rev strs))
         | None => undefined OutOfBounds
         end) in
    let out :=
      if negb (precision o =? 0) then
        let out := out +:+ String (if european then "," else ".")%char EmptyString in
        out +:+ padded (Z.to_nat (precision o)) "0" (mpz_get_str rquotient)
      else out in
    let out :=
      if has_flag (c_flags o) COMMODITY_STYLE_SUFFIXED then
        let out :=
          if has_flag (c_flags o) COMMODITY_STYLE_SEPARATED then out +:+ " " else out in
        out +:+ print_symbol o
      else out in
    ret out.

(** ** Validity *)

Definition valid (this : amount_t) : M bool :=
  match quantity this with
  | Some q =>
      if negb (non_null (commodity this)) then ret false
      else
        let* c := load q in
        if ref c =? 0 then ret false else ret true
  | None =>
      if non_null (commodity this) then ret false else ret true
  end.

(** ** Binary input

    [read_quantity(char *& data)] on a little-endian host; [data] is the
    list of bytes from the cursor on, and comes back advanced.  The record
    starts with a tag: 0 for no quantity, 1 for a new cell placed in the
    next slot of the arena, anything else for a reference to the slot
    [index - 1]. *)

Definition u8 (b : Byte.byte) : Z := Z.of_N (Byte.to_N b).

Definition read_ushort (data : list Byte.byte) : option (Z * list Byte.byte) :=
  match data with
  | b0 :: b1 :: data => Some (u8 b0 + 256 * u8 b1, data)
  | _ => None
  end.

Definition read_uint (data : list Byte.byte) : option (Z * list Byte.byte) :=
  match data with
  | b0 :: b1 :: b2 :: b3 :: data =>
      Some (u8 b0 + 256 * u8 b1 + 65536 * u8 b2 + 16777216 * u8 b3, data)
  | _ => None
  end.

(** [mpz_import(_, count, 1, sizeof(short), 0, 0, data)]: [count] 16-bit
    words, most significant word first, each in host byte order. *)
Fixpoint mpz_import (count : nat) (acc : Z) (data : list Byte.byte) : option Z :=
  match count with
  | O => Some acc
  | S count =>
      match read_ushort data with
      | Some (w, data) => mpz_import count (65536 * acc + w) data
      | None => None
      end
  end.

Definition read_quantity (this : amount_t) (data : list Byte.byte)
    : M (amount_t * list Byte.byte) :=
  match data with
  | [] => undefined OutOfBounds
  | byte :: data =>
      if u8 byte =? 0 then ret (with_quantity None this, data)
      else if u8 byte =? 1 then
        fun s =>
          match bigints s !! bigints_next s with
          | None => Undefined OutOfBounds
          | Some q =>
              let s := set_bigints_next (S (bigints_next s)) s in
              let s := set_cells <[q := bigint_new]> s in
              let this := with_quantity (Some q) this in
              (let* _ := update q (fun c => set_flags (Z.lor (flags c) BIGINT_BULK_ALLOC) c) in
               match read_ushort data with
               | None => undefined OutOfBounds
               | Some (len, data) =>
                   match mpz_import (Z.to_nat (len / 2)) 0 data with
                   | None => undefined OutOfBounds
                   | Some v =>
                       let* _ := update q (set_val v) in
                       let data := drop (Z.to_nat len) data in
                       match data with
                       | [] => undefined OutOfBounds
                       | negative :: data =>
                           let* _ := (if negb (u8 negative =? 0)
                                      then update q (fun c => set_val (- val c) c)
                                      else ret tt) in
                           match read_ushort data with
                           | None => undefined OutOfBounds
                           | Some (p, data) =>
                               let* _ := update q (set_prec p) in
                               ret (this, data)
                           end
                       end
                   end
               end) s
          end
      else
        match read_uint data with
        | None => undefined OutOfBounds
        | Some (index, data) =>
            fun s =>
              match bigints s !! Z.to_nat (uint (index - 1)) with
              | None => Undefined OutOfBounds
              | Some q =>
                  let this := with_quantity (Some q) this in
                  (let* _ := update q (fun c => set_ref (uint (ref c + 1)) c) in
                   ret (this, data)) s
              end
        end
  end.

(** The cells after [_release] of a handle on the live cell [c] at [q]. *)
Definition released (q : positive) (c : bigint_t)
    (m : gmap positive bigint_t) : gmap positive bigint_t :=
  let r := uint (ref c - 1) in
  if r =? 0 then delete q (<[q := set_ref r c]> m)
  else <[q := set_ref r c]> m.

(** The magnitude and scale [operator/=] leaves for a dividend cell [ca], a
    divisor cell [cb] and the commodity [o] of the dividend. *)
Definition divided (ca cb : bigint_t) (o : commodity_t) : Z * Z :=
  let v := Z.quot (val ca * 10 ^ (prec cb + 6)) (val cb) in
  let p := ushort (prec ca + 6) in
  if p >? uint (precision o + 6)
  then (mpz_round v p (uint (precision o + 6)), ushort (uint (precision o + 6)))
  else (v, p).

(** A program run from static storage: [initialize_amounts], then [m]. *)
Definition run {A} (m : M A) : result A :=
  (let* _ := initialize_amounts in m) static_store.

(** ** Outcomes that are not a throw *)

Definition no_throw {A} (r : result A) : Prop :=
  match r with
  | Throw _ _ _ => False
  | _ => True
  end.

Definition nothrow {A} (m : M A) : Prop := forall s, no_throw (m s).

(** ** Valuation

    [commodity_t::updater] is a hook supplied from outside the engine; it
    is a parameter here ([None] is the null pointer [initialize_amounts]
    leaves).  It receives the commodity, the moment, the date of the price
    found, the date of the newest price and the price, which it may
    replace. *)

Section Valuation.

Variable updater : option (positive -> Z -> Z -> Z -> amount_t -> M amount_t).

(** The loop of [commodity_t::value], from the newest price to the oldest:
    the first entry not later than [moment], or the newest one when
    [moment] is 0 ([difftime(moment, first) >= 0] is [first <= moment]). *)
Fixpoint find_price (moment : Z) (rhistory : list (Z * amount_t))
    : option (Z * amount_t) :=
  match rhistory with
  | [] => None
  | (first, second) :: rhistory =>
      if (moment =? 0) || (first <=? moment) then Some (first, second)
      else find_price moment rhistory
  end.

Definition commodity_value (this : positive) (moment : Z) : M amount_t :=
  let* o := load_commodity (Some this) in
  let age := 0 in
  let price := amount_absent in
  let* found :=
    match find_price moment (rev (history o)) with
    | Some (first, second) =>
        let* price := assign price second in
        ret (first, price)
    | None => ret (age, price)
    end in
  let age := fst found in
  let price := snd found in
  match updater with
  | Some call =>
      let newest :=
        match rev (history o) with
        | (first, _) :: _ => first
        | [] => 0
        end in
      call this moment age newest price
  | None => ret price
  end.

Definition value (this : amount_t) (moment : Z) : M amount_t :=
  if non_null (quantity this) then
    let* o := load_commodity (commodity this) in
    if negb (has_flag (c_flags o) COMMODITY_STYLE_NOMARKET) then
      let* k := deref (commodity this) in
      let* amt := commodity_value k moment in
      let* nonzero := to_bool amt in
      if nonzero then
        let* product := mul amt this in
        let* o := load_commodity (commodity this) in
        let* r := round product (precision o) in
        let* _ := amount_destroy product in
        let* _ := amount_destroy amt in
        ret r
      else
        let* _ := amount_destroy amt in
        amount_copy this
    else amount_copy this
  else amount_copy this.

End Valuation.

(** ** The invariant of [amount_t]

    [invariant] is the statement on the two pointers; [is_valid] is the
    audit predicate of the code answering [true], which adds that the cell
    is live with a non-zero count. *)

Definition invariant (a : amount_t) : Prop :=
  is_Some (quantity a) <-> is_Some (commodity a).

Definition is_valid (s : store) (a : amount_t) : Prop :=
  valid a s = Ok true s.

(** The reference count found at an address, 0 where no cell lives. *)
Definition rc (s : store) (q : positive) : Z :=
  match cells s !! q with
  | Some c => ref c
  | None => 0
  end.

(** Every live cell is counted at least once and below [bound]. *)
Definition counted (bound : Z) (s : store) : Prop :=
  forall q c, cells s !! q = Some c -> 1 <= ref c < bound.

#[local] Instance counted_dec bound s : Decision (counted bound s).
Proof.
  unfold counted. apply (map_Forall_dec (fun _ c => 1 <= ref c < bound)).
Defined.

(** The prices recorded in the histories are valid amounts. *)
Definition prices_valid (s : store) : Prop :=
  forall k o t p,
    objects s !! k = Some o -> In (t, p) (history o) -> is_valid s p.

(** What an operation guarantees: [post] of its result and store when it
    returns, [exc] of the receiver and store when it throws. *)
Definition ensures {A} (m : M A) (s : store)
    (post : A -> store -> Prop) (exc : amount_t -> store -> Prop) : Prop :=
  match m s with
  | Ok a s' => post a s'
  | Throw _ this s' => exc this s'
  | Undefined _ => True
  end.

(** ** Bookkeeping of reference counts

    [ind P] is 1 when [P] holds and 0 otherwise. *)
Definition ind (P : Prop) `{Decision P} : Z := if decide P then 1 else 0.

(** [held s a]: [a] satisfies the invariant and its cell, if any, is counted
    at least once. *)
Definition held (s : store) (a : amount_t) : Prop :=
  match quantity a with
  | Some q => is_Some (commodity a) /\ 1 <= rc s q
  | None => commodity a = None
  end.

(** [keeps s s']: whatever is held in [s] is held in [s']. *)
Definition keeps (s s' : store) : Prop :=
  forall other, held s other -> held s' other.

(** [detached this s this' s']: the receiver kept its cell, or moved to a
    cell of its own that was not live, leaving one count less on the old
    one; nothing else changed in the counts. *)
Definition detached (this : amount_t) (s : store) (this' : amount_t) (s' : store)
    : Prop :=
  null_commodity s' = null_commodity s /\
  match quantity this with
  | None => this' = this /\ forall p, rc s' p = rc s p
  | Some q =>
      exists q', this' = Amount (Some q') (commodity this) /\
        (q' <> q -> rc s q' = 0 /\ 1 < rc s q) /\
        forall p, rc s' p
          = rc s p + (if decide (q' = q) then 0 else ind (p = q') - ind (p = q))
  end.

(** [added this s r s']: [r] is one more handle on the cell of [this], or on
    a cell that was not live; nothing else changed in the counts. *)
Definition added (this : amount_t) (s : store) (r : amount_t) (s' : store)
    : Prop :=
  null_commodity s' = null_commodity s /\
  match quantity this with
  | None => r = Amount None None /\ forall p, rc s' p = rc s p
  | Some q =>
      exists q', r = Amount (Some q') (commodity this) /\
        1 <= rc s q /\ (q' <> q -> rc s q' = 0) /\
        forall p, rc s' p = rc s p + ind (p = q')
  end.

(** The postconditions used for the operations. *)
Definition valid_after (a : amount_t) (s' : store) : Prop :=
  invariant a /\ is_valid s' a.

Definition never (t : amount_t) (s' : store) : Prop := False.


(** ** Numbers, registries and histories

    Notions in which the properties of the operations are stated, and the
    functions of amount.cc that add prices, write quantities and clean
    the price histories. *)

Definition payload (s : store) (p : positive) : option (Z * Z) :=
  match cells s !! p with
  | Some c => Some (val c, prec c)
  | None => None
  end.

Definition with_cells (m : gmap positive bigint_t) (s : store) : store :=
  set_cells (fun _ => m) s.

Definition rescaled (c : bigint_t) (p : Z) : Z :=
  if p <? prec c then Z.quot (val c) (10 ^ (prec c - p))
  else val c * 10 ^ (p - prec c).

(** The magnitudes of two cells brought to the larger of their scales. *)
Definition aligned (c ac : bigint_t) : Z * Z :=
  let p := Z.max (prec c) (prec ac) in
  (val c * 10 ^ (p - prec c), val ac * 10 ^ (p - prec ac)).

(** What [round_to_headroom] leaves in a cell of magnitude [v] at scale
    [p] under a commodity of precision [n]. *)
Definition headroom (v p n : Z) : Z * Z :=
  if p >? n + 6 then ((v + 5 * 10 ^ (p - (n + 6) - 1)) / 10 ^ (p - (n + 6)), n + 6)
  else (v, p).

(** The symbol table is sound: a registered symbol leads to a live
    commodity that carries it. *)
Definition registry_ok (s : store) : Prop :=
  forall sym k, commodities s !! sym = Some k ->
    exists o, objects s !! k = Some o /\ symbol o = sym.

(** [o'] is [o] with a display style that only grew: no flag cleared, no
    decimals lost. *)
Definition style_grew (o o' : commodity_t) : Prop :=
  symbol o' = symbol o /\ quote o' = quote o /\ history o' = history o /\
  precision o <= precision o' /\
  forall bit, has_flag (c_flags o) bit = true -> has_flag (c_flags o') bit = true.

(** Tokens whose separators the copy loop of [parse] handles: each comma or
    period is followed by a character that is not one. *)
Definition is_separator (c : ascii) : bool := is_char "," c || is_char "." c.

Fixpoint well_separated (p : string) : bool :=
  match p with
  | EmptyString => true
  | String c p' =>
      if is_separator c then
        match p' with
        | EmptyString => false
        | String c' p'' => negb (is_separator c') && well_separated p''
        end
      else well_separated p'
  end.

Fixpoint without_separators (p : string) : string :=
  match p with
  | EmptyString => EmptyString
  | String c p' =>
      if is_separator c then without_separators p'
      else String c (without_separators p')
  end.

(** ** Price histories

    [history_map] is a [std::map] from dates to amounts: the entries are
    kept in ascending order of date, one per date. *)

(** [history.find(date)]. *)
Fixpoint history_find (date : Z) (h : list (Z * amount_t)) : option amount_t :=
  match h with
  | [] => None
  | (first, second) :: h =>
      if first =? date then Some second else history_find date h
  end.

(** The entry found, with its amount replaced. *)
Fixpoint history_set (date : Z) (price : amount_t) (h : list (Z * amount_t))
    : list (Z * amount_t) :=
  match h with
  | [] => []
  | (first, second) :: h =>
      if first =? date then (first, price) :: h
      else (first, second) :: history_set date price h
  end.

(** [history.insert(history_pair(date, price))] for a date not present. *)
Fixpoint history_insert (date : Z) (price : amount_t) (h : list (Z * amount_t))
    : list (Z * amount_t) :=
  match h with
  | [] => [(date, price)]
  | (first, second) :: h' =>
      if date <? first then (date, price) :: h
      else (first, second) :: history_insert date price h'
  end.

(** [commodity_t::add_price]; [this] is the address of the commodity and
    [price] an amount other than the entry it may replace.  An entry found
    is assigned to; otherwise [history_pair(date, price)] is a temporary
    holding a copy of [price], the map enters a copy of the temporary, and
    the temporary is destroyed. *)
Definition add_price (this : positive) (date : Z) (price : amount_t) : M unit :=
  let* o := load_commodity (Some this) in
  match history_find date (history o) with
  | Some second =>
      let* second := assign second price in
      let* o := load_commodity (Some this) in
      save_commodity this (set_history (history_set date second (history o)) o)
  | None =>
      let* pair := amount_copy price in
      let* second := amount_copy pair in
      let* o := load_commodity (Some this) in
      let* _ := save_commodity this
                  (set_history (history_insert date second (history o)) o) in
      amount_destroy pair
  end.

(** The dates of a history strictly ascend. *)
Fixpoint ascending (h : list (Z * amount_t)) : bool :=
  match h with
  | [] => true
  | (first, _) :: h' =>
      match h' with
      | [] => true
      | (next, _) :: _ => (first <? next) && ascending h'
      end
  end.

(** ** Binary output

    [write_quantity] on a little-endian host.  [bigints_index] and
    [bigints_count] are the counters of binary.cc for the cells written so
    far; they are passed along with the bytes sent to the stream. *)

Record writer : Type := Writer {
  bigints_index : Z;      (* unsigned int *)
  bigints_count : Z       (* unsigned int *)
}.

Definition set_index (i : Z) (c : bigint_t) : bigint_t :=
  Bigint (val c) (prec c) (flags c) (ref c) i.

(** The byte holding [x mod 256]. *)
Definition byte_of (x : Z) : Byte.byte :=
  match Byte.of_N (Z.to_N (x mod 256)) with
  | Some b => b
  | None => Byte.x00
  end.

Definition write_ushort (x : Z) : list Byte.byte :=
  [byte_of x; byte_of (x / 256)].

Definition write_uint (x : Z) : list Byte.byte :=
  [byte_of x; byte_of (x / 256); byte_of (x / 65536); byte_of (x / 16777216)].

(** [mpz_export(buf, &size, 1, sizeof(short), 0, 0, x)]: the magnitude of
    [x] in 16-bit words, most significant word first, each in host byte
    order; no word at all for zero.  The result is [size] and the bytes
    stored in [buf]. *)
Definition word_count (x : Z) : nat :=
  if x =? 0 then O else S (Z.to_nat (Z.log2 x / 16)).

Fixpoint export_words (count : nat) (x : Z) : list Byte.byte :=
  match count with
  | O => []
  | S count => export_words count (x / 65536) ++ write_ushort (x mod 65536)
  end.

Definition mpz_export (x : Z) : nat * list Byte.byte :=
  let size := word_count (Z.abs x) in
  (size, export_words size (Z.abs x)).

(** The bytes written, the counters and the store ([index] is written to
    the cell).  [buf] holds 4096 bytes. *)
Definition write_quantity (this : amount_t) (w : writer)
    : M (list Byte.byte * writer) :=
  match quantity this with
  | None => ret ([byte_of 0], w)
  | Some q =>
      let* c := load q in
      if index c =? 0 then
        let w := Writer (uint (bigints_index w + 1)) (uint (bigints_count w + 1)) in
        let* _ := update q (set_index (bigints_index w)) in
        let out := [byte_of 1] in
        let (size, buf) := mpz_export (val c) in
        if 4096 <? 2 * Z.of_nat size then undefined OutOfBounds
        else
          let len := ushort (Z.of_nat size * 2) in
          let out := out ++ write_ushort len in
          if negb (len =? 0) then
            let out := out ++ firstn (Z.to_nat len) buf in
            let byte := if mpz_sgn (val c) <? 0 then 1 else 0 in
            let out := out ++ [byte_of byte] in
            let out := out ++ write_ushort (prec c) in
            ret (out, w)
          else ret (out, w)
      else if negb (ref c >? 1) then undefined AssertionFailed
      else
        (* Since this value has already been written, we simply write
           out a reference to which one it was. *)
        ret ([byte_of 2] ++ write_uint (index c), w)
  end.

(** ** Prices that outlive a journal

    [clean_commodity_history(item_pool, item_pool_end)]: [pool] tells
    whether an address lies in the range.  Every price whose quantity lies
    in the pool gets a cell of its own on the heap.  The commodities are
    visited in the order of their symbols, the prices in the order of
    their dates. *)

Definition clean_price (pool : positive -> bool) (price : amount_t) : M amount_t :=
  match quantity price with
  | Some quantity =>
      if pool quantity then
        let* c := load quantity in
        if negb (has_flag (flags c) BIGINT_BULK_ALLOC) then undefined AssertionFailed
        else
          (* Since the journal in which this price was bulk alloc'd is
             going away, we must make a new copy of the value. *)
          let* q := new_bigint (bigint_copy c) in
          let r := uint (ref c - 1) in
          let* _ := update quantity (set_ref r) in
          let* _ := (if r =? 0 then destroy quantity else ret tt) in
          ret (with_quantity (Some q) price)
      else ret price
  | None => ret price
  end.

Fixpoint clean_history (pool : positive -> bool) (h : list (Z * amount_t))
    : M (list (Z * amount_t)) :=
  match h with
  | [] => ret []
  | (first, second) :: h =>
      let* second := clean_price pool second in
      let* h := clean_history pool h in
      ret ((first, second) :: h)
  end.

Definition clean_commodity (pool : positive -> bool) (k : positive) : M unit :=
  let* o := load_commodity (Some k) in
  let* h := clean_history pool (history o) in
  let* o := load_commodity (Some k) in
  save_commodity k (set_history h o).

Fixpoint clean_commodities (pool : positive -> bool) (ks : list positive) : M unit :=
  match ks with
  | [] => ret tt
  | k :: ks =>
      let* _ := clean_commodity pool k in
      clean_commodities pool ks
  end.

(** The order of [commodities_map], a [std::map] keyed by symbol. *)
Definition symbol_order (a b : string * positive) : Prop :=
  String.leb (fst a) (fst b) = true.

#[local] Instance symbol_order_dec a b : Decision (symbol_order a b).
Proof. unfold symbol_order. apply _. Defined.

Definition commodities_in_order (s : store) : list positive :=
  snd <$> merge_sort symbol_order (map_to_list (commodities s)).

Definition clean_commodity_history (pool : positive -> bool) : M unit :=
  fun s => clean_commodities pool (commodities_in_order s) s.

(** The number an amount stands for in a store. *)
Definition number (s : store) (a : amount_t) : option (Z * Z) :=
  match quantity a with
  | Some q => payload s q
  | None => None
  end.

(** No quantity of the history lies in the pool. *)
Definition outside (pool : positive -> bool) (a : amount_t) : Prop :=
  forall q, quantity a = Some q -> pool q = false.

(** [settled pool s0 s1]: from [s0] to [s1] the cells outside the pool kept
    their numbers and the cells in the pool were at most released. *)
Definition settled (pool : positive -> bool) (s0 s1 : store) : Prop :=
  bigints s1 = bigints s0 /\
  (forall q x, pool q = false -> payload s0 q = Some x -> payload s1 q = Some x) /\
  (forall q x, pool q = true -> payload s1 q = Some x -> payload s0 q = Some x).

(** The pool holds arena cells only. *)
Definition pool_in_arena (pool : positive -> bool) (s : store) : Prop :=
  forall q, pool q = true -> q ∈ bigints s.

(** A price [e] of the store [s0] and what became of it in [s1]. *)
Definition cleaned (pool : positive -> bool) (s0 s1 : store)
    (e e' : Z * amount_t) : Prop :=
  fst e' = fst e /\ commodity (snd e') = commodity (snd e) /\
  outside pool (snd e') /\
  forall x, number s0 (snd e) = Some x -> number s1 (snd e') = Some x.

(** The same before it is known to have been visited. *)
Definition carried (pool : positive -> bool) (s0 s1 : store)
    (e e' : Z * amount_t) : Prop :=
  e' = e \/ cleaned pool s0 s1 e e'.

(** What is known of the commodities while they are visited. *)
Definition visiting (pool : positive -> bool) (s0 s1 : store) : Prop :=
  settled pool s0 s1 /\
  forall k o, objects s0 !! k = Some o ->
    exists o1, objects s1 !! k = Some o1 /\
      symbol o1 = symbol o /\ quote o1 = quote o /\
      precision o1 = precision o /\ c_flags o1 = c_flags o /\
      Forall2 (carried pool s0 s1) (history o) (history o1).

(** The prices of the commodity at [k] are all outside the pool. *)
Definition visited (pool : positive -> bool) (s1 : store) (k : positive) : Prop :=
  exists o1, objects s1 !! k = Some o1 /\
    Forall (fun e => outside pool (snd e)) (history o1).

(** ** Sample stores

    An initialised engine with the commodity [$] at two decimals: 10.00 at
    cell 2 and 3.000 at cell 3, each held once, and -1.5 at cell 4, held
    twice; the arena has the two slots 10 and 11. *)

Definition sample_store : store :=
  Store {[ 1%positive := Bigint 1 0 0 1 0;
           2%positive := Bigint 1000 2 0 1 0;
           3%positive := Bigint 3000 3 0 1 0;
           4%positive := Bigint (-15) 1 0 2 0 ]}
        {[ 1%positive := Commodity "" false 0 0 [];
           2%positive := Commodity "$" false 2 0 [] ]}
        {[ "" := 1%positive; "$" := 2%positive ]}
        (Some 1%positive) [10%positive; 11%positive] 0.

Definition sample_ten : amount_t := Amount (Some 2%positive) (Some 2%positive).
Definition sample_three : amount_t := Amount (Some 3%positive) (Some 2%positive).
Definition sample_debt : amount_t := Amount (Some 4%positive) (Some 2%positive).

(** The same engine with the commodity [EUR], priced at 1.25 dollars since
    the date 100, and 2.00 euros at cell 6.  The price lies in slot 10 of
    the arena. *)
Definition priced_store : store :=
  Store {[ 1%positive := Bigint 1 0 0 1 0;
           6%positive := Bigint 200 2 0 1 0;
           10%positive := Bigint 125 2 BIGINT_BULK_ALLOC 1 0 ]}
        {[ 1%positive := Commodity "" false 0 0 [];
           2%positive := Commodity "$" false 2 0 [];
           3%positive := Commodity "EUR" false 2 0
                           [(100, Amount (Some 10%positive) (Some 2%positive))] ]}
        {[ "" := 1%positive; "$" := 2%positive; "EUR" := 3%positive ]}
        (Some 1%positive) [10%positive; 11%positive] 1.

(** An engine whose cell 2 holds 0.00 dollars. *)
Definition zero_store : store :=
  Store {[ 2%positive := Bigint 0 2 0 1 0 ]}
        {[ 2%positive := Commodity "$" false 2 0 [] ]}
        {[ "$" := 2%positive ]} None [10%positive] 0.

Definition sample_euros : amount_t := Amount (Some 6%positive) (Some 3%positive).
Definition sample_price : amount_t := Amount (Some 10%positive) (Some 2%positive).

(** The pool made of the two arena slots. *)
Definition sample_pool (q : positive) : bool :=
  bool_decide (q ∈ [10%positive; 11%positive]).

#[local] Instance registered_dec s sym k :
  Decision (exists o, objects s !! k = Some o /\ symbol o = sym).
Proof.
  destruct (objects s !! k) as [o|].
  - destruct (decide (symbol o = sym)) as [Heq|Hne].
    + left. exists o. split; [reflexivity|exact Heq].
    + right. intros (o' & [= <-] & Hs). exact (Hne Hs).
  - right. intros (o' & Ho & _). discriminate Ho.
Defined.

#[local] Instance registry_ok_dec s : Decision (registry_ok s).
Proof.
  unfold registry_ok.
  apply (map_Forall_dec
           (fun sym k => exists o, objects s !! k = Some o /\ symbol o = sym)).
Defined.

(** * Properties *)

Lemma mpz_cmp_lt x y : (mpz_cmp x y <? 0) = (x <? y).
Proof. unfold mpz_cmp, Z.ltb. destruct (x ?= y); reflexivity. Qed.

Lemma mpz_cmp_ge x y : (mpz_cmp x y >=? 0) = (x >=? y).
Proof. unfold mpz_cmp, Z.geb. destruct (x ?= y); reflexivity. Qed.

Lemma pow10_split k : 0 < k -> 10 ^ k = 10 * 10 ^ (k - 1).
Proof.
  intros Hk. replace k with (1 + (k - 1)) at 1 by lia.
  rewrite Z.pow_add_r by lia. reflexivity.
Qed.

Lemma mpz_round_by_cases value from_scale to_scale :
  to_scale < from_scale ->
  mpz_round value from_scale to_scale = round_by_cases value from_scale to_scale.
Proof.
  intros Hlt. unfold mpz_round, round_by_cases, mpz_ui_pow_ui, mpz_sgn.
  rewrite mpz_cmp_lt, mpz_cmp_ge.
  set (k := from_scale - to_scale).
  assert (Hk : 0 < k) by (unfold k; lia).
  set (d := 10 ^ k).
  assert (Hd : 0 < d) by (unfold d; apply Z.pow_pos_nonneg; lia).
  assert (Hhalf : Z.quot d 10 * 5 = 5 * 10 ^ (k - 1)).
  { unfold d. rewrite (pow10_split k Hk).
    rewrite (Z.mul_comm 10 (10 ^ (k - 1))), Z.quot_mul by lia. lia. }
  rewrite Hhalf. set (half := 5 * 10 ^ (k - 1)).
  assert (Hdh : d = 2 * half).
  { unfold d, half. rewrite (pow10_split k Hk). lia. }
  pose proof (Z.quot_rem' value d) as Hqr.
  set (q := Z.quot value d) in *. set (r := Z.rem value d) in *.
  assert (Hr : - d < r < d).
  { pose proof (Z.rem_bound_abs value d ltac:(lia)). fold r in H. lia. }
  assert (Hsgn : (Z.sgn r <? 0) = (r <? 0)).
  { destruct r; reflexivity. }
  rewrite Hsgn.
  destruct (r <? 0) eqn:Hneg.
  - apply Z.ltb_lt in Hneg.
    replace (0 <=? r) with false by (symmetry; apply Z.leb_gt; lia).
    simpl.
    destruct (r <? - half) eqn:Hcmp.
    + replace (value + (0 - (d + r))) with ((q - 1) * d) by lia.
      apply Z.quot_mul; lia.
    + replace (value - r) with (q * d) by lia.
      apply Z.quot_mul; lia.
  - apply Z.ltb_ge in Hneg.
    replace (0 <=? r) with true by (symmetry; apply Z.leb_le; lia).
    rewrite Z.geb_leb. simpl.
    destruct (half <=? r) eqn:Hcmp.
    + replace (value + (d - r)) with ((q + 1) * d) by lia.
      apply Z.quot_mul; lia.
    + replace (value - r) with (q * d) by lia.
      apply Z.quot_mul; lia.
Qed.

(** At a remainder of exactly [half] the code rounds away from zero; at
    exactly [-half] it truncates toward zero. *)
Lemma mpz_round_at_half value from_scale to_scale :
  to_scale < from_scale ->
  let d := 10 ^ (from_scale - to_scale) in
  let half := 5 * 10 ^ (from_scale - to_scale - 1) in
  (Z.rem value d = half -> mpz_round value from_scale to_scale = Z.quot value d + 1) /\
  (Z.rem value d = - half -> mpz_round value from_scale to_scale = Z.quot value d).
Proof.
  intros Hlt d half.
  assert (Hhalf : 0 < half).
  { unfold half. apply Z.mul_pos_pos; [lia|]. apply Z.pow_pos_nonneg; lia. }
  rewrite (mpz_round_by_cases _ _ _ Hlt). unfold round_by_cases.
  fold d. fold half. split; intros ->.
  - rewrite (proj2 (Z.leb_le 0 half)) by lia.
    rewrite Z.leb_refl. reflexivity.
  - rewrite (proj2 (Z.leb_gt 0 (- half))) by lia.
    rewrite (proj2 (Z.ltb_lt (- half) 0)) by lia.
    rewrite Z.ltb_irrefl. reflexivity.
Qed.

(** C1 (code behaviour at the boundary): with one decimal rounded away,
    [-15] has truncated quotient [-1] and remainder [-5 = -half]; the claim
    asks for [-2] (away from zero, as [15] gives [2]), the code tests
    [remainder < -half] strictly and returns [-1]. *)
Lemma mpz_round_negative_half_truncates :
  Z.rem (-15) (10 ^ (1 - 0)) = - (5 * 10 ^ (1 - 0 - 1)) /\
  mpz_round (-15) 1 0 = -1 /\
  mpz_round 15 1 0 = 2.
Proof. repeat split; reflexivity. Qed.

(** ** Operations that never throw *)

Lemma nothrow_ret {A} (a : A) : nothrow (ret a).
Proof. intros s. exact I. Qed.

Lemma nothrow_undefined {A} f : nothrow (@undefined A f).
Proof. intros s. exact I. Qed.

Lemma nothrow_bind {A B} (m : M A) (k : A -> M B) :
  nothrow m -> (forall a, nothrow (k a)) -> nothrow (bind m k).
Proof.
  intros Hm Hk s. unfold bind. specialize (Hm s).
  destruct (m s) as [a s'| |]; simpl in *; auto. apply Hk.
Qed.

Lemma nothrow_if {A} (b : bool) (m1 m2 : M A) :
  nothrow m1 -> nothrow m2 -> nothrow (if b then m1 else m2).
Proof. destruct b; auto. Qed.

Lemma nothrow_deref p : nothrow (deref p).
Proof. destruct p; intros s; exact I. Qed.

Lemma nothrow_load q : nothrow (load q).
Proof. intros s. unfold load. destruct (cells s !! q); exact I. Qed.

Lemma nothrow_save q c : nothrow (save q c).
Proof. intros s. exact I. Qed.

Lemma nothrow_destroy q : nothrow (destroy q).
Proof. intros s. exact I. Qed.

Lemma nothrow_new_bigint c : nothrow (new_bigint c).
Proof. intros s. exact I. Qed.

Lemma nothrow_get_null_commodity : nothrow get_null_commodity.
Proof. intros s. exact I. Qed.

Lemma nothrow_load_commodity p : nothrow (load_commodity p).
Proof.
  intros s. unfold load_commodity. destruct p as [c|]; [|exact I].
  destruct (objects s !! c); exact I.
Qed.

Create HintDb nothrow.
#[local] Hint Resolve nothrow_ret nothrow_undefined nothrow_bind nothrow_if
  nothrow_deref nothrow_load nothrow_save nothrow_destroy nothrow_new_bigint
  nothrow_get_null_commodity nothrow_load_commodity : nothrow.

Ltac nothrow_tac :=
  repeat first
    [ progress (intros)
    | progress (cbv zeta)
    | apply nothrow_bind
    | apply nothrow_if
    | solve [eauto with nothrow]
    | match goal with
      | |- nothrow (match ?x with _ => _ end) => destruct x
      end ].

Lemma nothrow_update q f : nothrow (update q f).
Proof. unfold update. nothrow_tac. Qed.
#[local] Hint Resolve nothrow_update : nothrow.

Lemma nothrow_get p : nothrow (get p).
Proof. unfold get. nothrow_tac. Qed.

Lemma nothrow_modify p f : nothrow (modify p f).
Proof. unfold modify. nothrow_tac. Qed.
#[local] Hint Resolve nothrow_get nothrow_modify : nothrow.

Lemma nothrow_release this : nothrow (_release this).
Proof. unfold _release. nothrow_tac. Qed.
#[local] Hint Resolve nothrow_release : nothrow.

Lemma nothrow_dup this : nothrow (_dup this).
Proof. unfold _dup. nothrow_tac. Qed.

Lemma nothrow_copy this amt : nothrow (_copy this amt).
Proof. unfold _copy. nothrow_tac. Qed.
#[local] Hint Resolve nothrow_dup nothrow_copy : nothrow.

Lemma nothrow_amount_copy amt : nothrow (amount_copy amt).
Proof. unfold amount_copy. nothrow_tac. Qed.

Lemma nothrow_amount_destroy this : nothrow (amount_destroy this).
Proof. unfold amount_destroy. nothrow_tac. Qed.
#[local] Hint Resolve nothrow_amount_copy nothrow_amount_destroy : nothrow.

Lemma nothrow_resize this p : nothrow (_resize this p).
Proof. unfold _resize. nothrow_tac. Qed.
#[local] Hint Resolve nothrow_resize : nothrow.

Lemma nothrow_combine f this amt : nothrow (combine f this amt).
Proof. unfold combine. nothrow_tac. Qed.

Lemma nothrow_round_to_headroom this : nothrow (round_to_headroom this).
Proof. unfold round_to_headroom. nothrow_tac. Qed.
#[local] Hint Resolve nothrow_combine nothrow_round_to_headroom : nothrow.

(** ** Memory management, step by step *)

Lemma heap_fresh_not_live s : cells s !! heap_fresh s = None.
Proof.
  unfold heap_fresh.
  match goal with |- _ !! fresh ?X = None => pose proof (is_fresh X) as Hf end.
  apply not_elem_of_dom. set_solver.
Qed.

Lemma heap_fresh_ne s q c : cells s !! q = Some c -> heap_fresh s <> q.
Proof. intros Hq Heq. rewrite <- Heq, heap_fresh_not_live in Hq. discriminate. Qed.

Lemma load_eq s q c : cells s !! q = Some c -> load q s = Ok c s.
Proof. intros H. unfold load. rewrite H. reflexivity. Qed.

Lemma release_eq this q c s :
  quantity this = Some q -> cells s !! q = Some c ->
  _release this s = Ok tt (set_cells (released q c) s).
Proof.
  intros Hq Hc. unfold _release, bind, deref. rewrite Hq. simpl.
  rewrite (load_eq _ _ _ Hc). unfold released. simpl.
  destruct (uint (ref c - 1) =? 0); [destruct (negb _)|]; reflexivity.
Qed.

Lemma dup_eq this q c s :
  quantity this = Some q -> cells s !! q = Some c ->
  _dup this s =
    if ref c >? 1 then
      Ok (with_quantity (Some (heap_fresh s)) this)
         (set_cells (fun m => released q c (<[heap_fresh s := bigint_copy c]> m)) s)
    else Ok this s.
Proof.
  intros Hq Hc. unfold _dup, bind, deref. rewrite Hq. simpl.
  rewrite (load_eq _ _ _ Hc). destruct (ref c >? 1); [|reflexivity].
  unfold new_bigint.
  rewrite (release_eq this q c); [reflexivity|assumption|].
  simpl. rewrite lookup_insert_ne; [assumption|]. eapply heap_fresh_ne; eauto.
Qed.

Lemma dup_returns this q c s :
  quantity this = Some q -> cells s !! q = Some c ->
  exists this' s', _dup this s = Ok this' s' /\ commodity this' = commodity this.
Proof.
  intros Hq Hc. rewrite (dup_eq this q c s Hq Hc).
  destruct (ref c >? 1); eauto.
Qed.

(** Addition and subtraction throw exactly on different commodity
    pointers; the null commodity is no exception. *)
Lemma mismatch_iff (mpz_op : Z -> Z -> Z) (what : string) (this amt : amount_t) s :
  CommodityMismatch (AmountError what) ->
  (exists e this' s',
      CommodityMismatch e /\
      (if negb (bool_decide (commodity this = commodity amt))
       then throw what this else combine mpz_op this amt) s = Throw e this' s')
  <-> commodity this <> commodity amt.
Proof.
  intros Hwhat. case_bool_decide as Hc; simpl.
  - split; [|congruence]. intros (e & t & s' & _ & Hthrow).
    pose proof (nothrow_combine mpz_op this amt s) as Hn.
    rewrite Hthrow in Hn. destruct Hn.
  - split; [auto|]. intros _. eexists _, _, _. split; [exact Hwhat|reflexivity].
Qed.

(** C3 (as amended): with both quantities present (and the cell of the
    receiver live), [+=] and [-=] raise CommodityMismatch exactly when the
    two commodity pointers differ, whether or not one of them is the null
    commodity. *)
Theorem add_sub_mismatch_iff_pointers_differ
    (s : store) (a b : amount_t) (qa qb : positive) (ca : bigint_t) :
  quantity a = Some qa -> cells s !! qa = Some ca -> quantity b = Some qb ->
  ((exists e this s', CommodityMismatch e /\ add_assign a b s = Throw e this s')
     <-> commodity a <> commodity b) /\
  ((exists e this s', CommodityMismatch e /\ sub_assign a b s = Throw e this s')
     <-> commodity a <> commodity b).
Proof.
  intros Ha Hca Hb.
  destruct (dup_returns a qa ca s Ha Hca) as (a' & s' & Hdup & Hcom).
  split.
  - unfold add_assign. rewrite Ha, Hb. simpl. unfold bind at 1. rewrite Hdup.
    rewrite <- Hcom. apply mismatch_iff. left. reflexivity.
  - unfold sub_assign. rewrite Ha, Hb. simpl. unfold bind at 1. rewrite Hdup.
    rewrite <- Hcom. apply mismatch_iff. right. reflexivity.
Qed.

(** ** Stepping through monadic code *)

Lemma lookup_released_ne q c m q' :
  q' <> q -> released q c m !! q' = m !! q'.
Proof.
  intros Hne. unfold released. destruct (uint (ref c - 1) =? 0).
  - rewrite lookup_delete_ne, lookup_insert_ne by congruence. reflexivity.
  - rewrite lookup_insert_ne by congruence. reflexivity.
Qed.

Lemma lookup_released_eq q c m :
  uint (ref c - 1) <> 0 ->
  released q c m !! q = Some (set_ref (uint (ref c - 1)) c).
Proof.
  intros Hr. unfold released. apply Z.eqb_neq in Hr. rewrite Hr.
  apply lookup_insert_eq.
Qed.

Lemma bind_get_eq {B} q c (k : bigint_t -> M B) s :
  cells s !! q = Some c -> bind (get (Some q)) k s = k c s.
Proof.
  intros H. unfold get, deref, load, bind, ret. cbv beta.
  rewrite H. reflexivity.
Qed.

Lemma bind_modify_eq {B} q c f (k : unit -> M B) s :
  cells s !! q = Some c ->
  bind (modify (Some q) f) k s = k tt (set_cells <[q := f c]> s).
Proof.
  intros H. unfold modify, update, deref, load, save, bind, ret. cbv beta.
  rewrite H. reflexivity.
Qed.

Lemma bind_load_commodity_eq {B} c o (k : commodity_t -> M B) s :
  objects s !! c = Some o -> bind (load_commodity (Some c)) k s = k o s.
Proof. intros H. unfold bind, load_commodity. cbv beta. rewrite H. reflexivity. Qed.

Ltac norm :=
  try unfold with_quantity, with_commodity;
  cbn [cells objects commodities null_commodity bigints bigints_next
       set_cells set_objects set_commodities set_null_commodity
       set_bigints_next quantity commodity with_quantity with_commodity].

Ltac lookup_tac :=
  norm;
  repeat first
    [ rewrite lookup_insert_eq
    | rewrite lookup_insert_ne by congruence
    | rewrite lookup_released_ne by congruence
    | rewrite lookup_released_eq by assumption ];
  first [ eassumption | reflexivity ].

Ltac exec :=
  repeat first
    [ erewrite bind_get_eq by lookup_tac
    | erewrite bind_modify_eq by lookup_tac
    | erewrite bind_load_commodity_eq by lookup_tac ].

Lemma amount_copy_eq amt q c s :
  quantity amt = Some q -> cells s !! q = Some c ->
  amount_copy amt s
    = Ok amt (set_cells <[q := set_ref (uint (ref c + 1)) c]> s).
Proof.
  intros Hq Hc. unfold amount_copy, _copy. rewrite Hq. cbn [non_null].
  rewrite decide_False by discriminate.
  unfold bind at 1. unfold bind at 1. cbn [quantity non_null ret].
  unfold bind at 1. norm. cbn [deref ret]. unfold bind at 1.
  unfold update, bind, load, save. cbv beta. rewrite Hc.
  unfold ret. destruct amt as [aq ak]. simpl in Hq. subst aq. reflexivity.
Qed.

(** ** Division *)

Lemma div_value s a b qa qb ca cb k o :
  quantity a = Some qa -> cells s !! qa = Some ca ->
  quantity b = Some qb -> cells s !! qb = Some cb ->
  commodity a = Some k -> objects s !! k = Some o ->
  val cb <> 0 ->
  (qa = qb -> 2 <= ref ca < 4294967296) ->
  exists q' c' s',
    div_assign a b s = Ok (Amount (Some q') (commodity a)) s' /\
    cells s' !! q' = Some c' /\
    (val c', prec c') = divided ca cb o.
Proof.
  intros Ha Hca Hb Hcb Hk Ho Hnz Halias.
  assert (Hz : (val cb =? 0) = false) by (apply Z.eqb_neq; exact Hnz).
  unfold div_assign. rewrite Ha, Hb. cbn [negb non_null]. unfold bind at 1.
  rewrite (dup_eq a qa ca s Ha Hca).
  pose proof (heap_fresh_ne s qa ca Hca) as Hf1.
  pose proof (heap_fresh_ne s qb cb Hcb) as Hf2.
  set (f := heap_fresh s) in *.
  assert (Hfin : forall s1 q c1 cb1,
    cells s1 !! q = Some c1 -> cells s1 !! qb = Some cb1 -> q <> qb ->
    objects s1 = objects s ->
    val c1 = val ca -> prec c1 = prec ca -> val cb1 = val cb -> prec cb1 = prec cb ->
    exists q' c' s',
      (let* ac := get (Some qb) in
       let divisor := mpz_ui_pow_ui 10 (prec ac + 6) in
       let* c := get (Some q) in
       let* _ := modify (Some q) (set_val (val c * divisor)) in
       let* c := get (Some q) in
       let* ac := get (Some qb) in
       if val ac =? 0 then undefined GmpDivisionByZero
       else
         let* _ := modify (Some q) (set_val (Z.quot (val c) (val ac))) in
         let* c := get (Some q) in
         let* _ := modify (Some q) (set_prec (ushort (prec c + 6))) in
         round_to_headroom (Amount (Some q) (Some k))) s1
      = Ok (Amount (Some q') (Some k)) s' /\
      cells s' !! q' = Some c' /\ (val c', prec c') = divided ca cb o).
  { intros s1 q c1 cb1 Hc1 Hcb1 Hne Hobj Hv Hp Hvb Hpb.
    cbv zeta. exec. rewrite Hvb, Hz. exec. unfold round_to_headroom. norm.
    exec. erewrite bind_load_commodity_eq by (norm; rewrite Hobj; exact Ho).
    unfold divided. cbn [prec val set_val set_prec]. rewrite ?Hv, ?Hp, ?Hvb, ?Hpb.
    unfold mpz_ui_pow_ui.
    destruct (ushort (prec ca + 6) >? uint (precision o + 6)).
    - exec. eexists _, _, _. split; [reflexivity|]. split; [lookup_tac|].
      reflexivity.
    - eexists _, _, _. split; [reflexivity|]. split; [lookup_tac|].
      reflexivity. }
  destruct (ref ca >? 1) eqn:Href.
  - norm. rewrite Hk.
    destruct (decide (qa = qb)) as [->|Hne].
    + assert (cb = ca) by congruence. subst cb.
      assert (Hr : uint (ref ca - 1) <> 0).
      { unfold uint. rewrite Z.mod_small; lia. }
      eapply Hfin; [lookup_tac| lookup_tac | congruence | reflexivity | reflexivity..].
    + eapply Hfin; [lookup_tac| lookup_tac | congruence | reflexivity | reflexivity..].
  - assert (qa <> qb).
    { intros Heq. apply Halias in Heq. rewrite Z.gtb_ltb in Href. apply Z.ltb_ge in Href. lia. }
    destruct a as [aq ak]. simpl in Ha, Hk. subst aq ak.
    eapply Hfin; eauto.
Qed.

Lemma nothrow_div_present this amt q :
  quantity amt = Some q -> nothrow (div_assign this amt).
Proof.
  intros Hq. unfold div_assign. rewrite Hq. cbn [negb non_null].
  nothrow_tac.
Qed.

Lemma div_throws_iff s a b qa ca :
  quantity a = Some qa -> cells s !! qa = Some ca ->
  (exists this s', div a b s = Throw DivideByZero this s') <-> quantity b = None.
Proof.
  intros Ha Hca. split.
  - intros (this & s' & H).
    destruct (quantity b) as [qb|] eqn:Hqb; [|reflexivity]. exfalso.
    unfold div, binary, bind in H.
    pose proof (nothrow_amount_copy a s) as Hn1.
    destruct (amount_copy a s) as [temp s1| |]; [|destruct Hn1|discriminate].
    pose proof (nothrow_div_present temp b qb Hqb s1) as Hn2.
    destruct (div_assign temp b s1); [discriminate|destruct Hn2|discriminate].
  - intros Hb. unfold div, binary, bind.
    rewrite (amount_copy_eq a qa ca s Ha Hca).
    unfold div_assign. rewrite Ha, Hb. cbn [negb non_null]. unfold throw.
    unfold amount_destroy. rewrite Ha. cbn [non_null].
    erewrite (release_eq a qa); [|exact Ha|lookup_tac].
    eexists _, _. reflexivity.
Qed.




(** ** Commodity mismatch, concretely *)

(** C3 (counterexample): the plain number 5 is under the null commodity,
    3.00 dollars under [$]; both quantities are present, one commodity is
    the null commodity, and [+=] and [-=] raise all the same. *)
Lemma add_null_commodity_raises :
  exists a b s,
    run (let* a := parse_string amount_absent "5" in
         let* b := parse_string amount_absent "$3.00" in
         ret (a, b)) = Ok (a, b) s /\
    is_Some (quantity a) /\ is_Some (quantity b) /\
    commodity a = null_commodity s /\
    commodity a <> commodity b /\
    (exists this s',
        add_assign a b s
          = Throw (AmountError "Adding amounts with different commodities") this s') /\
    (exists this s',
        sub_assign a b s
          = Throw (AmountError "Subtracting amounts with different commodities") this s').
Proof.
  eexists _, _, _. split; [vm_compute; reflexivity|].
  split; [eexists; reflexivity|]. split; [eexists; reflexivity|].
  split; [reflexivity|]. split; [discriminate|].
  split; eexists _, _; vm_compute; reflexivity.
Qed.

Lemma add_sub_mismatch_iff_pointers_differ_witness :
  let s := Store {[ 2%positive := Bigint 5 0 0 1 0;
                    3%positive := Bigint 300 2 0 1 0 ]}
                 {[ 1%positive := Commodity "" false 0 0 [];
                    2%positive := Commodity "$" false 2 0 [] ]}
                 {[ "" := 1%positive; "$" := 2%positive ]} (Some 1%positive) [] 0 in
  let a := Amount (Some 2%positive) (Some 1%positive) in
  let b := Amount (Some 3%positive) (Some 2%positive) in
  (exists e this s', CommodityMismatch e /\ add_assign a b s = Throw e this s')
    <-> commodity a <> commodity b.
Proof.
  intros s a b.
  apply (add_sub_mismatch_iff_pointers_differ s a b 2%positive 3%positive
           (Bigint 5 0 0 1 0)).
  - reflexivity.
  - reflexivity.
  - reflexivity.
Defined.

(** ** Comparison *)

(** With an absent side the macro ignores its operator. *)
Lemma cmp_amount_absent_left op amt :
  cmp_amount op amount_absent amt = cmp_zero OpGt amt.
Proof. reflexivity. Qed.

Lemma cmp_amount_absent_right op this q :
  quantity this = Some q ->
  cmp_amount op this amount_absent = cmp_zero OpLt this.
Proof. intros H. unfold cmp_amount. rewrite H. reflexivity. Qed.

(** C4 (code behaviour): against the zero amount [$0.00] and the positive
    amount [$5.00], the absent amount is neither equal to nor at most zero,
    and is both greater than and at least five; zero is not equal to the
    absent amount either. *)
Lemma cmp_absent_is_not_zero :
  exists zero five s,
    run (let* z := parse_string amount_absent "$0.00" in
         let* f := parse_string amount_absent "$5.00" in
         ret (z, f)) = Ok (zero, five) s /\
    cmp_amount OpEq amount_absent zero s = Ok false s /\
    cmp_amount OpLe amount_absent zero s = Ok false s /\
    cmp_amount OpGe amount_absent zero s = Ok false s /\
    cmp_amount OpGe amount_absent five s = Ok true s /\
    cmp_amount OpGt amount_absent five s = Ok true s /\
    cmp_amount OpEq amount_absent five s = Ok true s /\
    cmp_amount OpEq zero amount_absent s = Ok false s /\
    cmp_amount OpGe zero amount_absent s = Ok false s /\
    cmp_amount OpEq amount_absent amount_absent s = Ok false s.
Proof.
  eexists _, _, _. split; [vm_compute; reflexivity|].
  repeat split; vm_compute; reflexivity.
Qed.

(** C7: two amounts with quantities, under distinct commodities neither of
    which is the null commodity, are incomparable: each of [<], [<=], [>],
    [>=], [==] returns false (and leaves the store alone). *)
Theorem cmp_amount_incomparable
    (s : store) (op : cmp_op) (a b : amount_t) (qa qb ka kb : positive) :
  quantity a = Some qa -> quantity b = Some qb ->
  commodity a = Some ka -> commodity b = Some kb ->
  ka <> kb ->
  null_commodity s <> Some ka -> null_commodity s <> Some kb ->
  cmp_amount op a b s = Ok false s.
Proof.
  intros Hqa Hqb Hka Hkb Hne Hna Hnb.
  unfold cmp_amount. rewrite Hqa, Hqb, Hka, Hkb. cbn [negb non_null].
  unfold bind, get_null_commodity.
  rewrite !bool_decide_eq_false_2; [reflexivity|congruence..].
Qed.

Lemma cmp_amount_incomparable_witness :
  let s := Store {[ 2%positive := Bigint 100 2 0 1 0;
                    3%positive := Bigint 100 2 0 1 0 ]}
                 {[ 1%positive := Commodity "" false 0 0 [];
                    2%positive := Commodity "$" false 2 0 [];
                    3%positive := Commodity "EUR" false 2 0 [] ]}
                 {[ "" := 1%positive; "$" := 2%positive; "EUR" := 3%positive ]}
                 (Some 1%positive) [] 0 in
  let a := Amount (Some 2%positive) (Some 2%positive) in
  let b := Amount (Some 3%positive) (Some 3%positive) in
  cmp_amount OpLt a b s = Ok false s /\
  cmp_amount OpGt a b s = Ok false s /\
  cmp_amount OpEq a b s = Ok false s.
Proof.
  intros s a b.
  split; [|split];
    apply (cmp_amount_incomparable s _ a b 2%positive 3%positive
             2%positive 3%positive);
    first [reflexivity | discriminate].
Defined.

(** ** Multiplication by an absent amount *)

(** C9: an operand without quantity leaves the other operand of a
    multiplication as it is, in pointers and in store; [a * b] is then a
    copy of [a], sharing its cell, whose magnitude and scale are those of
    [a]. *)
Theorem mul_absent_operand_is_identity (s : store) (a b : amount_t) :
  quantity b = None ->
  mul_assign a b s = Ok a s /\
  mul a b s = amount_copy a s /\
  (forall q c, quantity a = Some q -> cells s !! q = Some c ->
     exists c' s',
       mul a b s = Ok a s' /\ cells s' !! q = Some c' /\
       val c' = val c /\ prec c' = prec c).
Proof.
  intros Hb.
  assert (Hmul : forall t s1, mul_assign t b s1 = Ok t s1).
  { intros t s1. unfold mul_assign. rewrite Hb. reflexivity. }
  assert (Hcopy : mul a b s = amount_copy a s).
  { unfold mul, binary, bind. destruct (amount_copy a s) as [t s1| |];
      [rewrite Hmul|..]; reflexivity. }
  split; [apply Hmul|]. split; [exact Hcopy|].
  intros q c Hq Hc. rewrite Hcopy, (amount_copy_eq a q c s Hq Hc).
  eexists _, _. split; [reflexivity|]. split; [lookup_tac|].
  split; reflexivity.
Qed.

Lemma mul_absent_operand_is_identity_witness :
  let s := Store {[ 2%positive := Bigint 1000 2 0 1 0 ]}
                 {[ 2%positive := Commodity "$" false 2 0 [] ]}
                 {[ "$" := 2%positive ]} None [] 0 in
  let a := Amount (Some 2%positive) (Some 2%positive) in
  mul_assign a amount_absent s = Ok a s.
Proof.
  intros s a.
  apply (mul_absent_operand_is_identity s a amount_absent).
  reflexivity.
Defined.

(** ** The grouping loop of the formatter

    The loop over [powers] stops as soon as [10^powers] exceeds the
    quotient; the fuel [format] passes is always enough. *)

Lemma thousands_groups_terminates fuel quotient powers :
  0 < powers -> 0 <= quotient < 10 ^ (powers + 3 * Z.of_nat fuel) ->
  is_Some (thousands_groups (S fuel) quotient powers).
Proof.
  revert powers. induction fuel as [|fuel IH]; intros powers Hp Hq.
  - cbn [thousands_groups]. rewrite (proj2 (Z.gtb_lt _ _)) by lia.
    unfold mpz_ui_pow_ui, mpz_sgn.
    rewrite Z.quot_small; [eexists; reflexivity|].
    replace (powers + 3 * Z.of_nat 0) with powers in Hq by lia. exact Hq.
  - remember (S fuel) as n eqn:Hn. cbn [thousands_groups].
    rewrite (proj2 (Z.gtb_lt _ _)) by lia.
    destruct (mpz_sgn _ =? 0); [eexists; reflexivity|].
    subst n. destruct (IH (powers + 3)) as [l Hl]; [lia| |].
    + replace (powers + 3 + 3 * Z.of_nat fuel)
        with (powers + 3 * Z.of_nat (S fuel)) by lia. exact Hq.
    + rewrite Hl. eexists; reflexivity.
Qed.

Lemma thousands_groups_enough_fuel quotient :
  0 < quotient ->
  is_Some (thousands_groups (S (S (Z.to_nat (Z.log2 quotient)))) quotient 0).
Proof.
  intros Hq. remember (S (Z.to_nat (Z.log2 quotient))) as n eqn:Hn.
  cbn [thousands_groups]. change (0 >? 0) with false. cbv iota.
  subst n.
  destruct (thousands_groups_terminates (Z.to_nat (Z.log2 quotient)) quotient (0 + 3))
    as [l Hl]; [lia| |rewrite Hl; eexists; reflexivity].
  pose proof (Z.log2_nonneg quotient) as Hk.
  destruct (Z.log2_spec quotient Hq) as [_ Hlt].
  rewrite Z2Nat.id by exact Hk. set (k := Z.log2 quotient) in *.
  split; [lia|]. eapply Z.lt_le_trans; [exact Hlt|].
  transitivity (10 ^ Z.succ k).
  - apply Z.pow_le_mono_l. lia.
  - apply Z.pow_le_mono_r; lia.
Qed.

(** ** Scenarios *)

(** C6: under a fresh registry, ["$1,234.50"] parses to magnitude 123450 at
    scale 2; the commodity [$] did not exist, is interned with the single
    flag THOUSANDS (so neither suffixed, nor separated, nor European) and
    has its precision raised from 0 to 2; the amount prints back as
    ["$1,234.50"]. *)
Theorem parse_format_thousands :
  exists s0 a s q c k,
    initialize_amounts static_store = Ok tt s0 /\
    commodities s0 !! "$" = None /\
    parse_string amount_absent "$1,234.50" s0 = Ok a s /\
    quantity a = Some q /\ cells s !! q = Some c /\
    val c = 123450 /\ prec c = 2 /\
    commodity a = Some k /\ commodities s !! "$" = Some k /\
    objects s !! k
      = Some (Commodity "$" false 2 COMMODITY_STYLE_THOUSANDS []) /\
    precision (commodity_new "$") = 0 /\
    format a s = Ok "$1,234.50" s.
Proof.
  eexists _, _, _, _, _, _.
  split; [vm_compute; reflexivity|].
  split; [vm_compute; reflexivity|].
  split; [vm_compute; reflexivity|].
  split; [reflexivity|].
  split; [vm_compute; reflexivity|].
  repeat split; vm_compute; reflexivity.
Qed.

(** C5 (counterexample): the quotient of ["$10.00"] by ["$3.00"] is not
    held at scale 6 with magnitude 3333333. *)
Lemma div_dollars_not_scale_6 :
  exists r s q c,
    run (let* a := parse_string amount_absent "$10.00" in
         let* b := parse_string amount_absent "$3.00" in
         div a b) = Ok r s /\
    quantity r = Some q /\ cells s !! q = Some c /\
    ~ (prec c = 6 /\ val c = 3333333).
Proof.
  eexists _, _, _, _. split; [vm_compute; reflexivity|].
  split; [reflexivity|]. split; [vm_compute; reflexivity|].
  intros [H _]. discriminate H.
Qed.

(** C5 (as amended): the quotient of ["$10.00"] by ["$3.00"] has scale
    2 + 6 = 8 and magnitude 333333333; printed at the precision 2 of the
    commodity it reads ["$3.33"]. *)
Theorem div_dollars_scale_8 :
  exists r s q c,
    run (let* a := parse_string amount_absent "$10.00" in
         let* b := parse_string amount_absent "$3.00" in
         div a b) = Ok r s /\
    quantity r = Some q /\ cells s !! q = Some c /\
    prec c = 8 /\ val c = 333333333 /\
    (exists o, load_commodity (commodity r) s = Ok o s /\ precision o = 2) /\
    format r s = Ok "$3.33" s.
Proof.
  eexists _, _, _, _. split; [vm_compute; reflexivity|].
  split; [reflexivity|]. split; [vm_compute; reflexivity|].
  split; [reflexivity|]. split; [reflexivity|].
  split; [eexists; split; vm_compute; reflexivity|].
  vm_compute; reflexivity.
Qed.

(** ** Zero and non-zero sources *)

Lemma zero_sources_are_absent s sign :
  amount_of_int 0 s = Ok amount_absent s /\
  amount_of_uint 0 s = Ok amount_absent s /\
  amount_of_double (S754_zero sign) s = Ok amount_absent s /\
  amount_of_bool false s = Ok amount_absent s.
Proof. repeat split; reflexivity. Qed.

Lemma assign_zero_to_absent s sign :
  assign_int amount_absent 0 s = Ok amount_absent s /\
  assign_uint amount_absent 0 s = Ok amount_absent s /\
  assign_double amount_absent (S754_zero sign) s = Ok amount_absent s /\
  assign_bool amount_absent false s = Ok amount_absent s.
Proof. repeat split; reflexivity. Qed.

Lemma assign_zero_clears s this q c v sign :
  quantity this = Some q -> cells s !! q = Some c ->
  v = assign_int this 0 s \/ v = assign_uint this 0 s \/
  v = assign_double this (S754_zero sign) s \/ v = assign_bool this false s ->
  exists s', v = Ok amount_absent s'.
Proof.
  intros Hq Hc Hv.
  assert (H : exists s', _clear this s = Ok amount_absent s').
  { unfold _clear, bind. rewrite Hq. cbn [non_null].
    rewrite (release_eq this q c s Hq Hc). eexists. reflexivity. }
  unfold assign_int, assign_uint, assign_double, assign_bool in Hv.
  rewrite Hq in Hv. cbn in Hv. destruct Hv as [->|[->|[->| ->]]]; exact H.
Qed.

Lemma amount_of_int_nonzero s value :
  value <> 0 ->
  exists q s',
    amount_of_int value s = Ok (Amount (Some q) (null_commodity s)) s' /\
    cells s' !! q = Some (Bigint value 0 0 1 0).
Proof.
  intros Hv. unfold amount_of_int. apply Z.eqb_neq in Hv. rewrite Hv.
  cbn [negb]. unfold bind at 1. unfold new_bigint.
  unfold update, bind, load, save, get_null_commodity, ret. cbv beta. norm.
  rewrite lookup_insert_eq. eexists _, _. split; [reflexivity|].
  norm. rewrite lookup_insert_eq. reflexivity.
Qed.

(** C10 (code behaviour): assigning the integer 5 to the amount parsed from
    ["$1.50"], which holds its cell alone, stores magnitude 5 in that cell
    under the null commodity and keeps the scale 2 of the cell: the amount
    is 0.05, not 5 at scale 0. *)
Lemma assign_int_keeps_old_scale :
  exists a s a' s' q c,
    run (parse_string amount_absent "$1.50") = Ok a s /\
    assign_int a 5 s = Ok a' s' /\
    quantity a' = Some q /\ cells s' !! q = Some c /\
    commodity a' = null_commodity s' /\
    val c = 5 /\ prec c = 2.
Proof.
  eexists _, _, _, _, _, _. split; [vm_compute; reflexivity|].
  split; [vm_compute; reflexivity|].
  split; [reflexivity|]. split; [vm_compute; reflexivity|].
  repeat split; reflexivity.
Qed.


(** ** Reference counts *)

Lemma rc_insert s q c p :
  rc (set_cells <[q := c]> s) p = if decide (p = q) then ref c else rc s p.
Proof.
  unfold rc. norm. case_decide as Hp.
  - subst p. rewrite lookup_insert_eq. reflexivity.
  - rewrite lookup_insert_ne by congruence. reflexivity.
Qed.

Lemma rc_released s q c p :
  rc (set_cells (released q c) s) p
    = if decide (p = q) then uint (ref c - 1) else rc s p.
Proof.
  unfold rc. norm. case_decide as Hp.
  - subst p. unfold released. destruct (uint (ref c - 1) =? 0) eqn:Hr.
    + rewrite lookup_delete_eq. apply Z.eqb_eq in Hr. congruence.
    + rewrite lookup_insert_eq. reflexivity.
  - rewrite lookup_released_ne by assumption. reflexivity.
Qed.

Lemma rc_of_cell s q c : cells s !! q = Some c -> rc s q = ref c.
Proof. intros H. unfold rc. rewrite H. reflexivity. Qed.

Lemma counted_rc bound s q c :
  counted bound s -> cells s !! q = Some c -> 1 <= rc s q < bound.
Proof. intros Hs Hc. rewrite (rc_of_cell _ _ _ Hc). eauto. Qed.

Lemma counted_rc_bounds bound s q :
  counted bound s -> 1 < bound -> 0 <= rc s q < bound.
Proof.
  intros Hs Hb. unfold rc. destruct (cells s !! q) as [c|] eqn:Hc; [|lia].
  specialize (Hs q c Hc). lia.
Qed.

Lemma counted_mono bound bound' s :
  counted bound s -> bound <= bound' -> counted bound' s.
Proof. intros Hs Hb q c Hc. specialize (Hs q c Hc). lia. Qed.

Lemma counted_insert bound s q c :
  counted bound s -> 1 <= ref c < bound -> counted bound (set_cells <[q := c]> s).
Proof.
  intros Hs Hc p c'. norm. rewrite lookup_insert. case_decide.
  - intros [= <-]. exact Hc.
  - apply Hs.
Qed.

Lemma uint_small x : 0 <= x < 4294967296 -> uint x = x.
Proof. intros H. unfold uint. apply Z.mod_small. exact H. Qed.

Lemma counted_released bound s q c :
  counted bound s -> bound <= 4294967296 -> cells s !! q = Some c ->
  counted bound (set_cells (released q c) s).
Proof.
  intros Hs Hb Hc p c'. norm. pose proof (Hs q c Hc) as Hq.
  destruct (decide (p = q)) as [->|Hp].
  - unfold released. rewrite uint_small by lia.
    destruct (ref c - 1 =? 0) eqn:Hr.
    + rewrite lookup_delete_eq. discriminate.
    + rewrite lookup_insert_eq. intros [= <-]. apply Z.eqb_neq in Hr.
      simpl. lia.
  - rewrite lookup_released_ne by assumption. apply Hs.
Qed.

(** ** Validity in terms of counts *)

Lemma is_valid_iff s a :
  is_valid s a <->
  match quantity a with
  | Some q => is_Some (commodity a) /\ rc s q <> 0
  | None => commodity a = None
  end.
Proof.
  unfold is_valid, valid, rc. destruct (quantity a) as [q|].
  - destruct (commodity a) as [k|]; cbn [non_null negb].
    + unfold bind, load, ret. destruct (cells s !! q) as [c|].
      * destruct (ref c =? 0) eqn:Hr.
        -- apply Z.eqb_eq in Hr. split; [discriminate|]. intros [_ H]. congruence.
        -- apply Z.eqb_neq in Hr. split; [eauto|reflexivity].
      * split; [discriminate|]. intros [_ H]. congruence.
    + unfold ret. split; [discriminate|]. intros [[? H] _]. discriminate.
  - destruct (commodity a) as [k|]; cbn [non_null]; unfold ret.
    + split; discriminate.
    + split; reflexivity.
Qed.

Lemma is_valid_invariant s a : is_valid s a -> invariant a.
Proof.
  rewrite is_valid_iff. unfold invariant. destruct (quantity a) as [q|].
  - intros [Hk _]. split; eauto.
  - intros ->. split; intros [? H]; discriminate.
Qed.

(** ** Inverting the steps of an operation *)

Lemma bind_ok {A B} (m : M A) (k : A -> M B) s b s2 :
  bind m k s = Ok b s2 -> exists a s1, m s = Ok a s1 /\ k a s1 = Ok b s2.
Proof.
  unfold bind. destruct (m s) as [a s1| |]; [eauto|discriminate..].
Qed.

Lemma bind_throw {A B} (m : M A) (k : A -> M B) s e t s2 :
  bind m k s = Throw e t s2 ->
  m s = Throw e t s2 \/ exists a s1, m s = Ok a s1 /\ k a s1 = Throw e t s2.
Proof.
  unfold bind. destruct (m s) as [a s1| |]; [eauto| |discriminate].
  intros [= -> -> ->]. left. reflexivity.
Qed.

Lemma ret_ok {A} (a b : A) s s' : ret a s = Ok b s' -> b = a /\ s' = s.
Proof. intros [= <- <-]. split; reflexivity. Qed.

Lemma load_ok q s c s' : load q s = Ok c s' -> s' = s /\ cells s !! q = Some c.
Proof.
  unfold load. destruct (cells s !! q); [|discriminate].
  intros [= <- <-]. split; reflexivity.
Qed.

Lemma get_ok p s c s' :
  get p s = Ok c s' -> s' = s /\ exists q, p = Some q /\ cells s !! q = Some c.
Proof.
  unfold get, deref. destruct p as [q|]; [|discriminate].
  intros H. apply bind_ok in H as (q' & s1 & [= <- <-] & H).
  apply load_ok in H as [-> H]. eauto.
Qed.

Lemma update_ok q f s u s' :
  update q f s = Ok u s' ->
  exists c, cells s !! q = Some c /\ s' = set_cells <[q := f c]> s.
Proof.
  unfold update. intros H. apply bind_ok in H as (c & s1 & H1 & H).
  apply load_ok in H1 as [-> H1]. injection H as _ <-. eauto.
Qed.

Lemma modify_ok p f s u s' :
  modify p f s = Ok u s' ->
  exists q c, p = Some q /\ cells s !! q = Some c /\ s' = set_cells <[q := f c]> s.
Proof.
  unfold modify, deref. destruct p as [q|]; [|discriminate].
  intros H. apply bind_ok in H as (q' & s1 & [= <- <-] & H).
  apply update_ok in H as (c & Hc & ->). eauto.
Qed.

Lemma release_ok this s u s' :
  _release this s = Ok u s' ->
  exists q c, quantity this = Some q /\ cells s !! q = Some c /\
              s' = set_cells (released q c) s.
Proof.
  intros H. destruct (quantity this) as [q|] eqn:Hq.
  - destruct (cells s !! q) as [c|] eqn:Hc.
    + rewrite (release_eq this q c s Hq Hc) in H. injection H as <-. eauto.
    + unfold _release, bind, deref, load, ret in H. rewrite Hq in H.
      cbv beta iota in H. rewrite Hc in H. discriminate.
  - unfold _release, bind, deref in H. rewrite Hq in H. discriminate.
Qed.

Lemma release_counts bound this s u s' :
  counted bound s -> bound <= 4294967296 ->
  _release this s = Ok u s' ->
  exists q, quantity this = Some q /\ 1 <= rc s q /\
    (forall p, rc s' p = rc s p - ind (p = q)) /\
    counted bound s' /\ null_commodity s' = null_commodity s.
Proof.
  intros Hs Hb H. apply release_ok in H as (q & c & Hq & Hc & ->).
  pose proof (counted_rc _ _ _ _ Hs Hc) as Hr.
  exists q. split; [assumption|]. split; [lia|]. split; [|split].
  - intros p. rewrite rc_released. unfold ind. case_decide; [|lia].
    subst p. rewrite (rc_of_cell _ _ _ Hc) in *. rewrite uint_small; lia.
  - apply counted_released; assumption.
  - reflexivity.
Qed.

(** [q->ref++]. *)
Lemma increment_counts bound q s u s' :
  counted bound s -> bound < 4294967296 ->
  update q (fun c => set_ref (uint (ref c + 1)) c) s = Ok u s' ->
  1 <= rc s q /\
  (forall p, rc s' p = rc s p + ind (p = q)) /\
  counted (bound + 1) s' /\ null_commodity s' = null_commodity s.
Proof.
  intros Hs Hb H. apply update_ok in H as (c & Hc & ->).
  pose proof (counted_rc _ _ _ _ Hs Hc) as Hr.
  rewrite (rc_of_cell _ _ _ Hc) in *.
  split; [lia|]. split; [|split].
  - intros p. rewrite rc_insert. unfold ind. case_decide; [|lia].
    subst p. cbn [ref set_ref]. rewrite (rc_of_cell _ _ _ Hc), uint_small; lia.
  - apply counted_insert; [eapply counted_mono; [eassumption|lia]|].
    cbn [ref set_ref]. rewrite uint_small; lia.
  - reflexivity.
Qed.

Lemma new_bigint_counts bound c s q s' :
  ref c = 1 -> new_bigint c s = Ok q s' ->
  rc s q = 0 /\ q <> true_value /\
  (forall p, rc s' p = rc s p + ind (p = q)) /\
  (counted bound s -> 1 < bound -> counted bound s') /\
  null_commodity s' = null_commodity s.
Proof.
  intros Hc H. unfold new_bigint in H. injection H as <- <-.
  assert (H0 : rc s (heap_fresh s) = 0).
  { unfold rc. rewrite heap_fresh_not_live. reflexivity. }
  split; [exact H0|].
  split.
  { unfold heap_fresh.
    match goal with |- fresh ?X <> _ => pose proof (is_fresh X) as Hf end.
    set_solver. }
  split; [|split].
  - intros p. rewrite rc_insert, Hc. unfold ind. case_decide; [subst p|]; lia.
  - intros Hs Hb. apply counted_insert; [assumption|lia].
  - reflexivity.
Qed.

(** A write that leaves the count of the cell alone. *)
Lemma modify_counts bound p f s u s' :
  (forall c, ref (f c) = ref c) ->
  modify p f s = Ok u s' ->
  (forall x, rc s' x = rc s x) /\
  (counted bound s -> counted bound s') /\
  null_commodity s' = null_commodity s.
Proof.
  intros Hf H. apply modify_ok in H as (q & c & -> & Hc & ->).
  split; [|split].
  - intros x. rewrite rc_insert. case_decide; [|reflexivity].
    subst x. rewrite Hf. symmetry. apply rc_of_cell. assumption.
  - intros Hs. apply counted_insert; [assumption|]. rewrite Hf. eauto.
  - reflexivity.
Qed.

Ltac ind_tac := unfold ind in *; repeat case_decide; subst; try congruence; try lia.

Lemma dup_ok this s this' s' :
  _dup this s = Ok this' s' ->
  exists q c, quantity this = Some q /\ cells s !! q = Some c /\
    if ref c >? 1
    then this' = Amount (Some (heap_fresh s)) (commodity this) /\
         s' = set_cells (fun m => released q c (<[heap_fresh s := bigint_copy c]> m)) s
    else this' = this /\ s' = s.
Proof.
  intros H. destruct (quantity this) as [q|] eqn:Hq.
  - destruct (cells s !! q) as [c|] eqn:Hc.
    + rewrite (dup_eq this q c s Hq Hc) in H. exists q, c.
      split; [reflexivity|]. split; [assumption|].
      destruct (ref c >? 1); injection H as <- <-; split; reflexivity.
    + unfold _dup, bind, deref, load, ret in H. rewrite Hq in H.
      cbv beta iota in H. rewrite Hc in H. discriminate.
  - unfold _dup, bind, deref in H. rewrite Hq in H. discriminate.
Qed.

Lemma dup_counts bound this s this' s' :
  counted bound s -> bound <= 4294967296 ->
  _dup this s = Ok this' s' ->
  exists q q', quantity this = Some q /\
    this' = Amount (Some q') (commodity this) /\
    1 <= rc s q /\
    (q' <> q -> rc s q' = 0 /\ 1 < rc s q) /\
    (forall p, rc s' p
               = rc s p + (if decide (q' = q) then 0 else ind (p = q') - ind (p = q))) /\
    counted bound s' /\ null_commodity s' = null_commodity s.
Proof.
  intros Hs Hb H. apply dup_ok in H as (q & c & Hq & Hc & H).
  pose proof (counted_rc _ _ _ _ Hs Hc) as Hr.
  destruct (ref c >? 1) eqn:Href; destruct H as [-> ->].
  - pose proof (heap_fresh_ne s q c Hc) as Hne.
    pose proof (heap_fresh_not_live s) as Hfresh.
    set (f := heap_fresh s) in *.
    assert (Hf0 : rc s f = 0) by (unfold rc; rewrite Hfresh; reflexivity).
    exists q, f. split; [assumption|]. split; [reflexivity|].
    split; [lia|]. split.
    { intros _. split; [assumption|]. rewrite (rc_of_cell _ _ _ Hc). lia. }
    split; [|split].
    + intros p.
      change (set_cells (fun m => released q c (<[f:=bigint_copy c]> m)) s)
        with (set_cells (released q c) (set_cells <[f:=bigint_copy c]> s)).
      rewrite rc_released, rc_insert. rewrite (rc_of_cell _ _ _ Hc) in *.
      cbn [ref bigint_copy]. rewrite uint_small by lia.
      unfold ind. repeat case_decide; subst; try congruence;
        rewrite ?(rc_of_cell _ _ _ Hc); lia.
    + change (set_cells (fun m => released q c (<[f:=bigint_copy c]> m)) s)
        with (set_cells (released q c) (set_cells <[f:=bigint_copy c]> s)).
      apply counted_released; [|assumption|].
      * apply counted_insert; [assumption|]. cbn [ref bigint_copy].
        rewrite (rc_of_cell _ _ _ Hc) in Hr. lia.
      * norm. rewrite lookup_insert_ne by assumption. assumption.
    + reflexivity.
  - exists q, q. split; [assumption|]. split.
    { destruct this; simpl in *; congruence. }
    split; [lia|]. split; [congruence|]. split; [|split].
    + intros p. rewrite decide_True by reflexivity. lia.
    + assumption.
    + reflexivity.
Qed.

Lemma copy_counts bound this amt s this' s' :
  counted bound s -> bound < 4294967296 ->
  _copy this amt s = Ok this' s' ->
  this' = Amount (quantity amt) (commodity amt) /\
  (forall p, rc s' p
             = rc s p + ind (quantity amt = Some p) - ind (quantity this = Some p)) /\
  (quantity this <> quantity amt ->
     exists qb, quantity amt = Some qb /\ 1 <= rc s qb) /\
  counted (bound + 1) s' /\ null_commodity s' = null_commodity s.
Proof.
  intros Hs Hb H. unfold _copy in H.
  apply bind_ok in H as (this1 & s1 & H1 & H). apply ret_ok in H as [-> ->].
  destruct (decide (quantity this = quantity amt)) as [Heq|Hne].
  - apply ret_ok in H1 as [-> ->]. unfold with_commodity. rewrite Heq.
    split; [reflexivity|]. split; [|split; [congruence|split]].
    + intros p. lia.
    + eapply counted_mono; [eassumption|lia].
    + reflexivity.
  - apply bind_ok in H1 as ([] & s2 & H2 & H1).
    apply bind_ok in H1 as (qb & s3 & H3 & H1).
    apply bind_ok in H1 as ([] & s4 & H4 & H1).
    apply ret_ok in H1 as [-> ->]. norm.
    unfold deref in H3. norm. destruct (quantity amt) as [qb'|] eqn:Hqb;
      [|discriminate]. apply ret_ok in H3 as [-> ->].
    split; [reflexivity|].
    destruct (quantity this) as [q1|] eqn:Hq1; cbn [non_null] in H2.
    + apply (release_counts bound) in H2 as (q & Hq & Hr1 & Hrc2 & Hs2 & Hn2);
        [|assumption|lia]. rewrite Hq1 in Hq. injection Hq as <-.
      apply (increment_counts bound) in H4 as (Hr4 & Hrc4 & Hs4 & Hn4);
        [|assumption..].
      rewrite Hrc2 in Hr4.
      split; [|split; [|split]].
      * intros p. rewrite Hrc4, Hrc2. ind_tac.
      * intros _. exists qb'. split; [reflexivity|]. ind_tac.
      * assumption.
      * congruence.
    + apply ret_ok in H2 as [_ ->].
      apply (increment_counts bound) in H4 as (Hr4 & Hrc4 & Hs4 & Hn4);
        [|assumption..].
      split; [|split; [|split]].
      * intros p. rewrite Hrc4. ind_tac.
      * intros _. exists qb'. split; [reflexivity|]. assumption.
      * assumption.
      * congruence.
Qed.

Lemma amount_copy_counts bound amt s r s' :
  counted bound s -> bound < 4294967296 ->
  amount_copy amt s = Ok r s' ->
  r = Amount (quantity amt)
        (match quantity amt with Some _ => commodity amt | None => None end) /\
  (forall p, rc s' p = rc s p + ind (quantity amt = Some p)) /\
  (forall qb, quantity amt = Some qb -> 1 <= rc s qb) /\
  counted (bound + 1) s' /\ null_commodity s' = null_commodity s.
Proof.
  intros Hs Hb H. unfold amount_copy in H.
  destruct (quantity amt) as [qb|] eqn:Hqb; cbn [non_null] in H.
  - apply (copy_counts bound) in H as (-> & Hrc & Hlive & Hs' & Hn);
      [|assumption..]. rewrite Hqb in *.
    split; [reflexivity|]. split; [|split; [|split]]; try assumption.
    + intros p. rewrite Hrc. cbn [quantity]. ind_tac.
    + intros qb' [= <-]. destruct Hlive as (qb' & [= <-] & H); [|assumption].
      cbn [quantity]. discriminate.
  - apply ret_ok in H as [-> ->]. split; [reflexivity|].
    split; [|split; [|split]].
    + intros p. ind_tac.
    + discriminate.
    + eapply counted_mono; [eassumption|lia].
    + reflexivity.
Qed.

Lemma amount_destroy_counts bound this s u s' :
  counted bound s -> bound <= 4294967296 ->
  amount_destroy this s = Ok u s' ->
  (forall p, rc s' p = rc s p - ind (quantity this = Some p)) /\
  (forall q, quantity this = Some q -> 1 <= rc s q) /\
  counted bound s' /\ null_commodity s' = null_commodity s.
Proof.
  intros Hs Hb H. unfold amount_destroy in H.
  destruct (quantity this) as [q|] eqn:Hq; cbn [non_null] in H.
  - apply (release_counts bound) in H as (q' & Hq' & Hr & Hrc & Hs' & Hn);
      [|assumption..]. rewrite Hq in Hq'. injection Hq' as <-.
    split; [|split; [|split]]; try assumption.
    + intros p. rewrite Hrc. ind_tac.
    + intros q' [= <-]. assumption.
  - apply ret_ok in H as [_ ->]. split; [|split; [|split]]; try assumption.
    + intros p. ind_tac.
    + discriminate.
    + reflexivity.
Qed.

Lemma clear_counts bound this s r s' :
  counted bound s -> bound <= 4294967296 ->
  _clear this s = Ok r s' ->
  r = amount_absent /\ counted bound s' /\ null_commodity s' = null_commodity s.
Proof.
  intros Hs Hb H. unfold _clear in H.
  apply bind_ok in H as ([] & s1 & H1 & H). apply ret_ok in H as [-> ->].
  apply (amount_destroy_counts bound) in H1 as (_ & _ & Hs' & Hn);
    [|assumption..]. auto.
Qed.

Lemma init_counts bound this s this' s' :
  counted bound s -> bound <= 4294967296 -> 1 < bound ->
  _init this s = Ok this' s' ->
  exists q', this' = Amount (Some q') (commodity this) /\
    1 <= rc s' q' /\ counted bound s' /\ null_commodity s' = null_commodity s.
Proof.
  intros Hs Hb Hb1 H. unfold _init in H.
  destruct (quantity this) as [q0|] eqn:Hq0.
  - apply bind_ok in H as (c & s1 & H1 & H). apply load_ok in H1 as [-> Hc].
    destruct (ref c >? 1).
    + apply bind_ok in H as ([] & s1 & H1 & H).
      apply bind_ok in H as (q & s2 & H2 & H). apply ret_ok in H as [-> ->].
      apply (release_counts bound) in H1 as (q' & _ & _ & _ & Hs1 & Hn1);
        [|assumption..].
      apply (new_bigint_counts bound) in H2 as (_ & _ & Hrc & Hs2 & Hn2);
        [|reflexivity].
      exists q. split; [reflexivity|]. split; [|split].
      * rewrite Hrc. pose proof (counted_rc_bounds _ _ q Hs1 Hb1). ind_tac.
      * auto.
      * congruence.
    + apply ret_ok in H as [-> ->]. exists q0.
      split; [destruct this; simpl in *; congruence|].
      split; [|split]; [|assumption|reflexivity].
      pose proof (counted_rc _ _ _ _ Hs Hc). lia.
  - apply bind_ok in H as (q & s2 & H2 & H). apply ret_ok in H as [-> ->].
    apply (new_bigint_counts bound) in H2 as (_ & _ & Hrc & Hs2 & Hn2);
      [|reflexivity].
    exists q. split; [reflexivity|]. split; [|split].
    * rewrite Hrc. pose proof (counted_rc_bounds _ _ q Hs Hb1). ind_tac.
    * auto.
    * congruence.
Qed.

Lemma resize_counts bound this prec' s this' s' :
  counted bound s -> bound <= 4294967296 ->
  _resize this prec' s = Ok this' s' ->
  match quantity this with
  | None => this' = this /\ s' = s
  | Some q =>
      exists q', this' = Amount (Some q') (commodity this) /\
        1 <= rc s q /\
        (q' <> q -> rc s q' = 0 /\ 1 < rc s q) /\
        (forall p, rc s' p
           = rc s p + (if decide (q' = q) then 0 else ind (p = q') - ind (p = q))) /\
        counted bound s' /\ null_commodity s' = null_commodity s
  end.
Proof.
  intros Hs Hb H. unfold _resize in H.
  destruct (negb (prec' <? 256)); [discriminate|].
  destruct (quantity this) as [q0|] eqn:Hq0.
  - apply bind_ok in H as (c & s1 & H1 & H). apply load_ok in H1 as [-> Hc].
    destruct (prec' =? prec c).
    + apply ret_ok in H as [-> ->]. exists q0.
      split; [destruct this; simpl in *; congruence|].
      pose proof (counted_rc _ _ _ _ Hs Hc).
      split; [lia|]. split; [congruence|]. split; [|split];
        [|assumption|reflexivity].
      intros p. rewrite decide_True by reflexivity. lia.
    + apply bind_ok in H as (this1 & s1 & H1 & H).
      apply (dup_counts bound) in H1
        as (q & q' & Hq & -> & Hr & Hnew & Hrc & Hs1 & Hn1); [|assumption..].
      rewrite Hq0 in Hq. injection Hq as <-.
      apply bind_ok in H as (c1 & s2 & H2 & H). apply get_ok in H2 as [-> _].
      apply bind_ok in H as ([] & s2 & H2 & H).
      apply bind_ok in H as ([] & s3 & H3 & H). apply ret_ok in H as [-> ->].
      assert (H2' : (forall x, rc s2 x = rc s1 x) /\ (counted bound s1 -> counted bound s2)
                    /\ null_commodity s2 = null_commodity s1).
      { destruct (prec' <? prec c1);
          apply (modify_counts bound) in H2; auto. }
      destruct H2' as (Hrc2 & Hs2 & Hn2).
      apply (modify_counts bound) in H3 as (Hrc3 & Hs3 & Hn3); [|reflexivity].
      exists q'. split; [reflexivity|]. split; [assumption|].
      split; [assumption|]. split; [|split].
      * intros p. rewrite Hrc3, Hrc2, Hrc. reflexivity.
      * auto.
      * congruence.
  - apply ret_ok in H as [-> ->]. split; reflexivity.
Qed.

Lemma round_to_headroom_counts bound this s this' s' :
  round_to_headroom this s = Ok this' s' ->
  this' = this /\ (forall x, rc s' x = rc s x) /\
  (counted bound s -> counted bound s') /\
  null_commodity s' = null_commodity s.
Proof.
  intros H. unfold round_to_headroom in H.
  apply bind_ok in H as (c & s1 & H1 & H). apply get_ok in H1 as [-> _].
  apply bind_ok in H as (o & s1 & H1 & H).
  assert (s1 = s) as ->.
  { unfold load_commodity in H1. destruct (commodity this) as [k|]; [|discriminate].
    destruct (objects s !! k); [|discriminate]. congruence. }
  destruct (prec c >? uint (precision o + 6)).
  - apply bind_ok in H as ([] & s2 & H2 & H).
    apply bind_ok in H as ([] & s3 & H3 & H). apply ret_ok in H as [-> ->].
    apply (modify_counts bound) in H2 as (Hrc2 & Hs2 & Hn2); [|reflexivity].
    apply (modify_counts bound) in H3 as (Hrc3 & Hs3 & Hn3); [|reflexivity].
    split; [reflexivity|]. split; [|split].
    + intros x. rewrite Hrc3, Hrc2. reflexivity.
    + auto.
    + congruence.
  - apply ret_ok in H as [-> ->]. auto.
Qed.

(** ** Transitions that detach the receiver *)

Lemma held_valid bound s a : counted bound s -> 1 < bound -> (held s a <-> is_valid s a).
Proof.
  intros Hs Hb. rewrite is_valid_iff. unfold held.
  destruct (quantity a) as [q|]; [|reflexivity].
  pose proof (counted_rc_bounds _ _ q Hs Hb). split; intros [? ?]; split; auto; lia.
Qed.

Lemma detached_refl this s : detached this s this s.
Proof.
  split; [reflexivity|]. destruct (quantity this) as [q|] eqn:Hq; [|auto].
  exists q. split; [destruct this; simpl in *; congruence|].
  split; [congruence|]. intros p. rewrite decide_True by reflexivity. lia.
Qed.

Lemma detached_same this s this' s1 s2 :
  detached this s this' s1 ->
  (forall x, rc s2 x = rc s1 x) -> null_commodity s2 = null_commodity s1 ->
  detached this s this' s2.
Proof.
  intros [Hn H] Hrc Hn2. split; [congruence|].
  destruct (quantity this) as [q|].
  - destruct H as (q' & -> & Hnew & H). exists q'. split; [reflexivity|].
    split; [assumption|]. intros p. rewrite Hrc. apply H.
  - destruct H as [-> H]. split; [reflexivity|]. intros p. rewrite Hrc. apply H.
Qed.

Lemma detached_compose a s a1 s1 a2 s2 :
  detached a s a1 s1 -> detached a1 s1 a2 s2 -> detached a s a2 s2.
Proof.
  intros [Hn1 H1] [Hn2 H2]. split; [congruence|].
  destruct (quantity a) as [q|] eqn:Hq.
  - destruct H1 as (q1 & -> & Hnew1 & Hrc1). cbn [quantity commodity] in H2.
    destruct H2 as (q2 & -> & Hnew2 & Hrc2).
    exists q2. split; [reflexivity|].
    destruct (decide (q1 = q)) as [->|Hq1].
    + split.
      * intros Hq2. destruct (Hnew2 Hq2) as [H0 Hgt].
        rewrite Hrc1 in H0, Hgt. ind_tac.
      * intros p. rewrite Hrc2, Hrc1. ind_tac.
    + destruct (Hnew1 Hq1) as [H0 Hgt].
      destruct (decide (q2 = q1)) as [->|Hq2].
      * split; [auto|]. intros p. rewrite Hrc2, Hrc1. ind_tac.
      * destruct (Hnew2 Hq2) as [_ Hgt2]. rewrite Hrc1 in Hgt2. ind_tac.
  - destruct H1 as [-> Hrc1]. rewrite Hq in H2. destruct H2 as [-> Hrc2].
    split; [reflexivity|]. intros p. rewrite Hrc2. apply Hrc1.
Qed.

Lemma detached_held this s this' s' :
  detached this s this' s' -> held s this -> held s' this'.
Proof.
  intros [_ H] Hv. unfold held in *. destruct (quantity this) as [q|] eqn:Hq.
  - destruct H as (q' & -> & Hnew & Hrc). cbn [quantity commodity].
    destruct Hv as [Hk Hr]. split; [assumption|]. rewrite Hrc.
    destruct (decide (q' = q)) as [->|Hq']; [lia|].
    destruct (Hnew Hq') as [H0 _]. ind_tac.
  - destruct H as [-> _]. rewrite Hq. assumption.
Qed.

Lemma detached_keeps this s this' s' other :
  detached this s this' s' -> held s other -> held s' other.
Proof.
  intros [_ H] Hv. unfold held in *. destruct (quantity other) as [p|]; [|assumption].
  destruct Hv as [Hk Hr]. split; [assumption|].
  destruct (quantity this) as [q|].
  - destruct H as (q' & _ & Hnew & Hrc). rewrite Hrc.
    destruct (decide (q' = q)) as [->|Hq']; [lia|].
    destruct (Hnew Hq') as [H0 Hgt]. ind_tac.
  - destruct H as [_ Hrc]. rewrite Hrc. assumption.
Qed.

Lemma load_commodity_ok p s o s' :
  load_commodity p s = Ok o s' -> s' = s.
Proof.
  unfold load_commodity. destruct p as [k|]; [|discriminate].
  destruct (objects s !! k); [|discriminate]. congruence.
Qed.

Lemma dup_detached bound this s this' s' :
  counted bound s -> bound <= 4294967296 ->
  _dup this s = Ok this' s' ->
  detached this s this' s' /\ counted bound s' /\ held s' (Amount (quantity this') (Some 1%positive)).
Proof.
  intros Hs Hb H.
  apply (dup_counts bound) in H as (q & q' & Hq & -> & Hr & Hnew & Hrc & Hs' & Hn);
    [|assumption..].
  split; [|split; [assumption|]].
  - split; [assumption|]. rewrite Hq. eauto.
  - unfold held. cbn [quantity commodity]. split; [eauto|]. rewrite Hrc.
    destruct (decide (q' = q)) as [->|Hq']; [lia|].
    destruct (Hnew Hq') as [H0 _]. ind_tac.
Qed.

Lemma resize_detached bound this prec' s this' s' :
  counted bound s -> bound <= 4294967296 ->
  _resize this prec' s = Ok this' s' ->
  detached this s this' s' /\ counted bound s'.
Proof.
  intros Hs Hb H. apply (resize_counts bound) in H; [|assumption..].
  destruct (quantity this) as [q|] eqn:Hq.
  - destruct H as (q' & -> & Hr & Hnew & Hrc & Hs' & Hn).
    split; [|assumption]. split; [assumption|]. rewrite Hq. eauto.
  - destruct H as [-> ->]. split; [apply detached_refl|assumption].
Qed.

Lemma modify_detached bound this a p f s u s' :
  (forall c, ref (f c) = ref c) ->
  modify p f s = Ok u s' ->
  (counted bound s -> counted bound s') /\
  forall s0, detached this s0 a s -> detached this s0 a s'.
Proof.
  intros Hf H. apply (modify_counts bound) in H as (Hrc & Hs & Hn); [|assumption].
  split; [assumption|]. intros s0 Hd. eapply detached_same; eauto.
Qed.

Lemma headroom_detached bound this s this' s' :
  round_to_headroom this s = Ok this' s' ->
  this' = this /\ (counted bound s -> counted bound s') /\
  forall a s0, detached a s0 this s -> detached a s0 this s'.
Proof.
  intros H. apply (round_to_headroom_counts bound) in H as (-> & Hrc & Hs & Hn).
  split; [reflexivity|]. split; [assumption|].
  intros a s0 Hd. eapply detached_same; eauto.
Qed.

Lemma combine_detached bound mpz_op this amt s this' s' :
  counted bound s -> bound < 4294967296 ->
  combine mpz_op this amt s = Ok this' s' ->
  detached this s this' s' /\ counted (bound + 1) s'.
Proof.
  intros Hs Hb H. unfold combine in H.
  apply bind_ok in H as (c & s1 & H1 & H).
  apply get_ok in H1 as [-> (q & Hq & Hc)].
  apply bind_ok in H as (ac & s1 & H1 & H).
  apply get_ok in H1 as [-> (qb & Hqb & Hac)].
  pose proof (counted_rc _ _ _ _ Hs Hc) as Hrq.
  destruct (prec c =? prec ac) eqn:Hprec.
  - apply bind_ok in H as ([] & s1 & H1 & H). apply ret_ok in H as [-> ->].
    apply (modify_detached bound this this) in H1 as [Hs1 Hd]; [|reflexivity].
    split; [apply Hd, detached_refl|]. eapply counted_mono; [eauto|lia].
  - apply Z.eqb_neq in Hprec.
    assert (Hne : q <> qb) by congruence.
    destruct (prec c <? prec ac).
    + apply bind_ok in H as (this1 & s1 & H1 & H).
      apply (resize_detached bound) in H1 as [Hd1 Hs1]; [|assumption|lia].
      apply bind_ok in H as (c1 & s2 & H2 & H). apply get_ok in H2 as [-> _].
      apply bind_ok in H as (ac1 & s2 & H2 & H). apply get_ok in H2 as [-> _].
      apply bind_ok in H as ([] & s2 & H2 & H). apply ret_ok in H as [-> ->].
      apply (modify_detached bound this this1) in H2 as [Hs2 Hd2]; [|reflexivity].
      split; [auto|]. eapply counted_mono; [eauto|lia].
    + apply bind_ok in H as (temp & s1 & H1 & H).
      apply (amount_copy_counts bound) in H1 as (-> & Hrc1 & _ & Hs1 & Hn1);
        [|assumption..]. rewrite Hqb in *.
      apply bind_ok in H as (temp & s2 & H2 & H).
      apply (resize_counts (bound + 1)) in H2; [|assumption|lia].
      cbn [quantity commodity] in H2.
      destruct H2 as (q2 & -> & Hr2 & Hnew2 & Hrc2 & Hs2 & Hn2).
      apply bind_ok in H as (c1 & s3 & H3 & H). apply get_ok in H3 as [-> _].
      apply bind_ok in H as (tc & s3 & H3 & H). apply get_ok in H3 as [-> _].
      apply bind_ok in H as ([] & s3 & H3 & H).
      apply (modify_counts (bound + 1)) in H3 as (Hrc3 & Hs3 & Hn3); [|reflexivity].
      apply bind_ok in H as ([] & s4 & H4 & H). apply ret_ok in H as [-> ->].
      apply (amount_destroy_counts (bound + 1)) in H4 as (Hrc4 & _ & Hs4 & Hn4);
        [|auto|lia].
      split; [|assumption].
      eapply detached_same; [apply detached_refl| |congruence].
      intros x. rewrite Hrc4, Hrc3, Hrc2, Hrc1. cbn [quantity]. ind_tac.
Qed.

(** Reads leave the store as it is. *)
Ltac read_step H :=
  let c := fresh "c" in
  let s1 := fresh "s" in
  let H1 := fresh "Hread" in
  apply bind_ok in H as (c & s1 & H1 & H);
  first [ apply get_ok in H1 as [-> _]
        | apply load_commodity_ok in H1 as ->
        | apply load_ok in H1 as [-> _] ].

(** A write of magnitude or scale keeps a detached transition detached. *)
Ltac write_step bound H Hs Hd :=
  let s1 := fresh "s" in
  let H1 := fresh "Hwrite" in
  let Hs1 := fresh "Hs" in
  let Hk := fresh "Hk" in
  apply bind_ok in H as ([] & s1 & H1 & H);
  eapply (modify_detached bound) in H1 as [Hs1 Hk]; [|reflexivity];
  apply Hs1 in Hs; apply Hk in Hd; clear Hs1 Hk.

Lemma mul_assign_detached bound this amt s this' s' :
  counted bound s -> bound <= 4294967296 ->
  mul_assign this amt s = Ok this' s' ->
  detached this s this' s' /\ counted bound s'.
Proof.
  intros Hs Hb H. unfold mul_assign in H.
  destruct (negb (non_null (quantity amt)) || negb (non_null (quantity this))).
  { apply ret_ok in H as [-> ->]. split; [apply detached_refl|assumption]. }
  apply bind_ok in H as (this1 & s1 & H1 & H).
  apply (dup_detached bound) in H1 as (Hd & Hs1 & _); [|assumption..].
  read_step H. read_step H. write_step bound H Hs1 Hd.
  read_step H. read_step H. write_step bound H Hs1 Hd.
  apply (headroom_detached bound) in H as (-> & Hs2 & Hk). auto.
Qed.

Lemma div_assign_detached bound this amt s this' s' :
  counted bound s -> bound <= 4294967296 ->
  div_assign this amt s = Ok this' s' ->
  detached this s this' s' /\ counted bound s'.
Proof.
  intros Hs Hb H. unfold div_assign in H.
  destruct (negb (non_null (quantity this))).
  { apply ret_ok in H as [-> ->]. split; [apply detached_refl|assumption]. }
  destruct (negb (non_null (quantity amt))); [discriminate|].
  apply bind_ok in H as (this1 & s1 & H1 & H).
  apply (dup_detached bound) in H1 as (Hd & Hs1 & _); [|assumption..].
  read_step H. read_step H. write_step bound H Hs1 Hd.
  read_step H. read_step H.
  destruct (val _ =? 0); [discriminate|].
  write_step bound H Hs1 Hd. read_step H. write_step bound H Hs1 Hd.
  apply (headroom_detached bound) in H as (-> & Hs2 & Hk). auto.
Qed.

Lemma negate_detached bound this s this' s' :
  counted bound s -> bound <= 4294967296 ->
  negate this s = Ok this' s' ->
  detached this s this' s' /\ counted bound s'.
Proof.
  intros Hs Hb H. unfold negate in H.
  destruct (non_null (quantity this)).
  - apply bind_ok in H as (this1 & s1 & H1 & H).
    apply (dup_detached bound) in H1 as (Hd & Hs1 & _); [|assumption..].
    write_step bound H Hs1 Hd. apply ret_ok in H as [-> ->]. auto.
  - apply ret_ok in H as [-> ->]. split; [apply detached_refl|assumption].
Qed.

Lemma dup_combine_detached bound mpz_op what this amt s this' s' :
  counted bound s -> bound < 4294967296 ->
  (let* this := _dup this in
   if negb (bool_decide (commodity this = commodity amt))
   then throw what this else combine mpz_op this amt) s = Ok this' s' ->
  detached this s this' s' /\ counted (bound + 1) s'.
Proof.
  intros Hs Hb H.
  apply bind_ok in H as (this1 & s1 & H1 & H).
  apply (dup_detached bound) in H1 as (Hd & Hs1 & _); [|assumption|lia].
  destruct (negb _); [discriminate|].
  apply (combine_detached bound) in H as [Hd2 Hs2]; [|assumption..].
  split; [|assumption]. eapply detached_compose; eauto.
Qed.

Lemma dup_combine_throws bound mpz_op what this amt s e t s' :
  counted bound s -> bound <= 4294967296 ->
  (let* this := _dup this in
   if negb (bool_decide (commodity this = commodity amt))
   then throw what this else combine mpz_op this amt) s = Throw e t s' ->
  detached this s t s' /\ counted bound s'.
Proof.
  intros Hs Hb H.
  apply bind_throw in H as [H|(this1 & s1 & H1 & H)].
  { pose proof (nothrow_dup this s) as Hn. rewrite H in Hn. destruct Hn. }
  apply (dup_detached bound) in H1 as (Hd & Hs1 & _); [|assumption..].
  destruct (negb _).
  - injection H as _ <- <-. auto.
  - pose proof (nothrow_combine mpz_op this1 amt s1) as Hn.
    rewrite H in Hn. destruct Hn.
Qed.

(** ** Operations, one by one *)

Lemma held_present s q k : 1 <= rc s q -> held s (Amount (Some q) (Some k)).
Proof. intros H. unfold held. cbn. eauto. Qed.

Lemma modify_increment bound p s u s' :
  counted bound s -> bound < 4294967296 ->
  modify p (fun c => set_ref (uint (ref c + 1)) c) s = Ok u s' ->
  exists q, p = Some q /\ 1 <= rc s q /\
    (forall x, rc s' x = rc s x + ind (x = q)) /\
    counted (bound + 1) s' /\ null_commodity s' = null_commodity s.
Proof.
  intros Hs Hb H. unfold modify, deref in H. destruct p as [q|]; [|discriminate].
  apply bind_ok in H as (q' & s1 & [= <- <-] & H).
  apply (increment_counts bound) in H; [|assumption..]. eauto.
Qed.

Lemma amount_of_bool_held bound value s a s' :
  counted bound s -> bound < 4294967296 -> is_Some (null_commodity s) ->
  amount_of_bool value s = Ok a s' ->
  held s' a /\ counted (bound + 1) s'.
Proof.
  intros Hs Hb [k Hk] H. unfold amount_of_bool in H. destruct value.
  - apply bind_ok in H as ([] & s1 & H1 & H).
    apply (increment_counts bound) in H1 as (Hr & Hrc & Hs1 & Hn); [|assumption..].
    apply bind_ok in H as (null & s2 & [= <- <-] & H). apply ret_ok in H as [-> ->].
    split; [|assumption]. rewrite Hn, Hk. apply held_present.
    rewrite Hrc. ind_tac.
  - apply ret_ok in H as [-> ->]. split; [reflexivity|].
    eapply counted_mono; [eassumption|lia].
Qed.

Lemma amount_of_number_held bound (nonzero : bool) (v : option Z) s a s' :
  counted bound s -> 1 < bound -> is_Some (null_commodity s) ->
  (if nonzero then
     let* q := new_bigint bigint_new in
     match v with
     | Some v =>
         let* _ := update q (set_val v) in
         let* null := get_null_commodity in
         ret (Amount (Some q) null)
     | None => undefined GmpNotFinite
     end
   else ret (Amount None None)) s = Ok a s' ->
  held s' a /\ counted bound s'.
Proof.
  intros Hs Hb [k Hk] H. destruct nonzero.
  - apply bind_ok in H as (q & s1 & H1 & H).
    apply (new_bigint_counts bound) in H1 as (H0 & _ & Hrc & Hs1 & Hn);
      [|reflexivity].
    destruct v as [v|]; [|discriminate].
    apply bind_ok in H as ([] & s2 & H2 & H).
    apply update_ok in H2 as (c & Hc & ->).
    apply bind_ok in H as (null & s3 & [= <- <-] & H). apply ret_ok in H as [-> ->].
    cbn [null_commodity set_cells]. rewrite Hn, Hk. split.
    + apply held_present. rewrite rc_insert, decide_True by reflexivity.
      cbn [ref set_val]. pose proof (Hs1 Hs Hb q c Hc). lia.
    + apply counted_insert; [auto|]. cbn [ref set_val]. eapply Hs1; eauto.
  - apply ret_ok in H as [-> ->]. split; [reflexivity|assumption].
Qed.

Lemma amount_of_int_held bound value s a s' :
  counted bound s -> 1 < bound -> is_Some (null_commodity s) ->
  amount_of_int value s = Ok a s' -> held s' a /\ counted bound s'.
Proof.
  intros Hs Hb Hk H.
  eapply (amount_of_number_held bound (negb (value =? 0)) (Some value)); eauto.
Qed.

Lemma amount_of_uint_held bound value s a s' :
  counted bound s -> 1 < bound -> is_Some (null_commodity s) ->
  amount_of_uint value s = Ok a s' -> held s' a /\ counted bound s'.
Proof.
  intros Hs Hb Hk H.
  eapply (amount_of_number_held bound (negb (value =? 0)) (Some value)); eauto.
Qed.

Lemma amount_of_double_held bound value s a s' :
  counted bound s -> 1 < bound -> is_Some (null_commodity s) ->
  amount_of_double value s = Ok a s' -> held s' a /\ counted bound s'.
Proof.
  intros Hs Hb Hk H.
  eapply (amount_of_number_held bound (double_nonzero value) (mpz_set_d value));
    eauto.
Qed.

Lemma assign_held bound this amt s a s' :
  counted bound s -> bound < 4294967296 ->
  held s this -> held s amt ->
  assign this amt s = Ok a s' -> held s' a /\ counted (bound + 1) s'.
Proof.
  intros Hs Hb Hthis Hamt H. unfold assign in H.
  destruct (quantity amt) as [qb|] eqn:Hqb; cbn [non_null] in H.
  - apply (copy_counts bound) in H as (-> & Hrc & _ & Hs' & Hn); [|assumption..].
    split; [|assumption]. unfold held in *. rewrite Hqb in *. cbn.
    destruct Hamt as [Hk Hr]. split; [assumption|]. rewrite Hrc. ind_tac.
  - destruct (quantity this) as [q|] eqn:Hq; cbn [non_null] in H.
    + apply (clear_counts bound) in H as (-> & Hs' & Hn); [|assumption|lia].
      split; [reflexivity|]. eapply counted_mono; [eassumption|lia].
    + apply ret_ok in H as [-> ->]. split; [assumption|].
      eapply counted_mono; [eassumption|lia].
Qed.

Lemma clear_or_keep_held bound this s a s' :
  counted bound s -> bound <= 4294967296 -> held s this ->
  (if non_null (quantity this) then _clear this else ret this) s = Ok a s' ->
  held s' a /\ counted bound s'.
Proof.
  intros Hs Hb Hthis H. destruct (quantity this) as [q|] eqn:Hq; cbn [non_null] in H.
  - apply (clear_counts bound) in H as (-> & Hs' & Hn); [|assumption..].
    split; [reflexivity|assumption].
  - apply ret_ok in H as [-> ->]. auto.
Qed.

Lemma assign_bool_held bound this value s a s' :
  counted bound s -> bound < 4294967296 -> is_Some (null_commodity s) ->
  held s this ->
  assign_bool this value s = Ok a s' -> held s' a /\ counted (bound + 1) s'.
Proof.
  intros Hs Hb [k Hk] Hthis H. unfold assign_bool in H. destruct value; cbn [negb] in H.
  - apply bind_ok in H as (null & s1 & [= <- <-] & H). rewrite Hk in H.
    apply bind_ok in H as ([] & s1 & H1 & H).
    apply (amount_destroy_counts bound) in H1 as (Hrc1 & _ & Hs1 & Hn1);
      [|assumption|lia].
    apply bind_ok in H as ([] & s2 & H2 & H). apply ret_ok in H as [-> ->].
    apply (modify_increment bound) in H2 as (q & [= <-] & Hr & Hrc2 & Hs2 & Hn2);
      [|assumption..].
    split; [|assumption]. apply held_present. rewrite Hrc2. ind_tac.
  - apply (clear_or_keep_held bound) in H as [H1 H2]; [|assumption|lia|assumption].
    split; [assumption|]. eapply counted_mono; [eassumption|lia].
Qed.

Lemma init_set_held bound this (v : option Z) s a s' :
  counted bound s -> bound <= 4294967296 -> 1 < bound ->
  is_Some (null_commodity s) ->
  (let* null := get_null_commodity in
   let this := with_commodity null this in
   let* this := _init this in
   match v with
   | Some v => let* _ := modify (quantity this) (set_val v) in ret this
   | None => undefined GmpNotFinite
   end) s = Ok a s' ->
  held s' a /\ counted bound s'.
Proof.
  intros Hs Hb Hb1 [k Hk] H.
  apply bind_ok in H as (null & s1 & [= <- <-] & H). rewrite Hk in H.
  apply bind_ok in H as (this1 & s1 & H1 & H).
  apply (init_counts bound) in H1 as (q' & -> & Hr & Hs1 & Hn1); [|assumption..].
  destruct v as [v|]; [|discriminate].
  apply bind_ok in H as ([] & s2 & H2 & H). apply ret_ok in H as [-> ->].
  apply (modify_counts bound) in H2 as (Hrc2 & Hs2 & Hn2); [|reflexivity].
  split; [|auto]. apply held_present. rewrite Hrc2. assumption.
Qed.

Lemma assign_int_held bound this value s a s' :
  counted bound s -> bound <= 4294967296 -> 1 < bound ->
  is_Some (null_commodity s) -> held s this ->
  assign_int this value s = Ok a s' -> held s' a /\ counted bound s'.
Proof.
  intros Hs Hb Hb1 Hk Hthis H. unfold assign_int in H. destruct (value =? 0).
  - eapply clear_or_keep_held; eauto.
  - eapply (init_set_held bound this (Some value)); eauto.
Qed.

Lemma assign_uint_held bound this value s a s' :
  counted bound s -> bound <= 4294967296 -> 1 < bound ->
  is_Some (null_commodity s) -> held s this ->
  assign_uint this value s = Ok a s' -> held s' a /\ counted bound s'.
Proof.
  intros Hs Hb Hb1 Hk Hthis H. unfold assign_uint in H. destruct (value =? 0).
  - eapply clear_or_keep_held; eauto.
  - eapply (init_set_held bound this (Some value)); eauto.
Qed.

Lemma assign_double_held bound this value s a s' :
  counted bound s -> bound <= 4294967296 -> 1 < bound ->
  is_Some (null_commodity s) -> held s this ->
  assign_double this value s = Ok a s' -> held s' a /\ counted bound s'.
Proof.
  intros Hs Hb Hb1 Hk Hthis H. unfold assign_double in H.
  destruct (negb (double_nonzero value)).
  - eapply clear_or_keep_held; eauto.
  - eapply (init_set_held bound this (mpz_set_d value)); eauto.
Qed.

(** ** Parsing *)

Lemma rc_same_cells s s' x : cells s' = cells s -> rc s' x = rc s x.
Proof. intros H. unfold rc. rewrite H. reflexivity. Qed.

Lemma counted_same_cells bound s s' :
  cells s' = cells s -> counted bound s -> counted bound s'.
Proof. intros H Hs q c. rewrite H. apply Hs. Qed.

Lemma find_commodity_ok symbol auto_create s r s' :
  find_commodity symbol auto_create s = Ok r s' ->
  cells s' = cells s /\ null_commodity s' = null_commodity s /\
  (auto_create = true -> is_Some r).
Proof.
  unfold find_commodity. destruct (commodities s !! symbol) as [c|].
  - intros [= <- <-]. eauto.
  - destruct auto_create.
    + intros [= <- <-]. eauto.
    + intros [= <- <-]. split; [reflexivity|]. split; [reflexivity|discriminate].
Qed.

Lemma save_commodity_ok c o s u s' :
  save_commodity c o s = Ok u s' ->
  cells s' = cells s /\ null_commodity s' = null_commodity s.
Proof. intros H. injection H as _ <-. split; reflexivity. Qed.

Lemma parse_held bound this i s r s' :
  counted bound s -> bound <= 4294967296 -> 1 < bound ->
  parse this i s = Ok r s' ->
  held s' (fst r) /\ counted bound s'.
Proof.
  intros Hs Hb Hb1 H. unfold parse in H.
  apply bind_ok in H as (this1 & s1 & H1 & H).
  apply (init_counts bound) in H1 as (q' & -> & Hr & Hs1 & Hn1); [|assumption..].
  destruct (parse_tokens i) as [[[[symbol quant] fl] i']|]; [|discriminate].
  match type of H with
  | context [let '(_, _) := ?X in _] => destruct X as [fl' prec']
  end.
  apply bind_ok in H as ([] & s2 & H2 & H).
  apply (modify_counts bound) in H2 as (Hrc2 & Hs2 & Hn2); [|reflexivity].
  apply bind_ok in H as (found & s3 & H3 & H).
  apply find_commodity_ok in H3 as (Hc3 & Hn3 & Hfound).
  destruct (Hfound eq_refl) as [k ->].
  read_step H.
  apply bind_ok in H as (k' & s4 & [= <- <-] & H).
  apply bind_ok in H as ([] & s4 & H4 & H).
  apply save_commodity_ok in H4 as (Hc4 & Hn4).
  read_step H. read_step H.
  apply bind_ok in H as ([] & s5 & H5 & H).
  assert (Hc5 : cells s5 = cells s4).
  { destruct (prec _ >? precision _).
    - apply save_commodity_ok in H5 as [? _]. assumption.
    - apply ret_ok in H5 as [_ ->]. reflexivity. }
  apply bind_ok in H as (buf & s6 & H6 & H).
  assert (s6 = s5) as ->.
  { destruct (_ || _).
    - destruct (strip_separators quant); [|discriminate].
      apply ret_ok in H6 as [_ ->]. reflexivity.
    - apply ret_ok in H6 as [_ ->]. reflexivity. }
  apply bind_ok in H as ([] & s7 & H7 & H). apply ret_ok in H as [-> ->].
  assert (H7' : (forall x, rc s7 x = rc s5 x) /\ (counted bound s5 -> counted bound s7)).
  { destruct (mpz_set_str buf).
    - apply (modify_counts bound) in H7 as (? & ? & ?); [|reflexivity]. auto.
    - apply ret_ok in H7 as [_ ->]. auto. }
  destruct H7' as [Hrc7 Hs7]. cbn [fst].
  split.
  - apply held_present. rewrite Hrc7, (rc_same_cells _ _ _ Hc5),
      (rc_same_cells _ _ _ Hc4), (rc_same_cells _ _ _ Hc3), Hrc2. assumption.
  - apply Hs7. apply (counted_same_cells _ _ _ Hc5).
    apply (counted_same_cells _ _ _ Hc4). apply (counted_same_cells _ _ _ Hc3).
    auto.
Qed.

Lemma parse_string_held bound this str s a s' :
  counted bound s -> bound <= 4294967296 -> 1 < bound ->
  parse_string this str s = Ok a s' ->
  held s' a /\ counted bound s'.
Proof.
  intros Hs Hb Hb1 H. unfold parse_string in H.
  apply bind_ok in H as (r & s1 & H1 & H). apply ret_ok in H as [-> ->].
  eapply parse_held; eauto.
Qed.

(** ** Arithmetic *)

Lemma keeps_held s s' other : keeps s s' -> held s other -> held s' other.
Proof. intros H. apply H. Qed.

Lemma keeps_refl s : keeps s s.
Proof. intros other H. exact H. Qed.

Lemma keeps_trans s1 s2 s3 : keeps s1 s2 -> keeps s2 s3 -> keeps s1 s3.
Proof. intros H1 H2 other H. apply H2, H1, H. Qed.

Lemma keeps_grow s s' :
  (forall p, rc s p <= rc s' p) -> keeps s s'.
Proof.
  intros H other. unfold held. destruct (quantity other) as [q|]; [|auto].
  intros [Hk Hr]. split; [assumption|]. specialize (H q). lia.
Qed.

Lemma detached_keeps_all this s this' s' : detached this s this' s' -> keeps s s'.
Proof. intros Hd other. apply (detached_keeps _ _ _ _ other Hd). Qed.

Lemma add_assign_held bound this amt s :
  counted bound s -> bound < 4294967296 ->
  held s this -> held s amt ->
  ensures (add_assign this amt) s
    (fun a s' => held s' a /\ keeps s s' /\ counted (bound + 1) s')
    (fun t s' => detached this s t s' /\ counted (bound + 1) s').
Proof.
  intros Hs Hb Hthis Hamt. unfold ensures.
  destruct (add_assign this amt s) as [a s'|e t s'|] eqn:H; [| |exact I];
    unfold add_assign in H;
    (destruct (quantity amt) as [qb|] eqn:Hqb; cbn [negb non_null] in H;
     [|try discriminate]).
  - destruct (quantity this) as [q|] eqn:Hq; cbn [negb non_null] in H.
    + apply (dup_combine_detached bound) in H as [Hd Hs']; [|assumption..].
      split; [eapply detached_held; eauto|].
      split; [eapply detached_keeps_all; eauto|assumption].
    + apply (copy_counts bound) in H as (-> & Hrc & _ & Hs' & Hn); [|assumption..].
      assert (Hk : keeps s s').
      { apply keeps_grow. intros p. rewrite Hrc, Hq. ind_tac. }
      split; [|auto]. apply (Hk amt) in Hamt.
      unfold held in *. rewrite Hqb in *. assumption.
  - apply ret_ok in H as [-> ->]. split; [assumption|]. split; [apply keeps_refl|].
    eapply counted_mono; [eassumption|lia].
  - destruct (quantity this) as [q|] eqn:Hq; cbn [negb non_null] in H.
    + apply (dup_combine_throws bound) in H as [Hd Hs']; [|assumption|lia].
      split; [assumption|]. eapply counted_mono; [eassumption|lia].
    + pose proof (nothrow_copy this amt s) as Hn. rewrite H in Hn. destruct Hn.
Qed.

Lemma sub_assign_held bound this amt s :
  counted bound s -> bound < 4294967296 -> 1 < bound ->
  held s this -> held s amt ->
  ensures (sub_assign this amt) s
    (fun a s' => held s' a /\ keeps s s' /\ counted (bound + 1) s')
    (fun t s' => detached this s t s' /\ counted (bound + 1) s').
Proof.
  intros Hs Hb Hb1 Hthis Hamt. unfold ensures.
  destruct (sub_assign this amt s) as [a s'|e t s'|] eqn:H; [| |exact I];
    unfold sub_assign in H;
    (destruct (quantity amt) as [qb|] eqn:Hqb; cbn [negb non_null] in H;
     [|try discriminate]).
  - destruct (quantity this) as [q|] eqn:Hq; cbn [negb non_null] in H.
    + apply (dup_combine_detached bound) in H as [Hd Hs']; [|assumption..].
      split; [eapply detached_held; eauto|].
      split; [eapply detached_keeps_all; eauto|assumption].
    + apply bind_ok in H as (ac & s1 & H1 & H). apply get_ok in H1 as [-> _].
      apply bind_ok in H as (q & s1 & H1 & H).
      apply (new_bigint_counts bound) in H1 as (H0 & _ & Hrc1 & Hs1 & Hn1);
        [|reflexivity].
      apply bind_ok in H as ([] & s2 & H2 & H). apply ret_ok in H as [-> ->].
      apply update_ok in H2 as (c & Hc & ->).
      assert (Hrc2 : forall x, rc (set_cells <[q:=set_val (- val c) c]> s1) x = rc s1 x).
      { intros x. rewrite rc_insert. case_decide; [|reflexivity]. subst x.
        cbn [ref set_val]. symmetry. apply rc_of_cell. assumption. }
      split; [|split].
      * unfold held in *. rewrite Hqb in *. cbn [quantity commodity].
        destruct Hamt as [Hk Hr]. rewrite !Hrc2, !Hrc1.
        split; [assumption|ind_tac].
      * apply keeps_grow. intros p. rewrite Hrc2, Hrc1. ind_tac.
      * apply counted_insert; [eapply counted_mono; [eauto|lia]|].
        cbn [ref set_val]. pose proof (Hs1 Hs Hb1 q c Hc). lia.
  - apply ret_ok in H as [-> ->]. split; [assumption|]. split; [apply keeps_refl|].
    eapply counted_mono; [eassumption|lia].
  - destruct (quantity this) as [q|] eqn:Hq; cbn [negb non_null] in H.
    + apply (dup_combine_throws bound) in H as [Hd Hs']; [|assumption|lia].
      split; [assumption|]. eapply counted_mono; [eassumption|lia].
    + match type of H with
      | ?m s = _ => assert (Hn : nothrow m) by nothrow_tac
      end.
      specialize (Hn s). rewrite H in Hn. destruct Hn.
Qed.

Lemma nothrow_mul_assign this amt : nothrow (mul_assign this amt).
Proof. unfold mul_assign. nothrow_tac. Qed.

Lemma nothrow_negate this : nothrow (negate this).
Proof. unfold negate. nothrow_tac. Qed.

Lemma mul_assign_held bound this amt s :
  counted bound s -> bound <= 4294967296 ->
  held s this ->
  ensures (mul_assign this amt) s
    (fun a s' => held s' a /\ keeps s s' /\ counted bound s')
    (fun t s' => detached this s t s' /\ counted bound s').
Proof.
  intros Hs Hb Hthis. unfold ensures.
  destruct (mul_assign this amt s) as [a s'|e t s'|] eqn:H; [| |exact I].
  - apply (mul_assign_detached bound) in H as [Hd Hs']; [|assumption..].
    split; [eapply detached_held; eauto|].
    split; [eapply detached_keeps_all; eauto|assumption].
  - pose proof (nothrow_mul_assign this amt s) as Hn. rewrite H in Hn. destruct Hn.
Qed.

Lemma div_assign_held bound this amt s :
  counted bound s -> bound <= 4294967296 ->
  held s this ->
  ensures (div_assign this amt) s
    (fun a s' => held s' a /\ keeps s s' /\ counted bound s')
    (fun t s' => detached this s t s' /\ counted bound s').
Proof.
  intros Hs Hb Hthis. unfold ensures.
  destruct (div_assign this amt s) as [a s'|e t s'|] eqn:H; [| |exact I].
  - apply (div_assign_detached bound) in H as [Hd Hs']; [|assumption..].
    split; [eapply detached_held; eauto|].
    split; [eapply detached_keeps_all; eauto|assumption].
  - unfold div_assign in H.
    destruct (negb (non_null (quantity this))); [discriminate|].
    destruct (quantity amt) as [qb|] eqn:Hqb; cbn [negb non_null] in H.
    + match type of H with
      | ?m s = _ => assert (Hn : nothrow m) by nothrow_tac
      end.
      specialize (Hn s). rewrite H in Hn. destruct Hn.
    + injection H as _ <- <-. split; [apply detached_refl|assumption].
Qed.

(** ** Copies: [round] and the binary operators *)

Lemma added_held this s r s' : added this s r s' -> held s this -> held s' r.
Proof.
  intros [_ H] Hv. unfold held in *. destruct (quantity this) as [q|].
  - destruct H as (q' & -> & Hr & Hnew & Hrc). cbn [quantity commodity].
    destruct Hv as [Hk _]. split; [assumption|]. rewrite Hrc.
    destruct (decide (q' = q)) as [->|Hq']; [ind_tac|].
    rewrite (Hnew Hq'). ind_tac.
  - destruct H as [-> _]. reflexivity.
Qed.

Lemma added_keeps this s r s' : added this s r s' -> keeps s s'.
Proof.
  intros [_ H]. apply keeps_grow. intros p. destruct (quantity this) as [q|].
  - destruct H as (q' & _ & _ & _ & Hrc). rewrite Hrc. ind_tac.
  - destruct H as [_ Hrc]. rewrite Hrc. lia.
Qed.

Lemma added_detached a s t s1 r s2 :
  added a s t s1 -> detached t s1 r s2 -> added a s r s2.
Proof.
  intros [Hn1 H1] [Hn2 H2]. split; [congruence|].
  destruct (quantity a) as [q|].
  - destruct H1 as (q1 & -> & Hr & Hnew1 & Hrc1). cbn [quantity commodity] in H2.
    destruct H2 as (q2 & -> & Hnew2 & Hrc2).
    exists q2. split; [reflexivity|]. split; [assumption|]. split.
    + intros Hq2. destruct (decide (q2 = q1)) as [->|Hne]; [auto|].
      destruct (Hnew2 Hne) as [H0 _]. rewrite Hrc1 in H0. ind_tac.
    + intros p. rewrite Hrc2, Hrc1. ind_tac.
  - destruct H1 as [-> Hrc1]. cbn [quantity] in H2. destruct H2 as [-> Hrc2].
    split; [reflexivity|]. intros p. rewrite Hrc2. apply Hrc1.
Qed.

Lemma added_same a s r s1 s2 :
  added a s r s1 ->
  (forall x, rc s2 x = rc s1 x) -> null_commodity s2 = null_commodity s1 ->
  added a s r s2.
Proof.
  intros [Hn H] Hrc Hn2. split; [congruence|].
  destruct (quantity a) as [q|].
  - destruct H as (q' & -> & Hr & Hnew & H). exists q'. split; [reflexivity|].
    split; [assumption|]. split; [assumption|]. intros p. rewrite Hrc. apply H.
  - destruct H as [-> H]. split; [reflexivity|]. intros p. rewrite Hrc. apply H.
Qed.

Lemma amount_copy_added bound amt s r s' :
  counted bound s -> bound < 4294967296 ->
  amount_copy amt s = Ok r s' ->
  added amt s r s' /\ counted (bound + 1) s'.
Proof.
  intros Hs Hb H.
  apply (amount_copy_counts bound) in H as (-> & Hrc & Hlive & Hs' & Hn);
    [|assumption..].
  split; [|assumption]. split; [assumption|].
  destruct (quantity amt) as [qb|].
  - exists qb. split; [reflexivity|]. split; [auto|]. split; [congruence|].
    intros p. rewrite Hrc. ind_tac.
  - split; [reflexivity|]. intros p. rewrite Hrc. ind_tac.
Qed.

Lemma round_added bound this prec' s r s' :
  counted bound s -> bound < 4294967296 ->
  round this prec' s = Ok r s' ->
  added this s r s' /\ counted (bound + 1) s'.
Proof.
  intros Hs Hb H. unfold round in H.
  destruct (quantity this) as [q0|] eqn:Hq0.
  - apply bind_ok in H as (c & s1 & H1 & H). apply load_ok in H1 as [-> _].
    destruct (prec c <=? prec').
    + eapply amount_copy_added; eauto.
    + apply bind_ok in H as (temp & s1 & H1 & H).
      apply (amount_copy_added bound) in H1 as [Ha Hs1]; [|assumption..].
      apply bind_ok in H as (temp1 & s2 & H2 & H).
      apply (dup_detached (bound + 1)) in H2 as (Hd & Hs2 & _); [|assumption|lia].
      pose proof (added_detached _ _ _ _ _ _ Ha Hd) as Ha2.
      read_step H.
      apply bind_ok in H as ([] & s3 & H3 & H).
      apply (modify_counts (bound + 1)) in H3 as (Hrc3 & Hs3 & Hn3); [|reflexivity].
      apply bind_ok in H as ([] & s4 & H4 & H).
      apply (modify_counts (bound + 1)) in H4 as (Hrc4 & Hs4 & Hn4); [|reflexivity].
      apply ret_ok in H as [-> ->].
      split; [|auto].
      eapply added_same; [eapply added_same; [exact Ha2|..]|..]; eauto.
  - eapply amount_copy_added; eauto.
Qed.

Lemma binary_ok op_assign this amt s r s' :
  binary op_assign this amt s = Ok r s' ->
  exists temp s1, amount_copy this s = Ok temp s1 /\ op_assign temp amt s1 = Ok r s'.
Proof.
  intros H. unfold binary in H. apply bind_ok in H as (temp & s1 & H1 & H).
  exists temp, s1. split; [assumption|]. cbv beta in H.
  destruct (op_assign temp amt s1) as [r' s2|e t s2|]; [assumption| |discriminate].
  destruct (amount_destroy t s2); discriminate.
Qed.

Lemma binary_throw op_assign this amt s e t s' :
  binary op_assign this amt s = Throw e t s' ->
  t = this /\
  exists temp s1 temp' s2,
    amount_copy this s = Ok temp s1 /\
    op_assign temp amt s1 = Throw e temp' s2 /\
    amount_destroy temp' s2 = Ok tt s'.
Proof.
  intros H. unfold binary in H.
  apply bind_throw in H as [H|(temp & s1 & H1 & H)].
  { pose proof (nothrow_amount_copy this s) as Hn. rewrite H in Hn. destruct Hn. }
  cbv beta in H.
  destruct (op_assign temp amt s1) as [r' s2|e' t' s2|] eqn:Hop; [discriminate| |discriminate].
  destruct (amount_destroy t' s2) as [[] s3|e3 t3 s3|] eqn:Hd; [| |discriminate].
  - injection H as -> -> ->. split; [reflexivity|]. eauto 8.
  - pose proof (nothrow_amount_destroy t' s2) as Hn. rewrite Hd in Hn. destruct Hn.
Qed.

Lemma mul_added bound this amt s r s' :
  counted bound s -> bound < 4294967296 ->
  mul this amt s = Ok r s' ->
  added this s r s' /\ counted (bound + 1) s'.
Proof.
  intros Hs Hb H. apply binary_ok in H as (temp & s1 & H1 & H).
  apply (amount_copy_added bound) in H1 as [Ha Hs1]; [|assumption..].
  apply (mul_assign_detached (bound + 1)) in H as [Hd Hs2]; [|assumption|lia].
  split; [|assumption]. eapply added_detached; eauto.
Qed.

Lemma binary_held bound op_assign this amt s :
  counted bound s -> bound + 1 < 4294967296 -> 1 < bound ->
  held s this -> held s amt ->
  (forall temp s1,
     counted (bound + 1) s1 -> held s1 temp -> held s1 amt ->
     ensures (op_assign temp amt) s1
       (fun a s' => held s' a /\ keeps s1 s' /\ counted (bound + 2) s')
       (fun t s' => detached temp s1 t s' /\ counted (bound + 2) s')) ->
  ensures (binary op_assign this amt) s
    (fun r s' => held s' r /\ keeps s s')
    (fun t s' => held s' t /\ keeps s s').
Proof.
  intros Hs Hb Hb1 Hthis Hamt Hop. unfold ensures.
  destruct (binary op_assign this amt s) as [r s'|e t s'|] eqn:H; [| |exact I].
  - apply binary_ok in H as (temp & s1 & H1 & H).
    apply (amount_copy_added bound) in H1 as [Ha Hs1]; [|assumption|lia].
    pose proof (added_keeps _ _ _ _ Ha) as Hk1.
    specialize (Hop temp s1 Hs1 (added_held _ _ _ _ Ha Hthis) (Hk1 _ Hamt)).
    unfold ensures in Hop. rewrite H in Hop. destruct Hop as (Hr & Hk2 & _).
    split; [assumption|]. eapply keeps_trans; eauto.
  - apply binary_throw in H as (-> & temp & s1 & temp' & s2 & H1 & H2 & H3).
    apply (amount_copy_added bound) in H1 as [Ha Hs1]; [|assumption|lia].
    pose proof (added_keeps _ _ _ _ Ha) as Hk1.
    specialize (Hop temp s1 Hs1 (added_held _ _ _ _ Ha Hthis) (Hk1 _ Hamt)).
    unfold ensures in Hop. rewrite H2 in Hop. destruct Hop as (Hd & Hs2).
    apply (amount_destroy_counts (bound + 2)) in H3 as (Hrc3 & _ & _ & _);
      [|assumption|lia].
    assert (Hrc : forall p, rc s' p = rc s p).
    { intros p. rewrite Hrc3. destruct Ha as [_ Ha], Hd as [_ Hd].
      destruct (quantity this) as [q|].
      - destruct Ha as (q1 & -> & _ & _ & Hrc1). cbn [quantity commodity] in Hd.
        destruct Hd as (q2 & -> & _ & Hrc2). rewrite Hrc2, Hrc1. cbn [quantity].
        ind_tac.
      - destruct Ha as [-> Hrc1]. cbn [quantity] in Hd. destruct Hd as [-> Hrc2].
        rewrite Hrc2, Hrc1. cbn [quantity]. ind_tac. }
    assert (Hk : keeps s s') by (apply keeps_grow; intros p; rewrite Hrc; lia).
    split; [apply Hk; assumption|assumption].
Qed.

Lemma to_bool_ok amt s b s' : to_bool amt s = Ok b s' -> s' = s.
Proof.
  unfold to_bool. destruct (negb _); [intros [= _ <-]; reflexivity|].
  intros H. read_step H. read_step H.
  destruct (_ <=? _); apply ret_ok in H as [_ ->]; reflexivity.
Qed.

(** ** Valuation *)

Lemma added_shape a s r s' :
  added a s r s' ->
  (forall p, rc s' p = rc s p + ind (quantity r = Some p)) /\
  (quantity a = None /\ r = Amount None None \/
   exists q q', quantity a = Some q /\ r = Amount (Some q') (commodity a)).
Proof.
  intros [_ H]. destruct (quantity a) as [q|].
  - destruct H as (q' & -> & _ & _ & Hrc). split.
    + intros p. rewrite Hrc. cbn [quantity]. ind_tac.
    + right. eauto.
  - destruct H as [-> Hrc]. split.
    + intros p. rewrite Hrc. cbn [quantity]. ind_tac.
    + left. auto.
Qed.

Lemma added_absent s : added amount_absent s (Amount None None) s.
Proof. split; [reflexivity|]. cbn. auto. Qed.

Lemma find_price_in moment rhistory x :
  find_price moment rhistory = Some x -> In x rhistory.
Proof.
  induction rhistory as [|[first second] rhistory IH]; [discriminate|].
  cbn [find_price]. destruct (_ || _).
  - intros [= <-]. left. reflexivity.
  - intros H. right. auto.
Qed.

Lemma commodity_value_added bound k moment s amt s' :
  counted bound s -> bound < 4294967296 ->
  (forall o t p, objects s !! k = Some o -> In (t, p) (history o) -> held s p) ->
  commodity_value None k moment s = Ok amt s' ->
  exists src, held s src /\ added src s amt s' /\ counted (bound + 1) s'.
Proof.
  intros Hs Hb Hprices H. unfold commodity_value in H.
  apply bind_ok in H as (o & s1 & H1 & H).
  assert (Ho : objects s !! k = Some o /\ s1 = s).
  { unfold load_commodity in H1. destruct (objects s !! k); [|discriminate].
    injection H1 as -> ->. auto. }
  destruct Ho as [Ho ->].
  apply bind_ok in H as (found & s2 & H2 & H). apply ret_ok in H as [-> ->].
  destruct (find_price moment (rev (history o))) as [[first second]|] eqn:Hfind.
  - apply find_price_in, in_rev in Hfind.
    pose proof (Hprices o first second Ho Hfind) as Hsecond.
    apply bind_ok in H2 as (price & s3 & H2 & H). apply ret_ok in H as [-> ->].
    cbn [snd]. exists second. split; [assumption|].
    unfold assign in H2. cbn [amount_absent quantity non_null] in H2.
    destruct (quantity second) as [q|] eqn:Hq; cbn [non_null] in H2.
    + apply (copy_counts bound) in H2 as (-> & Hrc & Hlive & Hs2 & Hn);
        [|assumption..].
      split; [|assumption]. split; [assumption|]. rewrite Hq in *.
      exists q. split; [reflexivity|]. split.
      { destruct Hlive as (qb & [= <-] & Hr); [discriminate|assumption]. }
      split; [congruence|]. intros p. rewrite Hrc.
      unfold amount_absent. cbn [quantity]. ind_tac.
    + apply ret_ok in H2 as [-> ->]. split.
      * split; [reflexivity|]. rewrite Hq. auto.
      * eapply counted_mono; [eassumption|lia].
  - apply ret_ok in H2 as [-> ->]. cbn [snd]. exists amount_absent.
    split; [reflexivity|]. split; [apply added_absent|].
    eapply counted_mono; [eassumption|lia].
Qed.

Lemma value_held bound this moment s r s' :
  counted bound s -> bound + 3 < 4294967296 -> 1 < bound ->
  (forall k o t p, objects s !! k = Some o -> In (t, p) (history o) -> held s p) ->
  held s this ->
  value None this moment s = Ok r s' ->
  held s' r /\ keeps s s'.
Proof.
  intros Hs Hb Hb1 Hprices Hthis H.
  assert (Hcopy : forall r s', amount_copy this s = Ok r s' -> held s' r /\ keeps s s').
  { intros r0 s0 H0. apply (amount_copy_added bound) in H0 as [Ha _];
      [|assumption|lia].
    split; [eapply added_held; eauto|eapply added_keeps; eauto]. }
  unfold value in H. destruct (non_null (quantity this)); [|auto].
  read_step H. destruct (negb _); [|auto].
  apply bind_ok in H as (k & s1 & H1 & H).
  assert (s1 = s) as ->.
  { unfold deref in H1. destruct (commodity this); [|discriminate].
    injection H1 as _ <-. reflexivity. }
  clear H1.
  apply bind_ok in H as (amt & s1 & H1 & H).
  apply (commodity_value_added bound) in H1 as (src & Hsrc & Ha1 & Hs1);
    [|assumption|lia|eauto].
  apply bind_ok in H as (nonzero & s2 & H2 & H). apply to_bool_ok in H2 as ->.
  destruct (added_shape _ _ _ _ Ha1) as [Hrc1 Hshape1].
  destruct nonzero.
  - apply bind_ok in H as (product & s2 & H2 & H).
    apply (mul_added (bound + 1)) in H2 as [Ha2 Hs2]; [|assumption|lia].
    read_step H.
    apply bind_ok in H as (r0 & s3 & H3 & H).
    apply (round_added (bound + 1 + 1)) in H3 as [Ha3 Hs3]; [|assumption|lia].
    apply bind_ok in H as ([] & s4 & H4 & H).
    apply (amount_destroy_counts (bound + 1 + 1 + 1)) in H4 as (Hrc4 & _ & Hs4 & _);
      [|assumption|lia].
    apply bind_ok in H as ([] & s5 & H5 & H).
    apply (amount_destroy_counts (bound + 1 + 1 + 1)) in H5 as (Hrc5 & _ & Hs5 & _);
      [|assumption|lia].
    apply ret_ok in H as [-> ->].
    destruct (added_shape _ _ _ _ Ha2) as [Hrc2 Hshape2].
    destruct (added_shape _ _ _ _ Ha3) as [Hrc3 Hshape3].
    assert (Hrc : forall p, rc s5 p = rc s p + ind (quantity r0 = Some p)).
    { intros p. rewrite Hrc5, Hrc4, Hrc3, Hrc2, Hrc1. lia. }
    split.
    + unfold held.
      destruct Hshape3 as [[_ ->]|(q2 & q3 & Hq2 & ->)]; [reflexivity|].
      cbn [quantity commodity].
      destruct Hshape2 as [[_ ->]|(q1 & q2' & Hq1 & ->)]; [discriminate|].
      destruct Hshape1 as [[_ ->]|(q0 & q1' & Hq0 & ->)]; [discriminate|].
      cbn [commodity]. unfold held in Hsrc. rewrite Hq0 in Hsrc.
      split; [apply Hsrc|]. rewrite Hrc. cbn [quantity].
      pose proof (counted_rc_bounds _ _ q3 Hs Hb1). ind_tac.
    + apply keeps_grow. intros p. rewrite Hrc. ind_tac.
  - apply bind_ok in H as ([] & s2 & H2 & H).
    apply (amount_destroy_counts (bound + 1)) in H2 as (Hrc2 & _ & Hs2 & _);
      [|assumption|lia].
    apply (amount_copy_added (bound + 1)) in H as [Ha3 Hs3]; [|assumption|lia].
    destruct (added_shape _ _ _ _ Ha3) as [Hrc3 Hshape3].
    assert (Hrc : forall p, rc s' p = rc s p + ind (quantity r = Some p)).
    { intros p. rewrite Hrc3, Hrc2, Hrc1. lia. }
    split.
    + unfold held. destruct Hshape3 as [[_ ->]|(q2 & q3 & Hq2 & ->)]; [reflexivity|].
      cbn [quantity commodity]. unfold held in Hthis. rewrite Hq2 in Hthis.
      split; [apply Hthis|]. rewrite Hrc. cbn [quantity].
      pose proof (counted_rc_bounds _ _ q3 Hs Hb1). ind_tac.
    + apply keeps_grow. intros p. rewrite Hrc. ind_tac.
Qed.

(** ** The invariant of [amount_t], operation by operation *)

Lemma held_is_valid s a : held s a -> invariant a /\ is_valid s a.
Proof.
  intros H. assert (Hv : is_valid s a).
  { apply is_valid_iff. unfold held in H. destruct (quantity a); [|assumption].
    destruct H. split; [assumption|lia]. }
  split; [eapply is_valid_invariant; eassumption|assumption].
Qed.

Lemma is_valid_held bound s a :
  counted bound s -> 1 < bound -> is_valid s a -> held s a.
Proof. intros Hs Hb H. apply (held_valid bound); assumption. Qed.

Lemma ensures_intro {A} (m : M A) s (post : A -> store -> Prop)
    (exc : amount_t -> store -> Prop) :
  (forall a s', m s = Ok a s' -> post a s') ->
  (forall e t s', m s = Throw e t s' -> exc t s') ->
  ensures m s post exc.
Proof.
  intros Hok Hthrow. unfold ensures. destruct (m s); [eauto|eauto|exact I].
Qed.

Lemma ensures_nothrow {A} (m : M A) s (post : A -> store -> Prop) :
  nothrow m ->
  (forall a s', m s = Ok a s' -> post a s') ->
  ensures m s post (fun _ _ => False).
Proof.
  intros Hn Hok. apply ensures_intro; [assumption|].
  intros e t s' H. specialize (Hn s). rewrite H in Hn. exact Hn.
Qed.

Lemma ensures_weaken {A} (m : M A) s (post post' : A -> store -> Prop)
    (exc exc' : amount_t -> store -> Prop) :
  ensures m s post exc ->
  (forall a s', post a s' -> post' a s') ->
  (forall t s', exc t s' -> exc' t s') ->
  ensures m s post' exc'.
Proof.
  unfold ensures. intros H Hp He. destruct (m s); auto.
Qed.

Lemma nothrow_init this : nothrow (_init this).
Proof. unfold _init. nothrow_tac. Qed.

Lemma nothrow_clear this : nothrow (_clear this).
Proof. unfold _clear. nothrow_tac. Qed.

#[local] Hint Resolve nothrow_init nothrow_clear nothrow_mul_assign : nothrow.

Lemma nothrow_amount_of_bool v : nothrow (amount_of_bool v).
Proof. unfold amount_of_bool. nothrow_tac. Qed.

Lemma nothrow_amount_of_int v : nothrow (amount_of_int v).
Proof. unfold amount_of_int. nothrow_tac. Qed.

Lemma nothrow_amount_of_uint v : nothrow (amount_of_uint v).
Proof. unfold amount_of_uint. nothrow_tac. Qed.

Lemma nothrow_amount_of_double v : nothrow (amount_of_double v).
Proof. unfold amount_of_double. nothrow_tac. Qed.

Lemma nothrow_assign this amt : nothrow (assign this amt).
Proof. unfold assign. nothrow_tac. Qed.

Lemma nothrow_assign_bool this v : nothrow (assign_bool this v).
Proof. unfold assign_bool. nothrow_tac. Qed.

Lemma nothrow_assign_int this v : nothrow (assign_int this v).
Proof. unfold assign_int. nothrow_tac. Qed.

Lemma nothrow_assign_uint this v : nothrow (assign_uint this v).
Proof. unfold assign_uint. nothrow_tac. Qed.

Lemma nothrow_assign_double this v : nothrow (assign_double this v).
Proof. unfold assign_double. nothrow_tac. Qed.

Lemma nothrow_round this p : nothrow (round this p).
Proof. unfold round. nothrow_tac. Qed.

Lemma nothrow_binary op_assign this amt :
  (forall temp, nothrow (op_assign temp amt)) -> nothrow (binary op_assign this amt).
Proof.
  intros Hop. unfold binary. apply nothrow_bind; [apply nothrow_amount_copy|].
  intros temp s. specialize (Hop temp s).
  destruct (op_assign temp amt s); [exact I|destruct Hop|exact I].
Qed.

Lemma nothrow_to_bool amt : nothrow (to_bool amt).
Proof. unfold to_bool. nothrow_tac. Qed.

Lemma nothrow_value this moment : nothrow (value None this moment).
Proof.
  assert (Hmul : forall a b, nothrow (mul a b)).
  { intros a b. apply nothrow_binary. intros temp. apply nothrow_mul_assign. }
  assert (Hcv : forall k, nothrow (commodity_value None k moment)).
  { intros k. unfold commodity_value. nothrow_tac; apply nothrow_assign. }
  unfold value. nothrow_tac; auto using nothrow_to_bool, nothrow_round.
  intros s. pose proof (nothrow_mul_assign a3 this s) as Hn.
  destruct (mul_assign a3 this s); [exact I|destruct Hn|exact I].
Qed.




(** A [parse] that throws has already run [_init]: parsing a symbol whose
    closing quote is missing into the amount without value leaves a
    quantity and no commodity. *)
Lemma parse_abort_leaves_quantity_without_commodity :
  exists this s',
    run (parse_string amount_absent (String dquote "abc"))
      = Throw (AmountError "Quoted commodity symbol lacks closing quote") this s' /\
    quantity this <> None /\ commodity this = None /\
    ~ invariant this /\ valid this s' = Ok false s'.
Proof.
  eexists _, _. split; [vm_compute; reflexivity|].
  split; [discriminate|]. split; [reflexivity|].
  split; [|vm_compute; reflexivity].
  unfold invariant. cbn. intros [H _]. destruct H as [x Hx]; [eauto|].
  discriminate.
Qed.

(** * What the operations compute *)

(** ** Rounding *)

Lemma mpz_round_floor value value_prec round_prec :
  round_prec < value_prec ->
  mpz_round value value_prec round_prec
    = (value + 5 * 10 ^ (value_prec - round_prec - 1)) / 10 ^ (value_prec - round_prec).
Proof.
  intros Hlt. rewrite (mpz_round_by_cases _ _ _ Hlt). unfold round_by_cases.
  set (k := value_prec - round_prec).
  assert (Hk : 0 < k) by (unfold k; lia).
  set (h := 5 * 10 ^ (k - 1)).
  assert (Hh : 0 < h).
  { unfold h. apply Z.mul_pos_pos; [lia|]. apply Z.pow_pos_nonneg; lia. }
  assert (Hd : 10 ^ k = 2 * h) by (unfold h; rewrite (pow10_split k Hk); lia).
  rewrite Hd.
  pose proof (Z.quot_rem' value (2 * h)) as Hqr.
  pose proof (Z.rem_bound_abs value (2 * h) ltac:(lia)) as Hb.
  set (q := Z.quot value (2 * h)) in *. set (r := Z.rem value (2 * h)) in *.
  destruct (0 <=? r) eqn:H0; destruct (h <=? r) eqn:H1;
    destruct (r <? 0) eqn:H2; destruct (r <? - h) eqn:H3;
    cbn [andb]; try lia;
    repeat match goal with
           | H : (_ <=? _) = true |- _ => apply Z.leb_le in H
           | H : (_ <=? _) = false |- _ => apply Z.leb_gt in H
           | H : (_ <? _) = true |- _ => apply Z.ltb_lt in H
           | H : (_ <? _) = false |- _ => apply Z.ltb_ge in H
           end; try lia.
  all: first [ apply (Z.div_unique_pos _ _ _ (r - h)); lia
             | apply (Z.div_unique_pos _ _ _ (r + h)); lia
             | apply (Z.div_unique_pos _ _ _ (r + h + 2 * h)); lia ].
Qed.

(** X1: When round_prec < value_prec, mpz_round returns the floor of (value
    + 5*10^(k-1)) / 10^k, where k = value_prec - round_prec: the three
    branches of the code together round to the nearest multiple of 10^k, an
    exact half going toward plus infinity for either sign. *)
Theorem mpz_round_rounds_half_up value value_prec round_prec :
  round_prec < value_prec ->
  mpz_round value value_prec round_prec
    = (value + 5 * 10 ^ (value_prec - round_prec - 1)) / 10 ^ (value_prec - round_prec).
Proof. apply mpz_round_floor. Qed.

Lemma mpz_round_rounds_half_up_witness :
  0 < 1 /\ mpz_round (-15) 1 0 = (-15 + 5 * 10 ^ (1 - 0 - 1)) / 10 ^ (1 - 0).
Proof. split; [lia|]. apply (mpz_round_rounds_half_up (-15) 1 0). lia. Defined.

(** X2: When round_prec < value_prec, the result of mpz_round, scaled back
    by 10^k, lies within half a unit of value (above it by at most a half,
    below it by less than a half), and a value that is a multiple v*10^k
    rounds to v exactly. *)
Theorem mpz_round_is_nearest value value_prec round_prec :
  round_prec < value_prec ->
  let d := 10 ^ (value_prec - round_prec) in
  let r := mpz_round value value_prec round_prec in
  - d < 2 * (r * d - value) <= d /\
  (forall v, mpz_round (v * d) value_prec round_prec = v).
Proof.
  intros Hlt d r.
  set (k := value_prec - round_prec) in *.
  assert (Hk : 0 < k) by (unfold k; lia).
  set (h := 5 * 10 ^ (k - 1)).
  assert (Hh : 0 < h).
  { unfold h. apply Z.mul_pos_pos; [lia|]. apply Z.pow_pos_nonneg; lia. }
  assert (Hd : d = 2 * h) by (unfold d, h; rewrite (pow10_split k Hk); lia).
  split.
  - unfold r. rewrite (mpz_round_floor _ _ _ Hlt). fold k. fold h. fold d.
    pose proof (Z.div_mod (value + h) d ltac:(lia)) as Hdm.
    pose proof (Z.mod_pos_bound (value + h) d ltac:(lia)) as Hb.
    lia.
  - intros v. rewrite (mpz_round_floor _ _ _ Hlt). fold k. fold h. fold d.
    symmetry. apply (Z.div_unique_pos _ _ _ h); lia.
Qed.

Lemma mpz_round_is_nearest_witness :
  - 10 ^ (1 - 0) < 2 * (mpz_round (-15) 1 0 * 10 ^ (1 - 0) - -15) <= 10 ^ (1 - 0).
Proof.
  destruct (mpz_round_is_nearest (-15) 1 0) as [H _]; [lia|]. exact H.
Defined.

(** ** Copies and cells of one's own *)

Lemma with_cells_id s : with_cells (cells s) s = s.
Proof. destruct s. reflexivity. Qed.

Lemma uint_pred_succ r : 0 <= r < 4294967296 -> uint (uint (r + 1) - 1) = r.
Proof.
  intros Hr. unfold uint.
  destruct (decide (r + 1 < 4294967296)).
  - rewrite (Z.mod_small (r + 1)) by lia. replace (r + 1 - 1) with r by lia.
    apply Z.mod_small. lia.
  - replace r with 4294967295 by lia. reflexivity.
Qed.

Lemma set_ref_ref c : set_ref (ref c) c = c.
Proof. destruct c. reflexivity. Qed.

Lemma set_ref_set_ref r r' c : set_ref r (set_ref r' c) = set_ref r c.
Proof. reflexivity. Qed.

(** X3: Copy-constructing an amount whose cell is live and destroying the
    copy leaves the whole store exactly as it was, whatever the reference
    count of the cell. *)
Theorem copy_then_destroy_restores_store s a q c :
  quantity a = Some q -> cells s !! q = Some c -> 1 <= ref c < 4294967296 ->
  (let* temp := amount_copy a in amount_destroy temp) s = Ok tt s.
Proof.
  intros Hq Hc Hr. unfold bind. rewrite (amount_copy_eq a q c s Hq Hc).
  unfold amount_destroy. rewrite Hq. cbn [non_null].
  erewrite (release_eq a q); [|exact Hq|lookup_tac].
  f_equal. unfold released. cbn [ref set_ref].
  rewrite uint_pred_succ by lia.
  rewrite (proj2 (Z.eqb_neq (ref c) 0)) by lia.
  destruct s as [m o cs n b bn]. unfold set_cells. cbn in *. f_equal.
  rewrite insert_insert_eq. destruct c; cbn. apply insert_id. exact Hc.
Qed.

Lemma copy_then_destroy_restores_store_witness :
  (let* temp := amount_copy sample_ten in amount_destroy temp) sample_store
    = Ok tt sample_store.
Proof.
  apply (copy_then_destroy_restores_store sample_store sample_ten 2%positive
           (Bigint 1000 2 0 1 0)).
  - reflexivity.
  - reflexivity.
  - simpl. lia.
Defined.

Lemma set_cells_with_cells f s : set_cells f s = with_cells (f (cells s)) s.
Proof. reflexivity. Qed.

Lemma with_cells_with_cells m m' s : with_cells m (with_cells m' s) = with_cells m s.
Proof. reflexivity. Qed.

Lemma cells_with_cells m s : cells (with_cells m s) = m.
Proof. reflexivity. Qed.

Ltac flat :=
  rewrite ?set_cells_with_cells, ?with_cells_with_cells, ?cells_with_cells.

Lemma uint_pred r : 1 <= r < 4294967296 -> uint (r - 1) = r - 1.
Proof. intros Hr. unfold uint. apply Z.mod_small. lia. Qed.

(** What [_dup] leaves: the receiver is the only holder of its cell. *)
Lemma dup_spec this q c s :
  quantity this = Some q -> cells s !! q = Some c -> 1 <= ref c < 4294967296 ->
  exists q' m',
    _dup this s = Ok (Amount (Some q') (commodity this)) (with_cells m' s) /\
    m' !! q' = Some (set_ref 1 (if ref c >? 1 then bigint_copy c else c)) /\
    (forall p, p <> q' -> p <> q -> m' !! p = cells s !! p) /\
    (q' <> q -> cells s !! q' = None /\ 1 < ref c /\
                m' !! q = Some (set_ref (ref c - 1) c)) /\
    (1 < ref c -> q' <> q).
Proof.
  intros Hq Hc Hr. rewrite (dup_eq this q c s Hq Hc).
  destruct (ref c >? 1) eqn:Hgt.
  - apply Z.gtb_lt in Hgt.
    pose proof (heap_fresh_ne s q c Hc) as Hne.
    exists (heap_fresh s), (released q c (<[heap_fresh s := bigint_copy c]> (cells s))).
    split; [reflexivity|]. split; [|split; [|split; [|intros _; exact Hne]]].
    + rewrite lookup_released_ne by exact Hne. rewrite lookup_insert_eq. reflexivity.
    + intros p Hp1 Hp2. rewrite lookup_released_ne by exact Hp2.
      rewrite lookup_insert_ne by congruence. reflexivity.
    + intros _. split; [apply heap_fresh_not_live|]. split; [lia|].
      rewrite lookup_released_eq by (rewrite uint_pred; lia).
      rewrite uint_pred by lia. reflexivity.
  - rewrite Z.gtb_ltb in Hgt. apply Z.ltb_ge in Hgt.
    exists q, (cells s). rewrite with_cells_id.
    split; [destruct this; simpl in Hq; subst; reflexivity|].
    split; [|split; [|split; [|lia]]].
    + rewrite Hc. f_equal. replace 1 with (ref c) by lia. symmetry. apply set_ref_ref.
    + reflexivity.
    + congruence.
Qed.

Lemma payload_eq s s' p :
  (exists c c', cells s !! p = Some c /\ cells s' !! p = Some c' /\
                val c' = val c /\ prec c' = prec c) \/
  (cells s !! p = None /\ cells s' !! p = None) ->
  payload s' p = payload s p.
Proof.
  unfold payload. intros [(c & c' & -> & -> & -> & ->)|[-> ->]]; reflexivity.
Qed.

Lemma payload_same_lookup s s' p :
  cells s' !! p = cells s !! p -> payload s' p = payload s p.
Proof. unfold payload. intros ->. reflexivity. Qed.

Lemma payload_set_ref m s p c r :
  cells s !! p = Some c -> m !! p = Some (set_ref r c) ->
  payload (with_cells m s) p = payload s p.
Proof. unfold payload. cbn. intros -> ->. reflexivity. Qed.

(** The frame of [_dup] on the numbers. *)
Lemma dup_frame q c s q' m' p :
  cells s !! q = Some c ->
  (forall p, p <> q' -> p <> q -> m' !! p = cells s !! p) ->
  (q' <> q -> cells s !! q' = None /\ 1 < ref c /\
              m' !! q = Some (set_ref (ref c - 1) c)) ->
  p <> q' -> payload (with_cells m' s) p = payload s p.
Proof.
  intros Hc Hframe Hold Hp. destruct (decide (p = q)) as [->|Hpq].
  - destruct (Hold ltac:(congruence)) as (_ & _ & Hq).
    eapply payload_set_ref; eauto.
  - apply payload_same_lookup. cbn. apply Hframe; assumption.
Qed.

Lemma negate_value s a q c :
  quantity a = Some q -> cells s !! q = Some c -> 1 <= ref c < 4294967296 ->
  exists q' c' s',
    negate a s = Ok (Amount (Some q') (commodity a)) s' /\
    cells s' !! q' = Some c' /\
    val c' = - val c /\ prec c' = prec c /\ ref c' = 1 /\
    (1 < ref c -> q' <> q) /\
    (forall p, p <> q' -> payload s' p = payload s p).
Proof.
  intros Hq Hc Hr. unfold negate. rewrite Hq. cbn [non_null].
  destruct (dup_spec a q c s Hq Hc Hr) as (q' & m' & Hdup & Hq' & Hframe & Hold & Hnew).
  unfold bind at 1. rewrite Hdup. cbv beta. norm.
  erewrite bind_modify_eq by (cbn; exact Hq').
  eexists q', _, _. split; [reflexivity|]. split; [cbn; apply lookup_insert_eq|].
  split; [destruct (ref c >? 1); reflexivity|].
  split; [destruct (ref c >? 1); reflexivity|].
  split; [reflexivity|]. split; [exact Hnew|].
  intros p Hp. rewrite <- (dup_frame q c s q' m' p Hc Hframe Hold Hp).
  apply payload_same_lookup. cbn. apply lookup_insert_ne. congruence.
Qed.

(** X4: negate turns the magnitude into its opposite at the same scale and
    keeps the commodity; when the cell is shared the result is a new cell,
    and every other cell keeps its number. Negating twice gives back the
    magnitude and the scale. *)
Theorem negate_flips_sign s a q c :
  quantity a = Some q -> cells s !! q = Some c -> 1 <= ref c < 4294967296 ->
  (exists q' c' s',
     negate a s = Ok (Amount (Some q') (commodity a)) s' /\
     cells s' !! q' = Some c' /\
     val c' = - val c /\ prec c' = prec c /\
     (1 < ref c -> q' <> q) /\
     (forall p, p <> q' -> payload s' p = payload s p)) /\
  (exists q' c' s',
     (let* once := negate a in negate once) s
       = Ok (Amount (Some q') (commodity a)) s' /\
     cells s' !! q' = Some c' /\ val c' = val c /\ prec c' = prec c).
Proof.
  intros Hq Hc Hr.
  destruct (negate_value s a q c Hq Hc Hr)
    as (q1 & c1 & s1 & Hrun1 & Hq1 & Hv1 & Hp1 & Hr1 & Hnew & Hframe).
  split; [exists q1, c1, s1; auto 10|].
  destruct (negate_value s1 (Amount (Some q1) (commodity a)) q1 c1 eq_refl Hq1)
    as (q2 & c2 & s2 & Hrun2 & Hq2 & Hv2 & Hp2 & _); [lia|].
  exists q2, c2, s2. unfold bind. rewrite Hrun1.
  split; [exact Hrun2|]. split; [exact Hq2|]. split; lia.
Qed.

Lemma negate_flips_sign_witness :
  exists q' c' s',
    negate sample_debt sample_store = Ok (Amount (Some q') (Some 2%positive)) s' /\
    cells s' !! q' = Some c' /\ val c' = 15 /\ q' <> 4%positive.
Proof.
  destruct (negate_flips_sign sample_store sample_debt 4%positive (Bigint (-15) 1 0 2 0))
    as [(q' & c' & s' & Hrun & Hc & Hv & _ & Hnew & _) _].
  - reflexivity.
  - reflexivity.
  - simpl. lia.
  - exists q', c', s'. split; [exact Hrun|]. split; [exact Hc|].
    split; [exact Hv|]. apply Hnew. simpl. lia.
Defined.

(** ** Sums, differences and products *)

Lemma ushort_small x : 0 <= x < 65536 -> ushort x = x.
Proof. intros H. unfold ushort. apply Z.mod_small. lia. Qed.

Lemma resize_spec this q c p s :
  quantity this = Some q -> cells s !! q = Some c -> 1 <= ref c < 4294967296 ->
  0 <= p < 256 ->
  exists q' c' m',
    _resize this p s = Ok (Amount (Some q') (commodity this)) (with_cells m' s) /\
    m' !! q' = Some c' /\ prec c' = p /\ val c' = rescaled c p /\
    ref c' = (if decide (q' = q) then ref c else 1) /\
    (forall r, r <> q' -> r <> q -> m' !! r = cells s !! r) /\
    (q' <> q -> cells s !! q' = None /\ 1 < ref c /\
                m' !! q = Some (set_ref (ref c - 1) c)) /\
    (1 < ref c -> p <> prec c -> q' <> q).
Proof.
  intros Hq Hc Hr Hp. unfold _resize.
  rewrite (proj2 (Z.ltb_lt p 256)) by lia. cbn [negb]. rewrite Hq.
  unfold bind at 1. rewrite (load_eq _ _ _ Hc).
  destruct (p =? prec c) eqn:Hpp.
  - apply Z.eqb_eq in Hpp. exists q, c, (cells s). rewrite with_cells_id.
    split; [destruct this; simpl in Hq; subst; reflexivity|].
    split; [exact Hc|]. split; [congruence|]. split.
    { unfold rescaled. rewrite Hpp, Z.ltb_irrefl, Z.sub_diag. cbn. lia. }
    rewrite decide_True by reflexivity.
    split; [reflexivity|]. split; [reflexivity|]. split; congruence.
  - apply Z.eqb_neq in Hpp.
    destruct (dup_spec this q c s Hq Hc Hr) as (q' & m' & Hdup & Hq' & Hframe & Hold & Hnew).
    unfold bind at 1. rewrite Hdup. cbv beta. norm.
    erewrite bind_get_eq by (cbn; exact Hq').
    set (c1 := set_ref 1 (if ref c >? 1 then bigint_copy c else c)) in *.
    assert (Hv1 : val c1 = val c) by (unfold c1; destruct (ref c >? 1); reflexivity).
    assert (Hp1 : prec c1 = prec c) by (unfold c1; destruct (ref c >? 1); reflexivity).
    exists q'.
    assert (Hfin : forall v,
      (let* _ := modify (Some q') (set_val v) in
       let* _ := modify (Some q') (set_prec (ushort p)) in
       ret (Amount (Some q') (commodity this))) (with_cells m' s)
      = Ok (Amount (Some q') (commodity this))
           (with_cells (<[q' := set_prec p (set_val v c1)]> m') s)).
    { intros v. erewrite bind_modify_eq by (cbn; exact Hq').
      erewrite bind_modify_eq by (cbn; apply lookup_insert_eq).
      rewrite ushort_small by lia. unfold ret. f_equal.
      unfold with_cells, set_cells. cbn. f_equal. apply insert_insert_eq. }
    exists (set_prec p (set_val (rescaled c p) c1)),
           (<[q' := set_prec p (set_val (rescaled c p) c1)]> m').
    split.
    { unfold rescaled. rewrite Hp1, Hv1. unfold mpz_ui_pow_ui.
      destruct (p <? prec c); apply Hfin. }
    split; [apply lookup_insert_eq|]. split; [reflexivity|]. split; [reflexivity|].
    split.
    { cbn [ref set_prec set_val]. unfold c1. cbn [ref set_ref].
      destruct (decide (q' = q)) as [->|Hne]; [|reflexivity].
      destruct (Z_lt_dec 1 (ref c)) as [Hgt|Hle]; [destruct (Hnew Hgt); reflexivity|lia]. }
    split; [intros r Hr1 Hr2; rewrite lookup_insert_ne by congruence; auto|].
    split; [|auto].
    intros Hne. destruct (Hold Hne) as (H1 & H2 & H3).
    split; [exact H1|]. split; [exact H2|].
    rewrite lookup_insert_ne by congruence. exact H3.
Qed.

Lemma uint_succ r : 0 <= r -> r + 1 < 4294967296 -> uint (r + 1) = r + 1.
Proof. intros. unfold uint. apply Z.mod_small. lia. Qed.

Lemma combine_value (mpz_op : Z -> Z -> Z) s q k amt qb c cb :
  quantity amt = Some qb -> q <> qb ->
  cells s !! q = Some c -> ref c = 1 ->
  cells s !! qb = Some cb -> 1 <= ref cb -> ref cb + 1 < 4294967296 ->
  0 <= prec c < 256 -> 0 <= prec cb < 256 ->
  exists c' m',
    combine mpz_op (Amount (Some q) k) amt s
      = Ok (Amount (Some q) k) (with_cells m' s) /\
    m' !! q = Some c' /\
    prec c' = Z.max (prec c) (prec cb) /\
    val c' = mpz_op (fst (aligned c cb)) (snd (aligned c cb)) /\
    ref c' = 1 /\
    (forall r, r <> q -> m' !! r = cells s !! r).
Proof.
  intros Hb Hne Hc Hr Hcb Hrb1 Hrb2 Hp Hpb. unfold combine. norm.
  erewrite bind_get_eq by exact Hc. rewrite Hb.
  erewrite bind_get_eq by exact Hcb. unfold aligned. cbn [fst snd].
  destruct (prec c =? prec cb) eqn:Heq; [|destruct (prec c <? prec cb) eqn:Hlt].
  - apply Z.eqb_eq in Heq.
    erewrite bind_modify_eq by exact Hc.
    eexists _, _. split; [reflexivity|].
    split; [apply lookup_insert_eq|].
    rewrite <- Heq, Z.max_id, Z.sub_diag. cbn [Z.pow]. rewrite !Z.mul_1_r.
    split; [reflexivity|]. split; [reflexivity|].
    split; [exact Hr|].
    intros r Hr'. apply lookup_insert_ne. congruence.
  - apply Z.ltb_lt in Hlt.
    destruct (resize_spec (Amount (Some q) k) q c (prec cb) s eq_refl Hc ltac:(lia) Hpb)
      as (q' & c' & m' & Hres & Hq' & Hp' & Hv' & Hr' & Hframe & Hold & _).
    assert (q' = q) as ->.
    { destruct (decide (q' = q)) as [|Hn]; [assumption|].
      destruct (Hold Hn) as (_ & ? & _). lia. }
    unfold bind at 1. rewrite Hres. cbv beta. norm.
    erewrite bind_get_eq by (cbn; exact Hq').
    erewrite bind_get_eq by (cbn; rewrite Hframe by congruence; exact Hcb).
    erewrite bind_modify_eq by (cbn; exact Hq').
    eexists _, _. split; [reflexivity|].
    split; [apply lookup_insert_eq|].
    rewrite Z.max_r by lia. rewrite Z.sub_diag. cbn [Z.pow]. rewrite Z.mul_1_r.
    split; [exact Hp'|].
    split.
    { cbn [val set_val]. rewrite Hv'. unfold rescaled.
      rewrite (proj2 (Z.ltb_ge (prec cb) (prec c))) by lia. reflexivity. }
    split; [rewrite decide_True in Hr' by reflexivity; cbn [ref set_val]; lia|].
    intros r Hrq. rewrite lookup_insert_ne by congruence. apply Hframe; congruence.
  - apply Z.ltb_ge in Hlt. apply Z.eqb_neq in Heq.
    unfold bind at 1. rewrite (amount_copy_eq amt qb cb s Hb Hcb).
    rewrite set_cells_with_cells.
    set (cb1 := set_ref (uint (ref cb + 1)) cb).
    assert (Hcb1 : cells (with_cells (<[qb := cb1]> (cells s)) s) !! qb = Some cb1)
      by (cbn; apply lookup_insert_eq).
    assert (Hrcb1 : ref cb1 = ref cb + 1)
      by (unfold cb1; cbn [ref set_ref]; apply uint_succ; lia).
    destruct (resize_spec amt qb cb1 (prec c) _ Hb Hcb1 ltac:(lia) Hp)
      as (q2 & c2 & m2 & Hres & Hq2 & Hp2 & Hv2 & Hr2 & Hframe & Hold & Hnew).
    specialize (Hnew ltac:(lia) ltac:(unfold cb1; cbn; lia)).
    destruct (Hold Hnew) as (Hfresh & _ & Hqb).
    cbn in Hfresh. rewrite decide_False in Hr2 by exact Hnew.
    assert (Hq2q : q2 <> q).
    { intros ->. rewrite lookup_insert_ne in Hfresh by congruence. congruence. }
    unfold bind at 1. rewrite Hres. cbv beta. norm. rewrite with_cells_with_cells.
    erewrite bind_get_eq
      by (cbn; rewrite Hframe by congruence; cbn; rewrite lookup_insert_ne by congruence; exact Hc).
    erewrite bind_get_eq by (cbn; exact Hq2).
    erewrite bind_modify_eq
      by (cbn; rewrite Hframe by congruence; cbn; rewrite lookup_insert_ne by congruence; exact Hc).
    unfold bind at 1. unfold amount_destroy. norm. cbn [non_null].
    erewrite (release_eq _ q2 c2); [|reflexivity|cbn; rewrite lookup_insert_ne by congruence; exact Hq2].
    rewrite set_cells_with_cells. unfold ret. cbn [cells with_cells set_cells].
    eexists _, _. split; [reflexivity|].
    assert (Hdel : (uint (ref c2 - 1) =? 0) = true) by (rewrite Hr2; reflexivity).
    unfold released. rewrite Hdel.
    split.
    { rewrite lookup_delete_ne, lookup_insert_ne, lookup_insert_eq by congruence. reflexivity. }
    rewrite Z.max_l by lia. rewrite Z.sub_diag. cbn [Z.pow]. rewrite Z.mul_1_r.
    split; [reflexivity|]. split.
    { cbn [val set_val]. rewrite Hv2. unfold rescaled.
      replace (prec cb1) with (prec cb) by reflexivity.
      replace (val cb1) with (val cb) by reflexivity.
      rewrite (proj2 (Z.ltb_ge (prec c) (prec cb))) by lia. reflexivity. }
    split; [exact Hr|].
    intros r Hrq. destruct (decide (r = q2)) as [->|Hr2'].
    { rewrite lookup_delete_eq. rewrite lookup_insert_ne in Hfresh by congruence.
      congruence. }
    rewrite lookup_delete_ne, lookup_insert_ne, lookup_insert_ne by congruence.
    destruct (decide (r = qb)) as [->|Hrb].
    { rewrite Hqb, Hcb. f_equal. rewrite Hrcb1. unfold cb1.
      replace (ref cb + 1 - 1) with (ref cb) by lia. destruct cb; reflexivity. }
    rewrite Hframe by congruence. cbn. apply lookup_insert_ne. congruence.
Qed.

Lemma dup_combine_value (mpz_op : Z -> Z -> Z) what s a b qa qb ca cb :
  quantity a = Some qa -> cells s !! qa = Some ca ->
  quantity b = Some qb -> cells s !! qb = Some cb ->
  commodity a = commodity b ->
  1 <= ref ca < 4294967296 -> 1 <= ref cb -> ref cb + 1 < 4294967296 ->
  (qa = qb -> 2 <= ref ca) ->
  0 <= prec ca < 256 -> 0 <= prec cb < 256 ->
  exists q' c' s',
    (let* this := _dup a in
     if negb (bool_decide (commodity this = commodity b))
     then throw what this else combine mpz_op this b) s
      = Ok (Amount (Some q') (commodity a)) s' /\
    cells s' !! q' = Some c' /\
    prec c' = Z.max (prec ca) (prec cb) /\
    val c' = mpz_op (fst (aligned ca cb)) (snd (aligned ca cb)) /\
    ref c' = 1 /\
    (1 < ref ca -> q' <> qa) /\
    (forall p, p <> q' -> payload s' p = payload s p) /\
    q' <> qb /\
    exists cb', cells s' !! qb = Some cb' /\ val cb' = val cb /\
                prec cb' = prec cb /\ 1 <= ref cb' <= ref cb.
Proof.
  intros Ha Hca Hb Hcb Hk Hra Hrb1 Hrb2 Halias Hpa Hpb.
  destruct (dup_spec a qa ca s Ha Hca Hra) as (q1 & m1 & Hdup & Hq1 & Hframe & Hold & Hnew).
  unfold bind at 1. rewrite Hdup. cbv beta. norm.
  rewrite bool_decide_eq_true_2 by exact Hk. cbn [negb].
  set (c1 := set_ref 1 (if ref ca >? 1 then bigint_copy ca else ca)) in *.
  assert (Hq1b : q1 <> qb).
  { intros ->. destruct (decide (qb = qa)) as [->|Hn].
    - apply (Hnew ltac:(specialize (Halias eq_refl); lia)). reflexivity.
    - destruct (Hold Hn) as (Hfresh & _). congruence. }
  assert (Hcb1 : exists cb1, m1 !! qb = Some cb1 /\ val cb1 = val cb /\
                   prec cb1 = prec cb /\ 1 <= ref cb1 /\ ref cb1 + 1 < 4294967296
                   /\ ref cb1 <= ref cb).
  { destruct (decide (qb = qa)) as [->|Hn].
    - assert (cb = ca) by congruence. subst cb.
      destruct (Hold Hq1b) as (_ & _ & Hq). eexists. split; [exact Hq|].
      specialize (Halias eq_refl). cbn. repeat split; lia.
    - exists cb. rewrite Hframe by congruence. repeat split; auto; lia. }
  destruct Hcb1 as (cb1 & Hcb1 & Hvb & Hpb1 & Hrb3 & Hrb4 & Hrb5).
  destruct (combine_value mpz_op (with_cells m1 s) q1 (commodity a) b qb c1 cb1
              Hb Hq1b Hq1 eq_refl Hcb1 Hrb3 Hrb4)
    as (c' & m' & Hcomb & Hq' & Hp' & Hv' & Hr' & Hframe').
  { unfold c1. destruct (ref ca >? 1); exact Hpa. }
  { rewrite Hpb1. exact Hpb. }
  rewrite Hcomb. exists q1, c', (with_cells m' s).
  split; [reflexivity|]. split; [exact Hq'|].
  assert (Hv1 : val c1 = val ca) by (unfold c1; destruct (ref ca >? 1); reflexivity).
  assert (Hp1 : prec c1 = prec ca) by (unfold c1; destruct (ref ca >? 1); reflexivity).
  split; [rewrite Hp', Hp1, Hpb1; reflexivity|].
  split; [rewrite Hv'; unfold aligned; rewrite Hv1, Hp1, Hvb, Hpb1; reflexivity|].
  split; [exact Hr'|]. split; [exact Hnew|].
  split.
  { intros p Hp. rewrite <- (dup_frame qa ca s q1 m1 p Hca Hframe Hold Hp).
    apply payload_same_lookup. cbn. apply Hframe'. exact Hp. }
  split; [exact Hq1b|].
  exists cb1. cbn. rewrite Hframe' by congruence. cbn. auto.
Qed.

Lemma add_assign_value s a b qa qb ca cb :
  quantity a = Some qa -> cells s !! qa = Some ca ->
  quantity b = Some qb -> cells s !! qb = Some cb ->
  commodity a = commodity b ->
  1 <= ref ca < 4294967296 -> 1 <= ref cb -> ref cb + 1 < 4294967296 ->
  (qa = qb -> 2 <= ref ca) ->
  0 <= prec ca < 256 -> 0 <= prec cb < 256 ->
  exists q' c' s',
    add_assign a b s = Ok (Amount (Some q') (commodity a)) s' /\
    cells s' !! q' = Some c' /\
    prec c' = Z.max (prec ca) (prec cb) /\
    val c' = val ca * 10 ^ (Z.max (prec ca) (prec cb) - prec ca)
             + val cb * 10 ^ (Z.max (prec ca) (prec cb) - prec cb) /\
    (1 < ref ca -> q' <> qa) /\
    (forall p, p <> q' -> payload s' p = payload s p).
Proof.
  intros Ha Hca Hb Hcb Hk Hra Hrb1 Hrb2 Halias Hpa Hpb.
  destruct (dup_combine_value Z.add "Adding amounts with different commodities"
              s a b qa qb ca cb Ha Hca Hb Hcb Hk Hra Hrb1 Hrb2 Halias Hpa Hpb)
    as (q' & c' & s' & Hrun & Hq' & Hp' & Hv' & _ & Hnew & Hframe & _).
  exists q', c', s'. unfold add_assign. rewrite Ha, Hb. cbn [negb non_null].
  auto 10.
Qed.

Lemma sub_assign_value s a b qa qb ca cb :
  quantity a = Some qa -> cells s !! qa = Some ca ->
  quantity b = Some qb -> cells s !! qb = Some cb ->
  commodity a = commodity b ->
  1 <= ref ca < 4294967296 -> 1 <= ref cb -> ref cb + 1 < 4294967296 ->
  (qa = qb -> 2 <= ref ca) ->
  0 <= prec ca < 256 -> 0 <= prec cb < 256 ->
  exists q' c' s',
    sub_assign a b s = Ok (Amount (Some q') (commodity a)) s' /\
    cells s' !! q' = Some c' /\
    prec c' = Z.max (prec ca) (prec cb) /\
    val c' = val ca * 10 ^ (Z.max (prec ca) (prec cb) - prec ca)
             - val cb * 10 ^ (Z.max (prec ca) (prec cb) - prec cb) /\
    (1 < ref ca -> q' <> qa) /\
    (forall p, p <> q' -> payload s' p = payload s p).
Proof.
  intros Ha Hca Hb Hcb Hk Hra Hrb1 Hrb2 Halias Hpa Hpb.
  destruct (dup_combine_value Z.sub "Subtracting amounts with different commodities"
              s a b qa qb ca cb Ha Hca Hb Hcb Hk Hra Hrb1 Hrb2 Halias Hpa Hpb)
    as (q' & c' & s' & Hrun & Hq' & Hp' & Hv' & _ & Hnew & Hframe & _).
  exists q', c', s'. unfold sub_assign. rewrite Ha, Hb. cbn [negb non_null].
  auto 10.
Qed.

(** X5: For two present amounts of one commodity, += and -= leave the
    receiver at the larger of the two scales with the sum (difference) of
    the two magnitudes brought to that scale; a shared receiver cell is not
    written but replaced, and all other cells keep their numbers. *)
Theorem add_sub_assign_align_scales s a b qa qb ca cb :
  quantity a = Some qa -> cells s !! qa = Some ca ->
  quantity b = Some qb -> cells s !! qb = Some cb ->
  commodity a = commodity b ->
  1 <= ref ca < 4294967296 -> 1 <= ref cb -> ref cb + 1 < 4294967296 ->
  (qa = qb -> 2 <= ref ca) ->
  0 <= prec ca < 256 -> 0 <= prec cb < 256 ->
  (exists q' c' s',
     add_assign a b s = Ok (Amount (Some q') (commodity a)) s' /\
     cells s' !! q' = Some c' /\
     prec c' = Z.max (prec ca) (prec cb) /\
     val c' = val ca * 10 ^ (Z.max (prec ca) (prec cb) - prec ca)
              + val cb * 10 ^ (Z.max (prec ca) (prec cb) - prec cb) /\
     (1 < ref ca -> q' <> qa) /\
     (forall p, p <> q' -> payload s' p = payload s p)) /\
  (exists q' c' s',
     sub_assign a b s = Ok (Amount (Some q') (commodity a)) s' /\
     cells s' !! q' = Some c' /\
     prec c' = Z.max (prec ca) (prec cb) /\
     val c' = val ca * 10 ^ (Z.max (prec ca) (prec cb) - prec ca)
              - val cb * 10 ^ (Z.max (prec ca) (prec cb) - prec cb) /\
     (1 < ref ca -> q' <> qa) /\
     (forall p, p <> q' -> payload s' p = payload s p)).
Proof.
  intros. split; [apply (add_assign_value s a b qa qb ca cb)
                 |apply (sub_assign_value s a b qa qb ca cb)]; assumption.
Qed.

Lemma add_sub_assign_align_scales_witness :
  exists q' c' s',
    add_assign sample_ten sample_three sample_store
      = Ok (Amount (Some q') (Some 2%positive)) s' /\
    cells s' !! q' = Some c' /\ val c' = 13000 /\ prec c' = 3.
Proof.
  destruct (add_sub_assign_align_scales sample_store sample_ten sample_three
              2%positive 3%positive (Bigint 1000 2 0 1 0) (Bigint 3000 3 0 1 0))
    as [(q' & c' & s' & Hrun & Hc & Hp & Hv & _) _].
  - reflexivity.
  - reflexivity.
  - reflexivity.
  - reflexivity.
  - reflexivity.
  - simpl. lia.
  - simpl. lia.
  - simpl. lia.
  - intros H. discriminate H.
  - simpl. lia.
  - simpl. lia.
  - exists q', c', s'. split; [exact Hrun|]. split; [exact Hc|].
    split; [exact Hv|exact Hp].
Defined.

(** X6: For two present amounts of one commodity, a += b and b += a run from
    the same store give results standing for the same number (magnitude and
    scale). *)
Theorem add_assign_commutes s a b qa qb ca cb :
  quantity a = Some qa -> cells s !! qa = Some ca ->
  quantity b = Some qb -> cells s !! qb = Some cb ->
  commodity a = commodity b ->
  1 <= ref ca -> ref ca + 1 < 4294967296 ->
  1 <= ref cb -> ref cb + 1 < 4294967296 ->
  (qa = qb -> 2 <= ref ca) ->
  0 <= prec ca < 256 -> 0 <= prec cb < 256 ->
  exists q1 s1 q2 s2,
    add_assign a b s = Ok (Amount (Some q1) (commodity a)) s1 /\
    add_assign b a s = Ok (Amount (Some q2) (commodity b)) s2 /\
    is_Some (payload s1 q1) /\
    payload s1 q1 = payload s2 q2.
Proof.
  intros Ha Hca Hb Hcb Hk Hra1 Hra2 Hrb1 Hrb2 Halias Hpa Hpb.
  destruct (add_assign_value s a b qa qb ca cb) as
    (q1 & c1 & s1 & Hrun1 & Hq1 & Hp1 & Hv1 & _); auto; try lia.
  destruct (add_assign_value s b a qb qa cb ca) as
    (q2 & c2 & s2 & Hrun2 & Hq2 & Hp2 & Hv2 & _); auto; try lia.
  { intros ->. assert (ca = cb) by congruence. subst. auto. }
  exists q1, s1, q2, s2. split; [exact Hrun1|]. split; [exact Hrun2|].
  unfold payload. rewrite Hq1, Hq2. split; [eexists; reflexivity|].
  f_equal. f_equal; [|lia]. rewrite Hv1, Hv2, (Z.max_comm (prec cb)). lia.
Qed.

Lemma add_assign_commutes_witness :
  exists q1 s1 q2 s2,
    add_assign sample_ten sample_three sample_store
      = Ok (Amount (Some q1) (Some 2%positive)) s1 /\
    add_assign sample_three sample_ten sample_store
      = Ok (Amount (Some q2) (Some 2%positive)) s2 /\
    payload s1 q1 = payload s2 q2.
Proof.
  destruct (add_assign_commutes sample_store sample_ten sample_three
              2%positive 3%positive (Bigint 1000 2 0 1 0) (Bigint 3000 3 0 1 0))
    as (q1 & s1 & q2 & s2 & H1 & H2 & _ & H).
  - reflexivity.
  - reflexivity.
  - reflexivity.
  - reflexivity.
  - reflexivity.
  - simpl. lia.
  - simpl. lia.
  - simpl. lia.
  - simpl. lia.
  - intros Heq. discriminate Heq.
  - simpl. lia.
  - simpl. lia.
  - exists q1, s1, q2, s2. split; [exact H1|]. split; [exact H2|exact H].
Defined.

(** X7: Subtracting an amount from another handle on the same cell gives a
    present amount of magnitude zero at the scale of the cell, in a cell of
    its own; the shared cell keeps its number. *)
Theorem sub_assign_self_is_present_zero s a b q c :
  quantity a = Some q -> quantity b = Some q -> commodity a = commodity b ->
  cells s !! q = Some c -> 2 <= ref c -> ref c + 1 < 4294967296 ->
  0 <= prec c < 256 ->
  exists q' c' s',
    sub_assign a b s = Ok (Amount (Some q') (commodity a)) s' /\
    cells s' !! q' = Some c' /\ val c' = 0 /\ prec c' = prec c /\
    q' <> q /\ payload s' q = payload s q.
Proof.
  intros Ha Hb Hk Hc Hr1 Hr2 Hp.
  destruct (sub_assign_value s a b q q c c) as
    (q' & c' & s' & Hrun & Hq' & Hp' & Hv' & Hnew & Hframe); auto; try lia.
  exists q', c', s'. split; [exact Hrun|]. split; [exact Hq'|].
  split; [lia|]. split; [lia|].
  assert (q' <> q) by (apply Hnew; lia). split; [assumption|].
  apply Hframe. congruence.
Qed.

Lemma sub_assign_self_is_present_zero_witness :
  exists q' c' s',
    sub_assign sample_debt sample_debt sample_store
      = Ok (Amount (Some q') (Some 2%positive)) s' /\
    cells s' !! q' = Some c' /\ val c' = 0 /\ prec c' = 1.
Proof.
  destruct (sub_assign_self_is_present_zero sample_store sample_debt sample_debt
              4%positive (Bigint (-15) 1 0 2 0))
    as (q' & c' & s' & Hrun & Hc & Hv & Hp & _).
  - reflexivity.
  - reflexivity.
  - reflexivity.
  - reflexivity.
  - simpl. lia.
  - simpl. lia.
  - simpl. lia.
  - exists q', c', s'. split; [exact Hrun|]. split; [exact Hc|].
    split; [exact Hv|exact Hp].
Defined.

(** X8: += and -= with an absent right operand return the receiver and leave
    the store unchanged. An absent receiver += b becomes b, sharing its cell
    with one more reference; an absent receiver -= b gets a new heap cell
    holding the opposite of b at the scale of b, under the commodity of b. *)
Theorem absent_operand_is_additive_identity s a b :
  (quantity b = None ->
     add_assign a b s = Ok a s /\ sub_assign a b s = Ok a s) /\
  (forall qb cb,
     quantity a = None -> quantity b = Some qb -> cells s !! qb = Some cb ->
     add_assign a b s
       = Ok b (with_cells (<[qb := set_ref (uint (ref cb + 1)) cb]> (cells s)) s) /\
     exists q',
       sub_assign a b s
         = Ok (Amount (Some q') (commodity b))
              (with_cells (<[q' := Bigint (- val cb) (prec cb) 0 1 0]> (cells s)) s) /\
       cells s !! q' = None).
Proof.
  split.
  - intros Hb. unfold add_assign, sub_assign. rewrite Hb. split; reflexivity.
  - intros qb cb Ha Hb Hcb. split.
    + unfold add_assign. rewrite Ha, Hb. cbn [negb non_null].
      unfold _copy. rewrite Ha, Hb. rewrite decide_False by discriminate.
      cbn [non_null]. unfold bind at 1. unfold bind at 1. unfold ret at 1.
      cbv beta. norm. unfold bind at 1. cbn [deref ret]. unfold bind at 1.
      unfold update, bind, load, save. cbv beta. rewrite Hcb. unfold ret.
      destruct b as [bq bk]. simpl in Hb. subst bq. reflexivity.
    + unfold sub_assign. rewrite Ha, Hb. cbn [negb non_null].
      erewrite bind_get_eq by exact Hcb.
      unfold bind at 1. unfold new_bigint. cbv zeta.
      unfold bind at 1. unfold update, bind, load, save. cbv beta. norm.
      rewrite lookup_insert_eq. unfold ret.
      exists (heap_fresh s). split; [|apply heap_fresh_not_live].
      f_equal. unfold with_cells, set_cells. cbn. f_equal. apply insert_insert_eq.
Qed.

Lemma absent_operand_is_additive_identity_witness :
  add_assign sample_ten amount_absent sample_store = Ok sample_ten sample_store /\
  sub_assign sample_ten amount_absent sample_store = Ok sample_ten sample_store.
Proof.
  destruct (absent_operand_is_additive_identity sample_store sample_ten amount_absent)
    as [H _].
  apply H. reflexivity.
Defined.

(** After [_dup] the receiver holds a cell of its own with the same number,
    and the operand still finds its number in its cell. *)
Lemma dup_operands this amt qa qb ca cb s :
  quantity this = Some qa -> cells s !! qa = Some ca ->
  quantity amt = Some qb -> cells s !! qb = Some cb ->
  1 <= ref ca < 4294967296 -> 1 <= ref cb ->
  (qa = qb -> 2 <= ref ca) ->
  exists q1 c1 cb1 m1,
    _dup this s = Ok (Amount (Some q1) (commodity this)) (with_cells m1 s) /\
    m1 !! q1 = Some c1 /\ val c1 = val ca /\ prec c1 = prec ca /\ ref c1 = 1 /\
    q1 <> qb /\
    m1 !! qb = Some cb1 /\ val cb1 = val cb /\ prec cb1 = prec cb /\
    1 <= ref cb1 <= ref cb /\
    (1 < ref ca -> q1 <> qa) /\
    (forall p, p <> q1 -> payload (with_cells m1 s) p = payload s p).
Proof.
  intros Ha Hca Hb Hcb Hra Hrb Halias.
  destruct (dup_spec this qa ca s Ha Hca Hra) as (q1 & m1 & Hdup & Hq1 & Hframe & Hold & Hnew).
  assert (Hq1b : q1 <> qb).
  { intros ->. destruct (decide (qb = qa)) as [->|Hn].
    - apply (Hnew ltac:(specialize (Halias eq_refl); lia)). reflexivity.
    - destruct (Hold Hn) as (Hfresh & _). congruence. }
  exists q1, (set_ref 1 (if ref ca >? 1 then bigint_copy ca else ca)).
  assert (Hcb1 : exists cb1, m1 !! qb = Some cb1 /\ val cb1 = val cb /\
                   prec cb1 = prec cb /\ 1 <= ref cb1 <= ref cb).
  { destruct (decide (qb = qa)) as [->|Hn].
    - assert (cb = ca) by congruence. subst cb.
      destruct (Hold Hq1b) as (_ & _ & Hq). eexists. split; [exact Hq|].
      specialize (Halias eq_refl). cbn. repeat split; lia.
    - exists cb. rewrite Hframe by congruence. repeat split; auto; lia. }
  destruct Hcb1 as (cb1 & Hcb1 & Hvb & Hpb1 & Hrb3).
  exists cb1, m1. split; [exact Hdup|]. split; [exact Hq1|].
  split; [destruct (ref ca >? 1); reflexivity|].
  split; [destruct (ref ca >? 1); reflexivity|].
  split; [reflexivity|]. split; [exact Hq1b|]. split; [exact Hcb1|].
  split; [exact Hvb|]. split; [exact Hpb1|]. split; [exact Hrb3|].
  split; [exact Hnew|].
  intros p Hp. apply (dup_frame qa ca s q1 m1 p Hca Hframe Hold Hp).
Qed.

Lemma round_to_headroom_value q k o c m s :
  m !! q = Some c -> objects s !! k = Some o ->
  0 <= precision o -> precision o + 6 < 65536 ->
  exists c',
    round_to_headroom (Amount (Some q) (Some k)) (with_cells m s)
      = Ok (Amount (Some q) (Some k)) (with_cells (<[q := c']> m) s) /\
    (val c', prec c') = headroom (val c) (prec c) (precision o) /\
    ref c' = ref c.
Proof.
  intros Hq Ho Hn1 Hn2. unfold round_to_headroom. norm.
  erewrite bind_get_eq by (cbn; exact Hq).
  erewrite bind_load_commodity_eq by (cbn; exact Ho).
  rewrite uint_small by lia. unfold headroom.
  destruct (prec c >? precision o + 6) eqn:Hgt.
  - apply Z.gtb_lt in Hgt.
    erewrite bind_modify_eq by (cbn; exact Hq).
    erewrite bind_modify_eq by (cbn; apply lookup_insert_eq).
    rewrite ushort_small by lia.
    eexists. split.
    + unfold ret. f_equal. unfold with_cells, set_cells. cbn. f_equal.
      apply insert_insert_eq.
    + cbn. split; [|reflexivity]. f_equal.
      apply mpz_round_floor. lia.
  - exists c. split; [|split; reflexivity].
    unfold ret. f_equal. unfold with_cells, set_cells. cbn. f_equal.
    symmetry. apply insert_id. exact Hq.
Qed.

Lemma mul_assign_spec s a b qa qb ca cb k o :
  quantity a = Some qa -> cells s !! qa = Some ca ->
  quantity b = Some qb -> cells s !! qb = Some cb ->
  commodity a = Some k -> objects s !! k = Some o ->
  1 <= ref ca < 4294967296 -> 1 <= ref cb ->
  (qa = qb -> 2 <= ref ca) ->
  0 <= prec ca -> 0 <= prec cb -> prec ca + prec cb < 65536 ->
  0 <= precision o -> precision o + 6 < 65536 ->
  exists q' c' m',
    mul_assign a b s = Ok (Amount (Some q') (Some k)) (with_cells m' s) /\
    m' !! q' = Some c' /\
    (val c', prec c')
      = headroom (val ca * val cb) (prec ca + prec cb) (precision o) /\
    ref c' = 1 /\ q' <> qb /\
    (1 < ref ca -> q' <> qa) /\
    (forall p, p <> q' -> payload (with_cells m' s) p = payload s p).
Proof.
  intros Ha Hca Hb Hcb Hk Ho Hra Hrb Halias Hpa Hpb Hsum Hn1 Hn2.
  unfold mul_assign. rewrite Ha, Hb. cbn [negb non_null orb].
  destruct (dup_operands a b qa qb ca cb s Ha Hca Hb Hcb Hra Hrb Halias)
    as (q1 & c1 & cb1 & m1 & Hdup & Hq1 & Hv1 & Hp1 & Hr1 & Hne & Hqb & Hvb & Hpb1 & _ & Hnew & Hframe).
  unfold bind at 1. rewrite Hdup. cbv beta. norm.
  erewrite bind_get_eq by (cbn; exact Hq1).
  erewrite bind_get_eq by (cbn; exact Hqb).
  erewrite bind_modify_eq by (cbn; exact Hq1).
  erewrite bind_get_eq by (cbn; apply lookup_insert_eq).
  erewrite bind_get_eq by (cbn; rewrite lookup_insert_ne by congruence; exact Hqb).
  erewrite bind_modify_eq by (cbn; apply lookup_insert_eq).
  flat. rewrite Hk.
  edestruct (round_to_headroom_value q1 k o) as (c' & Hrun & Hval & Href);
    [apply lookup_insert_eq|exact Ho|exact Hn1|exact Hn2|].
  rewrite Hrun.
  eexists q1, c', _. split; [reflexivity|].
  split; [apply lookup_insert_eq|].
  split.
  { rewrite Hval. cbn [val prec set_val set_prec]. rewrite ushort_small by lia.
    rewrite Hv1, Hp1, Hvb, Hpb1. reflexivity. }
  split; [rewrite Href; cbn [ref set_val set_prec]; exact Hr1|].
  split; [exact Hne|]. split; [exact Hnew|].
  intros p Hp. rewrite <- (Hframe p Hp).
  apply payload_same_lookup. cbn. rewrite !lookup_insert_ne by congruence. reflexivity.
Qed.

Lemma mul_assign_value s a b qa qb ca cb k o :
  quantity a = Some qa -> cells s !! qa = Some ca ->
  quantity b = Some qb -> cells s !! qb = Some cb ->
  commodity a = Some k -> objects s !! k = Some o ->
  1 <= ref ca < 4294967296 -> 1 <= ref cb ->
  (qa = qb -> 2 <= ref ca) ->
  0 <= prec ca -> 0 <= prec cb -> prec ca + prec cb < 65536 ->
  0 <= precision o -> precision o + 6 < 65536 ->
  exists q' c' s',
    mul_assign a b s = Ok (Amount (Some q') (commodity a)) s' /\
    cells s' !! q' = Some c' /\
    (val c', prec c')
      = headroom (val ca * val cb) (prec ca + prec cb) (precision o) /\
    (1 < ref ca -> q' <> qa) /\
    (forall p, p <> q' -> payload s' p = payload s p).
Proof.
  intros Ha Hca Hb Hcb Hk Ho Hra Hrb Halias Hpa Hpb Hsum Hn1 Hn2.
  destruct (mul_assign_spec s a b qa qb ca cb k o) as
    (q' & c' & m' & Hrun & Hq' & Hval & _ & _ & Hnew & Hframe); try assumption.
  exists q', c', (with_cells m' s). rewrite Hk. auto 10.
Qed.

(** X9: For two present amounts, *= leaves the product of the magnitudes at
    the sum of the scales, rounded by mpz_round to commodity precision + 6
    when the scale exceeds it; a shared receiver cell is replaced, and all
    other cells keep their numbers. *)
Theorem mul_assign_multiplies s a b qa qb ca cb k o :
  quantity a = Some qa -> cells s !! qa = Some ca ->
  quantity b = Some qb -> cells s !! qb = Some cb ->
  commodity a = Some k -> objects s !! k = Some o ->
  1 <= ref ca < 4294967296 -> 1 <= ref cb ->
  (qa = qb -> 2 <= ref ca) ->
  0 <= prec ca -> 0 <= prec cb -> prec ca + prec cb < 65536 ->
  0 <= precision o -> precision o + 6 < 65536 ->
  exists q' c' s',
    mul_assign a b s = Ok (Amount (Some q') (commodity a)) s' /\
    cells s' !! q' = Some c' /\
    (val c', prec c')
      = headroom (val ca * val cb) (prec ca + prec cb) (precision o) /\
    (1 < ref ca -> q' <> qa) /\
    (forall p, p <> q' -> payload s' p = payload s p).
Proof. apply mul_assign_value. Qed.

Lemma mul_assign_multiplies_witness :
  exists q' c' s',
    mul_assign sample_ten sample_three sample_store
      = Ok (Amount (Some q') (Some 2%positive)) s' /\
    cells s' !! q' = Some c' /\ (val c', prec c') = (3000000, 5).
Proof.
  destruct (mul_assign_multiplies sample_store sample_ten sample_three
              2%positive 3%positive (Bigint 1000 2 0 1 0) (Bigint 3000 3 0 1 0)
              2%positive (Commodity "$" false 2 0 []))
    as (q' & c' & s' & Hrun & Hc & Hv & _).
  - reflexivity.
  - reflexivity.
  - reflexivity.
  - reflexivity.
  - reflexivity.
  - reflexivity.
  - simpl. lia.
  - simpl. lia.
  - intros Heq. discriminate Heq.
  - simpl. lia.
  - simpl. lia.
  - simpl. lia.
  - simpl. lia.
  - simpl. lia.
  - exists q', c', s'. split; [exact Hrun|]. split; [exact Hc|exact Hv].
Defined.

(** X10: Rescaling an amount to a larger scale with _resize and then back to
    its scale gives the magnitude and the scale it had. *)
Theorem resize_up_and_back_restores s a q c p :
  quantity a = Some q -> cells s !! q = Some c -> 1 <= ref c < 4294967296 ->
  0 <= prec c <= p -> p < 256 ->
  exists q' c' s',
    (let* up := _resize a p in _resize up (prec c)) s
      = Ok (Amount (Some q') (commodity a)) s' /\
    cells s' !! q' = Some c' /\ val c' = val c /\ prec c' = prec c.
Proof.
  intros Hq Hc Hr Hpc Hp.
  destruct (resize_spec a q c p s Hq Hc Hr ltac:(lia))
    as (q1 & c1 & m1 & Hres1 & Hq1 & Hp1 & Hv1 & Hr1 & _).
  unfold bind. rewrite Hres1.
  destruct (resize_spec (Amount (Some q1) (commodity a)) q1 c1 (prec c) (with_cells m1 s)
              eq_refl Hq1) as (q2 & c2 & m2 & Hres2 & Hq2 & Hp2 & Hv2 & _);
    [destruct (decide (q1 = q)); lia|lia|].
  rewrite Hres2. exists q2, c2, (with_cells m2 (with_cells m1 s)).
  split; [reflexivity|]. split; [exact Hq2|]. split; [|exact Hp2].
  rewrite Hv2. unfold rescaled at 1. rewrite Hp1, Hv1. unfold rescaled.
  rewrite (proj2 (Z.ltb_ge p (prec c))) by lia.
  destruct (prec c <? p) eqn:Hlt.
  - apply Z.quot_mul. apply Z.pow_nonzero; lia.
  - apply Z.ltb_ge in Hlt. replace (p - prec c) with 0 by lia.
    replace (prec c - p) with 0 by lia. cbn. lia.
Qed.

Lemma resize_up_and_back_restores_witness :
  exists q' c' s',
    (let* up := _resize sample_ten 5 in _resize up 2) sample_store
      = Ok (Amount (Some q') (Some 2%positive)) s' /\
    cells s' !! q' = Some c' /\ val c' = 1000 /\ prec c' = 2.
Proof.
  apply (resize_up_and_back_restores sample_store sample_ten 2%positive
           (Bigint 1000 2 0 1 0) 5).
  - reflexivity.
  - reflexivity.
  - simpl. lia.
  - simpl. lia.
  - lia.
Defined.

(** ** Comparison, truth value and rounding *)

Lemma destroy_unique q c k m s :
  m !! q = Some c -> ref c = 1 ->
  amount_destroy (Amount (Some q) k) (with_cells m s)
    = Ok tt (with_cells (delete q m) s).
Proof.
  intros Hq Hr. unfold amount_destroy. cbn [quantity non_null].
  erewrite (release_eq _ q c); [|reflexivity|exact Hq].
  unfold released. rewrite Hr. cbn [uint Z.sub Z.eqb Z.modulo Z.div_eucl Z.add Z.opp Z.pos_sub].
  change (uint (1 - 1) =? 0) with true. cbv iota.
  flat. f_equal. f_equal. apply delete_insert_eq.
Qed.

(** A temporary copy of [amt] brought to another scale: a new cell that
    nothing else holds; every other cell is as before. *)
Lemma resized_copy amt qb cb p s :
  quantity amt = Some qb -> cells s !! qb = Some cb ->
  1 <= ref cb -> ref cb + 1 < 4294967296 -> 0 <= p < 256 -> p <> prec cb ->
  exists q2 c2 m2,
    (let* temp := amount_copy amt in _resize temp p) s
      = Ok (Amount (Some q2) (commodity amt)) (with_cells m2 s) /\
    cells s !! q2 = None /\ m2 !! q2 = Some c2 /\
    prec c2 = p /\ val c2 = rescaled cb p /\ ref c2 = 1 /\
    (forall r, r <> q2 -> m2 !! r = cells s !! r).
Proof.
  intros Hb Hcb Hrb1 Hrb2 Hp Hne.
  unfold bind at 1. rewrite (amount_copy_eq amt qb cb s Hb Hcb). flat.
  set (cb1 := set_ref (uint (ref cb + 1)) cb).
  assert (Hcb1 : cells (with_cells (<[qb := cb1]> (cells s)) s) !! qb = Some cb1)
    by (cbn; apply lookup_insert_eq).
  assert (Hrcb1 : ref cb1 = ref cb + 1)
    by (unfold cb1; cbn [ref set_ref]; apply uint_succ; lia).
  destruct (resize_spec amt qb cb1 p _ Hb Hcb1 ltac:(lia) Hp)
    as (q2 & c2 & m2 & Hres & Hq2 & Hp2 & Hv2 & Hr2 & Hframe & Hold & Hnew).
  specialize (Hnew ltac:(lia) Hne).
  destruct (Hold Hnew) as (Hfresh & _ & Hqb).
  cbn in Hfresh. rewrite decide_False in Hr2 by exact Hnew.
  rewrite lookup_insert_ne in Hfresh by congruence.
  rewrite Hres. flat. exists q2, c2, m2. split; [reflexivity|].
  split; [exact Hfresh|]. split; [exact Hq2|]. split; [exact Hp2|].
  split; [exact Hv2|]. split; [exact Hr2|].
  intros r Hr. destruct (decide (r = qb)) as [->|Hrb].
  - rewrite Hqb, Hcb. f_equal. rewrite Hrcb1. unfold cb1.
    replace (ref cb + 1 - 1) with (ref cb) by lia. destruct cb; reflexivity.
  - rewrite Hframe by congruence. cbn. apply lookup_insert_ne. congruence.
Qed.

Lemma delete_temp_restores q2 m2 s :
  cells s !! q2 = None -> (forall r, r <> q2 -> m2 !! r = cells s !! r) ->
  with_cells (delete q2 m2) s = s.
Proof.
  intros Hfresh Hframe. rewrite <- (with_cells_id s) at 2. f_equal.
  apply map_eq. intros r. destruct (decide (r = q2)) as [->|Hr].
  - rewrite lookup_delete_eq. congruence.
  - rewrite lookup_delete_ne by congruence. auto.
Qed.

Lemma bind_assoc {A B C} (m : M A) (f : A -> M B) (g : B -> M C) s :
  bind m (fun x => bind (f x) g) s = bind (bind m f) g s.
Proof. unfold bind. destruct (m s); reflexivity. Qed.

Lemma holds_mpz_cmp op x y : holds op (mpz_cmp x y) 0 = holds op x y.
Proof.
  unfold holds, mpz_cmp. destruct op; destruct (Z.compare_spec x y); cbn; lia.
Qed.

Lemma cmp_amount_value op s a b qa qb ca cb :
  quantity a = Some qa -> cells s !! qa = Some ca ->
  quantity b = Some qb -> cells s !! qb = Some cb ->
  commodity a = commodity b \/ commodity a = null_commodity s
    \/ commodity b = null_commodity s ->
  1 <= ref ca -> ref ca + 1 < 4294967296 ->
  1 <= ref cb -> ref cb + 1 < 4294967296 ->
  0 <= prec ca < 256 -> 0 <= prec cb < 256 ->
  cmp_amount op a b s
    = Ok (holds op (val ca * 10 ^ (Z.max (prec ca) (prec cb) - prec ca))
                   (val cb * 10 ^ (Z.max (prec ca) (prec cb) - prec cb))) s.
Proof.
  intros Ha Hca Hb Hcb Hk Hra1 Hra2 Hrb1 Hrb2 Hpa Hpb.
  unfold cmp_amount. rewrite Ha, Hb. cbn [negb non_null].
  unfold bind at 1. unfold get_null_commodity.
  assert (Hcmp : negb (bool_decide (commodity a = commodity b)) &&
                 negb (bool_decide (commodity a = null_commodity s)) &&
                 negb (bool_decide (commodity b = null_commodity s)) = false).
  { destruct Hk as [Hk|[Hk|Hk]]; rewrite (bool_decide_eq_true_2 _ Hk); cbn;
      rewrite ?andb_false_r; reflexivity. }
  rewrite Hcmp.
  erewrite bind_get_eq by exact Hca. erewrite bind_get_eq by exact Hcb.
  destruct (prec ca =? prec cb) eqn:Heq; [|destruct (prec ca <? prec cb) eqn:Hlt].
  - apply Z.eqb_eq in Heq. rewrite holds_mpz_cmp.
    rewrite <- Heq, Z.max_id, Z.sub_diag. cbn [Z.pow]. rewrite !Z.mul_1_r. reflexivity.
  - apply Z.ltb_lt in Hlt.
    assert (Hab : qa <> qb) by (intros ->; assert (ca = cb) by congruence; subst; lia).
    destruct (resized_copy a qa ca (prec cb) s Ha Hca Hra1 Hra2 Hpb ltac:(lia))
      as (q2 & c2 & m2 & Hrun & Hfresh & Hq2 & Hp2 & Hv2 & Hr2 & Hframe).
    rewrite bind_assoc. unfold bind at 1. rewrite Hrun. cbv beta. norm.
    erewrite bind_get_eq by (cbn; exact Hq2).
    assert (q2 <> qb) by congruence.
    erewrite bind_get_eq by (cbn; rewrite Hframe by congruence; exact Hcb).
    unfold bind at 1. rewrite (destroy_unique q2 c2 _ m2 s Hq2 Hr2).
    rewrite (delete_temp_restores q2 m2 s Hfresh Hframe).
    unfold ret. rewrite holds_mpz_cmp, Hv2. unfold rescaled.
    rewrite (proj2 (Z.ltb_ge (prec cb) (prec ca))) by lia.
    rewrite Z.max_r by lia. rewrite Z.sub_diag. cbn [Z.pow]. rewrite Z.mul_1_r.
    reflexivity.
  - apply Z.ltb_ge in Hlt. apply Z.eqb_neq in Heq.
    assert (Hab : qa <> qb) by (intros ->; assert (ca = cb) by congruence; subst; lia).
    destruct (resized_copy b qb cb (prec ca) s Hb Hcb Hrb1 Hrb2 Hpa ltac:(lia))
      as (q2 & c2 & m2 & Hrun & Hfresh & Hq2 & Hp2 & Hv2 & Hr2 & Hframe).
    rewrite bind_assoc. unfold bind at 1. rewrite Hrun. cbv beta. norm.
    assert (q2 <> qa) by congruence.
    erewrite bind_get_eq by (cbn; rewrite Hframe by congruence; exact Hca).
    erewrite bind_get_eq by (cbn; exact Hq2).
    unfold bind at 1. rewrite (destroy_unique q2 c2 _ m2 s Hq2 Hr2).
    rewrite (delete_temp_restores q2 m2 s Hfresh Hframe).
    unfold ret. rewrite holds_mpz_cmp, Hv2. unfold rescaled.
    rewrite (proj2 (Z.ltb_ge (prec ca) (prec cb))) by lia.
    rewrite Z.max_l by lia. rewrite Z.sub_diag. cbn [Z.pow]. rewrite Z.mul_1_r.
    reflexivity.
Qed.

Lemma to_bool_value s a q c k o :
  quantity a = Some q -> cells s !! q = Some c ->
  commodity a = Some k -> objects s !! k = Some o ->
  to_bool a s
    = Ok (negb (Z.abs (val c) <? 10 ^ Z.max 0 (prec c - precision o))) s.
Proof.
  intros Hq Hc Hk Ho. unfold to_bool. rewrite Hq, Hk. cbn [negb non_null].
  erewrite bind_get_eq by exact Hc.
  erewrite bind_load_commodity_eq by exact Ho.
  unfold ret, mpz_sgn, mpz_ui_pow_ui.
  destruct (prec c <=? precision o) eqn:Hle.
  - apply Z.leb_le in Hle. rewrite Z.max_l by lia. change (10 ^ 0) with 1.
    f_equal. f_equal.
    destruct (Z.sgn (val c) =? 0) eqn:E1; destruct (Z.abs (val c) <? 1) eqn:E2;
      try reflexivity;
      [apply Z.eqb_eq in E1; apply Z.ltb_ge in E2|apply Z.eqb_neq in E1; apply Z.ltb_lt in E2];
      lia.
  - apply Z.leb_gt in Hle. rewrite Z.max_r by lia.
    f_equal. f_equal.
    assert (Hd : 0 < 10 ^ (prec c - precision o)) by (apply Z.pow_pos_nonneg; lia).
    set (d := 10 ^ (prec c - precision o)) in *.
    destruct (Z.abs (val c) <? d) eqn:Hlt.
    + apply Z.ltb_lt in Hlt. rewrite (proj2 (Z.quot_small_iff (val c) d ltac:(lia))) by lia.
      reflexivity.
    + apply Z.ltb_ge in Hlt. apply Z.eqb_neq. intros Hz.
      assert (Hq0 : Z.quot (val c) d = 0) by lia.
      apply (Z.quot_small_iff (val c) d ltac:(lia)) in Hq0. lia.
Qed.

(** X11: operator bool of a present amount is true exactly when the absolute
    magnitude is at least 10^max(0, scale - precision of the commodity),
    that is when the amount truncated to the precision of its commodity is
    not zero; the store is unchanged. *)
Theorem to_bool_tests_displayed_magnitude s a q c k o :
  quantity a = Some q -> cells s !! q = Some c ->
  commodity a = Some k -> objects s !! k = Some o ->
  to_bool a s
    = Ok (negb (Z.abs (val c) <? 10 ^ Z.max 0 (prec c - precision o))) s.
Proof. apply to_bool_value. Qed.

Lemma to_bool_tests_displayed_magnitude_witness :
  to_bool sample_three sample_store = Ok true sample_store.
Proof.
  apply (to_bool_tests_displayed_magnitude sample_store sample_three 3%positive
           (Bigint 3000 3 0 1 0) 2%positive (Commodity "$" false 2 0 [])).
  - reflexivity.
  - reflexivity.
  - reflexivity.
  - reflexivity.
Defined.

Lemma round_value s a q c p :
  quantity a = Some q -> cells s !! q = Some c ->
  1 <= ref c -> ref c + 1 < 4294967296 ->
  (prec c <= p ->
     round a p s = Ok a (with_cells (<[q := set_ref (ref c + 1) c]> (cells s)) s)) /\
  (0 <= p < prec c -> p < 65536 ->
     exists q',
       cells s !! q' = None /\
       round a p s
         = Ok (Amount (Some q') (commodity a))
              (with_cells
                 (<[q' := Bigint ((val c + 5 * 10 ^ (prec c - p - 1)) / 10 ^ (prec c - p))
                                 p 0 1 0]> (cells s)) s)).
Proof.
  intros Hq Hc Hr1 Hr2. split.
  - intros Hle. unfold round. rewrite Hq. unfold bind. rewrite (load_eq _ _ _ Hc).
    rewrite (proj2 (Z.leb_le _ _) Hle).
    rewrite (amount_copy_eq a q c s Hq Hc). rewrite uint_succ by lia. reflexivity.
  - intros Hp Hp'. unfold round. rewrite Hq. unfold bind at 1. rewrite (load_eq _ _ _ Hc).
    rewrite (proj2 (Z.leb_gt _ _)) by lia.
    unfold bind at 1. rewrite (amount_copy_eq a q c s Hq Hc). flat.
    rewrite uint_succ by lia.
    set (c1 := set_ref (ref c + 1) c).
    unfold bind at 1.
    erewrite (dup_eq a q c1); [|exact Hq|cbn; apply lookup_insert_eq].
    replace (ref c1 >? 1) with true by (symmetry; apply Z.gtb_lt; cbn; lia).
    set (s1 := with_cells (<[q:=c1]> (cells s)) s).
    assert (Hf : heap_fresh s1 = heap_fresh s).
    { unfold heap_fresh, s1. cbn. f_equal.
      rewrite dom_insert_L.
      assert (Hin : q ∈ dom (cells s)) by (apply elem_of_dom; eauto).
      rewrite (subseteq_union_1_L {[q]} (dom (cells s))); [reflexivity|].
      apply singleton_subseteq_l. exact Hin. }
    rewrite Hf. pose proof (heap_fresh_ne s q c Hc) as Hne.
    exists (heap_fresh s). split; [apply heap_fresh_not_live|].
    unfold s1. flat. norm.
    erewrite bind_get_eq
      by (cbn; rewrite lookup_released_ne by congruence; apply lookup_insert_eq).
    erewrite bind_modify_eq
      by (cbn; rewrite lookup_released_ne by congruence; apply lookup_insert_eq).
    erewrite bind_modify_eq by (cbn; apply lookup_insert_eq).
    unfold ret. flat. f_equal. f_equal.
    rewrite ushort_small by lia.
    cbn [bigint_copy set_val set_prec val prec flags ref index c1 set_ref].
    rewrite mpz_round_floor by lia.
    subst c1.
    apply map_eq. intros r. destruct (decide (r = heap_fresh s)) as [->|Hr].
    { rewrite !lookup_insert_eq. reflexivity. }
    rewrite !(lookup_insert_ne _ (heap_fresh s)) by congruence.
    destruct (decide (r = q)) as [->|Hrq].
    + rewrite lookup_released_eq by (cbn [ref set_ref]; rewrite uint_pred; lia).
      cbn [ref set_ref]. rewrite uint_pred by lia. rewrite Hc. f_equal.
      replace (ref c + 1 - 1) with (ref c) by lia. destruct c; reflexivity.
    + rewrite lookup_released_ne by congruence.
      rewrite !lookup_insert_ne by congruence. reflexivity.
Qed.

(** X12: round(p) returns the amount itself, sharing its cell with one more
    reference, when its scale is at most p; otherwise it returns an amount
    in a new cell holding floor((magnitude + 5*10^(k-1)) / 10^k) at scale p,
    k being scale - p, and the original cell is as before. *)
Theorem round_makes_rounded_copy s a q c p :
  quantity a = Some q -> cells s !! q = Some c ->
  1 <= ref c -> ref c + 1 < 4294967296 ->
  (prec c <= p ->
     round a p s = Ok a (with_cells (<[q := set_ref (ref c + 1) c]> (cells s)) s)) /\
  (0 <= p < prec c -> p < 65536 ->
     exists q',
       cells s !! q' = None /\
       round a p s
         = Ok (Amount (Some q') (commodity a))
              (with_cells
                 (<[q' := Bigint ((val c + 5 * 10 ^ (prec c - p - 1)) / 10 ^ (prec c - p))
                                 p 0 1 0]> (cells s)) s)).
Proof. apply round_value. Qed.

Lemma round_makes_rounded_copy_witness :
  exists q',
    cells sample_store !! q' = None /\
    round sample_three 2 sample_store
      = Ok (Amount (Some q') (Some 2%positive))
           (with_cells (<[q' := Bigint 300 2 0 1 0]> (cells sample_store))
              sample_store).
Proof.
  destruct (round_makes_rounded_copy sample_store sample_three 3%positive
              (Bigint 3000 3 0 1 0) 2) as [_ H].
  - reflexivity.
  - reflexivity.
  - simpl. lia.
  - simpl. lia.
  - apply H; simpl; lia.
Defined.

(** X13: Comparing two present amounts whose commodities agree, or one of
    which has the null commodity, compares the two magnitudes brought to the
    larger of the two scales, and leaves the store unchanged although
    temporaries are made. *)
Theorem cmp_amount_compares_aligned_magnitudes op s a b qa qb ca cb :
  quantity a = Some qa -> cells s !! qa = Some ca ->
  quantity b = Some qb -> cells s !! qb = Some cb ->
  commodity a = commodity b \/ commodity a = null_commodity s
    \/ commodity b = null_commodity s ->
  1 <= ref ca -> ref ca + 1 < 4294967296 ->
  1 <= ref cb -> ref cb + 1 < 4294967296 ->
  0 <= prec ca < 256 -> 0 <= prec cb < 256 ->
  cmp_amount op a b s
    = Ok (holds op (val ca * 10 ^ (Z.max (prec ca) (prec cb) - prec ca))
                   (val cb * 10 ^ (Z.max (prec ca) (prec cb) - prec cb))) s.
Proof. apply cmp_amount_value. Qed.

Lemma cmp_amount_compares_aligned_magnitudes_witness :
  cmp_amount OpLt sample_three sample_ten sample_store = Ok true sample_store.
Proof.
  apply (cmp_amount_compares_aligned_magnitudes OpLt sample_store sample_three
           sample_ten 3%positive 2%positive (Bigint 3000 3 0 1 0) (Bigint 1000 2 0 1 0)).
  - reflexivity.
  - reflexivity.
  - reflexivity.
  - reflexivity.
  - left. reflexivity.
  - simpl. lia.
  - simpl. lia.
  - simpl. lia.
  - simpl. lia.
  - simpl. lia.
  - simpl. lia.
Defined.

(** What [parse_num] leaves: a new cell of magnitude 0 at scale 0 under the
    commodity registered for the empty symbol. *)
Lemma parse_num_eq s k o num :
  commodities s !! EmptyString = Some k -> objects s !! k = Some o ->
  0 <= precision o ->
  parse_num amount_absent num s
    = Ok (Amount (Some (heap_fresh s)) (Some k))
         (with_cells (<[heap_fresh s := bigint_new]> (cells s)) s).
Proof.
  intros Hk Ho Hn. unfold parse_num, parse_string, parse.
  unfold bind at 1. unfold bind at 1. cbn [_init amount_absent quantity].
  unfold bind at 1. unfold new_bigint. cbv zeta. unfold ret at 1.
  cbv beta. norm.
  change (parse_tokens (istringstream EmptyString))
    with (Some (EmptyString, EmptyString, 0, Istream EmptyString true)).
  cbv iota beta. cbn [rfind String.length Z.of_nat].
  cbv iota beta.
  erewrite bind_modify_eq by (cbn; apply lookup_insert_eq).
  unfold bind at 1. unfold find_commodity. norm. rewrite Hk.
  erewrite bind_load_commodity_eq by (cbn; exact Ho).
  unfold bind at 1. cbn [deref ret]. unfold bind at 1. unfold save_commodity.
  erewrite bind_load_commodity_eq by (cbn; apply lookup_insert_eq).
  erewrite bind_get_eq by (cbn; apply lookup_insert_eq).
  cbn [prec set_prec bigint_new precision set_c_flags].
  rewrite Z.gtb_ltb.
  rewrite (proj2 (Z.ltb_ge (precision o) 0)) by lia.
  unfold bind at 1. unfold ret at 1. cbn [is_Some_b orb].
  unfold bind at 1. unfold ret at 1. cbn [mpz_set_str].
  unfold bind at 1. unfold ret at 1. unfold ret. cbn [fst].
  f_equal. unfold with_cells, set_cells, set_objects. cbn.
  rewrite insert_insert_eq. f_equal.
  rewrite Z.lor_0_r. apply insert_id. rewrite Ho. destruct o; reflexivity.
Qed.

(** X14: Comparing an amount with an integer other than 0 does not use the
    integer: parse_num parses the empty string, which gives 0, so a present
    amount is compared with zero and an absent one gives false; the store is
    left unchanged. *)
Theorem cmp_int_compares_with_zero op s a k o num :
  num <> 0 ->
  commodities s !! EmptyString = Some k -> null_commodity s = Some k ->
  objects s !! k = Some o -> 0 <= precision o ->
  (quantity a = None -> cmp_int op a num s = Ok false s) /\
  (forall q c,
     quantity a = Some q -> cells s !! q = Some c ->
     1 <= ref c -> ref c + 1 < 4294967296 -> 0 <= prec c < 256 ->
     cmp_int op a num s = Ok (holds op (val c) 0) s).
Proof.
  intros Hnum Hk Hnull Ho Hn.
  assert (Hz : (num =? 0) = false) by (apply Z.eqb_neq; exact Hnum).
  pose proof (heap_fresh_not_live s) as Hfresh.
  assert (Hback : with_cells (delete (heap_fresh s)
                    (<[heap_fresh s := bigint_new]> (cells s))) s = s).
  { rewrite delete_insert_id by exact Hfresh. apply with_cells_id. }
  split.
  - intros Ha. unfold cmp_int. rewrite Hz. cbv zeta.
    unfold bind at 1. rewrite (parse_num_eq s k o num Hk Ho Hn).
    unfold cmp_amount. rewrite Ha. cbn [negb non_null].
    unfold bind at 1. unfold cmp_zero. norm.
    unfold bind at 1. rewrite (load_eq _ (heap_fresh s) bigint_new)
      by (cbn; apply lookup_insert_eq).
    unfold ret at 1. unfold bind at 1.
    rewrite (destroy_unique _ bigint_new) by (try apply lookup_insert_eq; reflexivity).
    rewrite Hback. reflexivity.
  - intros q c Ha Hc Hr1 Hr2 Hp. unfold cmp_int. rewrite Hz. cbv zeta.
    unfold bind at 1. rewrite (parse_num_eq s k o num Hk Ho Hn).
    pose proof (heap_fresh_ne s q c Hc) as Hne.
    unfold bind at 1.
    erewrite (cmp_amount_value op _ a _ q (heap_fresh s) c bigint_new);
      [|exact Ha|cbn; rewrite lookup_insert_ne by congruence; exact Hc
       |reflexivity|cbn; apply lookup_insert_eq
       |right; right; cbn; congruence
       |try exact Hr1; try exact Hr2; cbn; lia..].
    unfold bind at 1.
    rewrite (destroy_unique _ bigint_new) by (try apply lookup_insert_eq; reflexivity).
    rewrite Hback. unfold ret. f_equal. cbn [prec val bigint_new].
    rewrite Z.max_l by lia. rewrite Z.sub_diag. cbn [Z.pow Z.mul].
    rewrite Z.mul_1_r. reflexivity.
Qed.

Lemma cmp_int_compares_with_zero_witness :
  cmp_int OpLt sample_ten 20 sample_store = Ok false sample_store.
Proof.
  destruct (cmp_int_compares_with_zero OpLt sample_store sample_ten 1%positive
              (Commodity "" false 0 0 []) 20) as [_ H].
  - lia.
  - reflexivity.
  - reflexivity.
  - reflexivity.
  - simpl. lia.
  - apply (H 2%positive (Bigint 1000 2 0 1 0)).
    + reflexivity.
    + reflexivity.
    + simpl. lia.
    + simpl. lia.
    + simpl. lia.
Defined.

(** ** The commodity registry *)

Lemma has_flag_lor fl extra bit :
  has_flag fl bit = true -> has_flag (Z.lor fl extra) bit = true.
Proof.
  unfold has_flag. rewrite !negb_true_iff, !Z.eqb_neq.
  intros H Hz. apply H. rewrite Z.land_lor_distr_l in Hz.
  apply Z.lor_eq_0_iff in Hz. tauto.
Qed.

Lemma style_grew_refl o : style_grew o o.
Proof. unfold style_grew. repeat split; auto; lia. Qed.

Lemma style_grew_trans o1 o2 o3 :
  style_grew o1 o2 -> style_grew o2 o3 -> style_grew o1 o3.
Proof.
  intros (? & ? & ? & ? & ?) (? & ? & ? & ? & ?).
  unfold style_grew. repeat split; try congruence; try lia; auto.
Qed.

Lemma release_registry this s u s' :
  _release this s = Ok u s' ->
  objects s' = objects s /\ commodities s' = commodities s.
Proof.
  intros H. apply release_ok in H as (q & c & _ & _ & ->). split; reflexivity.
Qed.

Lemma init_registry this s this' s' :
  _init this s = Ok this' s' ->
  (exists q', this' = Amount (Some q') (commodity this)) /\
  objects s' = objects s /\ commodities s' = commodities s.
Proof.
  intros H. unfold _init in H. destruct (quantity this) as [q0|] eqn:Hq0.
  - apply bind_ok in H as (c & s1 & H1 & H). apply load_ok in H1 as [-> Hc].
    destruct (ref c >? 1).
    + apply bind_ok in H as ([] & s1 & H1 & H).
      apply bind_ok in H as (q & s2 & H2 & H). apply ret_ok in H as [-> ->].
      apply release_registry in H1 as [Ho Hc1].
      injection H2 as <- <-. split; [eexists; reflexivity|]. split; assumption.
    + apply ret_ok in H as [-> ->]. split; [|split; reflexivity].
      exists q0. destruct this; simpl in *; congruence.
  - apply bind_ok in H as (q & s2 & H2 & H). apply ret_ok in H as [-> ->].
    injection H2 as <- <-. split; [eexists; reflexivity|]. split; reflexivity.
Qed.

Lemma find_commodity_spec sym s r s' :
  registry_ok s ->
  find_commodity sym true s = Ok r s' ->
  exists k o, r = Some k /\ objects s' !! k = Some o /\ symbol o = sym /\
    cells s' = cells s /\
    (forall sym' k', commodities s !! sym' = Some k' -> commodities s' !! sym' = Some k') /\
    (forall k' o', objects s !! k' = Some o' -> objects s' !! k' = Some o') /\
    registry_ok s'.
Proof.
  intros Hreg. unfold find_commodity.
  destruct (commodities s !! sym) as [k|] eqn:Hsym.
  - intros [= <- <-]. destruct (Hreg _ _ Hsym) as (o & Ho & Hs).
    exists k, o. auto 10.
  - intros [= <- <-]. unfold new_commodity, add_commodity, bind, ret. cbv zeta beta. norm.
    set (k := fresh (dom (objects s))).
    assert (Hk : objects s !! k = None).
    { apply not_elem_of_dom. apply is_fresh. }
    exists k, (commodity_new sym). split; [reflexivity|].
    split; [apply lookup_insert_eq|]. split; [reflexivity|]. split; [reflexivity|].
    split; [|split].
    + intros sym' k' H. rewrite lookup_insert_ne; [exact H|congruence].
    + intros k' o' H. rewrite lookup_insert_ne; [exact H|congruence].
    + intros sym' k' H. norm.
      cbn [commodities objects set_commodities set_objects] in H.
      destruct (decide (sym' = sym)) as [->|Hne].
      * rewrite lookup_insert_eq in H. injection H as <-.
        exists (commodity_new sym). split; [apply lookup_insert_eq|reflexivity].
      * rewrite lookup_insert_ne in H by congruence.
        destruct (Hreg _ _ H) as (o & Ho & Hs). exists o. split; [|exact Hs].
        rewrite lookup_insert_ne; [exact Ho|congruence].
Qed.

(** Replacing a commodity by one of the same symbol keeps the table sound. *)
Lemma registry_ok_insert s k o o' :
  registry_ok s -> objects s !! k = Some o -> symbol o' = symbol o ->
  registry_ok (set_objects <[k := o']> s).
Proof.
  intros Hreg Ho Hs sym k' H. cbn in H. destruct (Hreg _ _ H) as (o1 & Ho1 & Hs1).
  cbn. destruct (decide (k' = k)) as [->|Hne].
  - exists o'. rewrite lookup_insert_eq. split; [reflexivity|]. congruence.
  - exists o1. rewrite lookup_insert_ne by congruence. auto.
Qed.

Lemma parse_registry this i s a i' s' :
  registry_ok s ->
  parse this i s = Ok (a, i') s' ->
  registry_ok s' /\
  (forall sym k, commodities s !! sym = Some k -> commodities s' !! sym = Some k) /\
  (forall k o, objects s !! k = Some o ->
     exists o', objects s' !! k = Some o' /\ style_grew o o' /\
                (commodity a <> Some k -> o' = o)) /\
  exists q c k o,
    a = Amount (Some q) (Some k) /\ cells s' !! q = Some c /\
    objects s' !! k = Some o /\ prec c <= precision o.
Proof.
  intros Hreg H. unfold parse in H.
  apply bind_ok in H as (this1 & s1 & H1 & H).
  apply init_registry in H1 as ([q ->] & Ho1 & Hc1).
  assert (Hreg1 : registry_ok s1).
  { intros sym k. rewrite Hc1, Ho1. apply Hreg. }
  destruct (parse_tokens i) as [[[[sym quant] fl] i1]|]; [|discriminate].
  match type of H with
  | context [let '(_, _) := ?X in _] => destruct X as [fl' prec']
  end.
  apply bind_ok in H as ([] & s2 & H2 & H).
  apply modify_ok in H2 as (q2 & c2 & [= <-] & Hq2 & ->).
  apply bind_ok in H as (found & s3 & H3 & H).
  apply find_commodity_spec in H3 as (k & o & -> & Ho & Hsym & Hcells3 & Hkeep3 & Hobj3 & Hreg3);
    [|exact Hreg1].
  cbn [cells set_cells commodities objects] in Hcells3, Hkeep3, Hobj3.
  unfold with_commodity in H. cbn [quantity commodity] in H.
  apply bind_ok in H as (o1 & s4 & H4 & H).
  pose proof H4 as H4'. apply load_commodity_ok in H4' as ->.
  unfold load_commodity in H4. rewrite Ho in H4. injection H4 as <-.
  apply bind_ok in H as (k' & s4 & [= <- <-] & H).
  apply bind_ok in H as ([] & s4 & H4 & H). injection H4 as <-.
  set (o2 := set_c_flags (Z.lor (c_flags o) fl') o) in *.
  apply bind_ok in H as (o3 & s5 & H5 & H).
  pose proof H5 as H5'. apply load_commodity_ok in H5' as ->.
  unfold load_commodity in H5. cbn [objects set_objects] in H5.
  rewrite lookup_insert_eq in H5. injection H5 as <-.
  apply bind_ok in H as (c4 & s5 & H5 & H).
  apply get_ok in H5 as (-> & q5 & [= <-] & Hq5).
  cbn [cells set_objects] in Hq5. rewrite Hcells3 in Hq5. cbn [cells set_cells] in Hq5.
  rewrite lookup_insert_eq in Hq5. injection Hq5 as <-.
  cbn [prec set_prec precision o2 set_c_flags] in H.
  apply bind_ok in H as ([] & s5 & H5 & H).
  set (o4 := if prec' >? precision o then set_precision prec' o2 else o2).
  assert (Hs5 : s5 = set_objects <[k := o4]> s3).
  { unfold o4. destruct (prec' >? precision o).
    - injection H5 as <-. destruct s3. unfold set_objects. cbn. f_equal.
      apply insert_insert_eq.
    - apply ret_ok in H5 as [_ ->]. reflexivity. }
  clear H5. subst s5.
  apply bind_ok in H as (buf & s6 & H6 & H).
  assert (s6 = set_objects <[k := o4]> s3) as ->.
  { destruct (_ || _).
    - destruct (strip_separators quant); [|discriminate].
      apply ret_ok in H6 as [_ ->]. reflexivity.
    - apply ret_ok in H6 as [_ ->]. reflexivity. }
  apply bind_ok in H as ([] & s7 & H7 & H). apply ret_ok in H as [[= -> ->] ->].
  assert (Hgrew : style_grew o o4).
  { unfold o4, o2, style_grew.
    destruct (prec' >? precision o) eqn:Hgt; cbn;
      repeat split; auto using has_flag_lor; try lia. }
  assert (Hprec : prec' <= precision o4).
  { unfold o4, o2. destruct (prec' >? precision o) eqn:Hgt; cbn; [lia|].
    rewrite Z.gtb_ltb in Hgt. apply Z.ltb_ge in Hgt. exact Hgt. }
  assert (H7' : objects s7 = <[k := o4]> (objects s3) /\
                commodities s7 = commodities s3 /\
                exists c, cells s7 !! q = Some c /\ prec c = prec').
  { destruct (mpz_set_str buf).
    - apply modify_ok in H7 as (q7 & c7 & [= <-] & Hq7 & ->).
      cbn. split; [reflexivity|]. split; [reflexivity|].
      eexists. rewrite lookup_insert_eq. split; [reflexivity|].
      cbn in Hq7. rewrite Hcells3 in Hq7. cbn in Hq7.
      rewrite lookup_insert_eq in Hq7. injection Hq7 as <-. reflexivity.
    - apply ret_ok in H7 as [_ ->]. cbn. split; [reflexivity|]. split; [reflexivity|].
      rewrite Hcells3. cbn. eexists. rewrite lookup_insert_eq. split; reflexivity. }
  destruct H7' as (Hobj7 & Hcom7 & c7 & Hc7 & Hp7).
  split; [|split; [|split]].
  - intros sym' k' Hk'. rewrite Hcom7 in Hk'. destruct (Hreg3 _ _ Hk') as (o' & Ho' & Hs').
    rewrite Hobj7. destruct (decide (k' = k)) as [->|Hne].
    + exists o4. rewrite lookup_insert_eq. split; [reflexivity|].
      destruct Hgrew as (Hs4 & _). congruence.
    + exists o'. rewrite lookup_insert_ne by congruence. auto.
  - intros sym' k' Hk'. rewrite Hcom7. apply Hkeep3. rewrite Hc1. exact Hk'.
  - intros k' o' Hk'. rewrite Hobj7. destruct (decide (k' = k)) as [->|Hne].
    + rewrite <- Ho1 in Hk'. apply Hobj3 in Hk'. assert (o' = o) by congruence. subst o'.
      exists o4. rewrite lookup_insert_eq. split; [reflexivity|].
      split; [exact Hgrew|]. cbn. congruence.
    + exists o'. rewrite lookup_insert_ne by congruence.
      split; [apply Hobj3; rewrite Ho1; exact Hk'|].
      split; [apply style_grew_refl|reflexivity].
  - exists q, c7, k, o4. split; [reflexivity|]. split; [exact Hc7|].
    split; [rewrite Hobj7; apply lookup_insert_eq|]. lia.
Qed.

(** X15: In a sound symbol table, find_commodity without auto_create returns
    NULL for an unknown symbol and changes nothing; with auto_create it
    returns a commodity, keeps the cells and the soundness of the table,
    repeated lookups of the symbol (with or without auto_create) then return
    the same commodity and change nothing, and no other symbol leads to that
    commodity. *)
Theorem find_commodity_interns sym s :
  registry_ok s ->
  (commodities s !! sym = None -> find_commodity sym false s = Ok None s) /\
  exists k s',
    find_commodity sym true s = Ok (Some k) s' /\
    cells s' = cells s /\ registry_ok s' /\
    find_commodity sym true s' = Ok (Some k) s' /\
    find_commodity sym false s' = Ok (Some k) s' /\
    (forall sym' k', sym' <> sym -> commodities s' !! sym' = Some k' -> k' <> k).
Proof.
  intros Hreg. split.
  - intros Hnone. unfold find_commodity. rewrite Hnone. reflexivity.
  - destruct (find_commodity sym true s) as [r s'| |] eqn:Hfind.
    + pose proof Hfind as Hspec.
      apply find_commodity_spec in Hspec
        as (k & o & -> & Ho & Hsym & Hcells & _ & _ & Hreg'); [|exact Hreg].
      assert (Hk : commodities s' !! sym = Some k).
      { unfold find_commodity in Hfind.
        destruct (commodities s !! sym) as [k0|] eqn:Hs.
        - injection Hfind as <- <-. exact Hs.
        - injection Hfind as <- <-. cbn [commodities set_commodities].
          apply lookup_insert_eq. }
      exists k, s'. split; [reflexivity|]. split; [exact Hcells|].
      split; [exact Hreg'|].
      split; [unfold find_commodity; rewrite Hk; reflexivity|].
      split; [unfold find_commodity; rewrite Hk; reflexivity|].
      intros sym' k' Hne Hk' ->.
      destruct (Hreg' _ _ Hk') as (o' & Ho' & Hs'). congruence.
    + unfold find_commodity in Hfind.
      destruct (commodities s !! sym); discriminate.
    + unfold find_commodity in Hfind.
      destruct (commodities s !! sym); discriminate.
Qed.

Lemma find_commodity_interns_witness :
  exists k s',
    find_commodity "EUR" true sample_store = Ok (Some k) s' /\
    find_commodity "EUR" false s' = Ok (Some k) s' /\
    commodities s' !! "$" <> Some k.
Proof.
  destruct (find_commodity_interns "EUR" sample_store) as [_ H].
  - apply (bool_decide_unpack _). vm_compute. reflexivity.
  - destruct H as (k & s' & Hfind & _ & _ & _ & Hagain & Hother).
    exists k, s'. split; [exact Hfind|]. split; [exact Hagain|].
    intros Hk. apply (Hother "$" k); [discriminate|exact Hk|reflexivity].
Defined.

(** X16: A parse that succeeds keeps the symbol table sound and every
    registered symbol at its commodity; it changes no commodity but the one
    of the parsed amount, and that one only by setting style flags and
    raising the precision; the amount parsed is present, under a live
    commodity whose precision is at least the scale of its cell. *)
Theorem parse_keeps_registry_and_grows_styles this i s a i' s' :
  registry_ok s ->
  parse this i s = Ok (a, i') s' ->
  registry_ok s' /\
  (forall sym k, commodities s !! sym = Some k -> commodities s' !! sym = Some k) /\
  (forall k o, objects s !! k = Some o ->
     exists o', objects s' !! k = Some o' /\ style_grew o o' /\
                (commodity a <> Some k -> o' = o)) /\
  exists q c k o,
    a = Amount (Some q) (Some k) /\ cells s' !! q = Some c /\
    objects s' !! k = Some o /\ prec c <= precision o.
Proof. apply parse_registry. Qed.

Lemma parse_keeps_registry_and_grows_styles_witness :
  exists a i' s',
    parse amount_absent (istringstream "$1.505") sample_store = Ok (a, i') s' /\
    registry_ok s' /\
    exists o', objects s' !! 2%positive = Some o' /\
               style_grew (Commodity "$" false 2 0 []) o'.
Proof.
  eexists _, _, _. split; [vm_compute; reflexivity|].
  edestruct (parse_keeps_registry_and_grows_styles amount_absent
               (istringstream "$1.505") sample_store) as (Hreg & _ & Hobj & _).
  - apply (bool_decide_unpack _). vm_compute. reflexivity.
  - vm_compute. reflexivity.
  - split; [exact Hreg|].
    destruct (Hobj 2%positive (Commodity "$" false 2 0 []) eq_refl)
      as (o' & Ho' & Hgrew & _).
    exists o'. split; [exact Ho'|exact Hgrew].
Defined.

(** ** Tokens *)

Lemma read_while_rest cond n s buf r x :
  read_while cond n s = (buf, r) -> In x (list_ascii_of_string r) ->
  In x (list_ascii_of_string s).
Proof.
  revert s buf r. induction n as [|n IH]; intros s buf r H Hin.
  - destruct s; injection H as <- <-; exact Hin.
  - destruct s as [|c s]; [injection H as <- <-; exact Hin|].
    cbn [read_while] in H. destruct (cond c).
    + destruct (read_while cond n s) as [buf' r'] eqn:Hr.
      injection H as <- <-. right. eapply IH; eauto.
    + injection H as <- <-. exact Hin.
Qed.

Lemma skip_ws_nonspace c r : isspace c = false -> skip_ws (String c r) = String c r.
Proof. intros H. cbn. rewrite H. reflexivity. Qed.

(** X17: Parsing, into an amount without quantity, a text that opens a
    quoted commodity symbol and never closes it throws the error about the
    missing closing quote, after the receiver has been given a quantity; its
    commodity is untouched. *)
Theorem parse_unterminated_quote_throws this body s :
  quantity this = None ->
  (forall x, In x (list_ascii_of_string body) -> x <> dquote) ->
  exists this' s',
    parse this (istringstream (String dquote body)) s
      = Throw (AmountError "Quoted commodity symbol lacks closing quote") this' s' /\
    is_Some (quantity this') /\ commodity this' = commodity this.
Proof.
  intros Hq Hbody. unfold parse. unfold bind at 1. unfold _init. rewrite Hq.
  unfold bind at 1. unfold new_bigint. cbv zeta. unfold ret at 1. cbv beta.
  assert (Htok : parse_tokens (istringstream (String dquote body)) = None).
  { unfold parse_tokens, istringstream, peek_next_nonws. cbn [rest eofbit].
    rewrite skip_ws_nonspace by reflexivity. cbn [peek rest].
    change (isdigit dquote || is_char "." dquote || is_char "-" dquote) with false.
    cbv iota. unfold parse_commodity, peek_next_nonws. cbn [rest eofbit].
    rewrite skip_ws_nonspace by reflexivity. cbn [peek rest].
    change (is_char dquote dquote) with true. cbv iota. cbn [rest eofbit].
    unfold READ_INTO. cbn [rest eofbit].
    destruct (read_while _ 256 body) as [buf r] eqn:Hread.
    assert (Hr : forall x, In x (list_ascii_of_string r) -> x <> dquote).
    { intros x Hx. apply Hbody. eapply read_while_rest; eauto. }
    unfold peek. cbn [rest]. destruct r as [|c r].
    - change (is_char dquote EOF_char) with false. reflexivity.
    - unfold is_char. rewrite bool_decide_eq_false_2; [reflexivity|].
      apply Hr. left. reflexivity. }
  rewrite Htok. unfold throw. eexists _, _. split; [reflexivity|].
  split; [eexists; reflexivity|reflexivity].
Qed.

Lemma parse_unterminated_quote_throws_witness :
  exists this' s',
    parse amount_absent (istringstream (String dquote "EUR 5")) sample_store
      = Throw (AmountError "Quoted commodity symbol lacks closing quote") this' s' /\
    is_Some (quantity this') /\ commodity this' = None.
Proof.
  apply (parse_unterminated_quote_throws amount_absent "EUR 5" sample_store).
  - reflexivity.
  - intros x Hx. cbn in Hx.
    destruct Hx as [<-|[<-|[<-|[<-|[<-|[]]]]]]; discriminate.
Defined.

Lemma strip_well_separated p :
  well_separated p = true -> strip_separators p = Some (without_separators p).
Proof.
  assert (H : forall n p, (String.length p <= n)%nat -> well_separated p = true ->
                          strip_separators p = Some (without_separators p)).
  { intros n. induction n as [|n IH]; intros q Hlen.
    - destruct q; [reflexivity|cbn in Hlen; lia].
    - destruct q as [|c q]; [reflexivity|]. cbn in Hlen.
      cbn [well_separated strip_separators without_separators].
      fold (is_separator c). destruct (is_separator c).
      + destruct q as [|c' q]; [discriminate|]. cbn in Hlen.
        intros H. apply andb_true_iff in H as [Hc' Hq].
        apply negb_true_iff in Hc'.
        cbn [without_separators]. rewrite Hc'.
        rewrite IH; [reflexivity|lia|exact Hq].
      + intros H. rewrite IH; [reflexivity|lia|exact H]. }
  apply (H (String.length p)). lia.
Qed.

Lemma strip_trailing_separator p c :
  without_separators p = p -> is_separator c = true ->
  strip_separators (p +:+ String c EmptyString) = None.
Proof.
  intros Hp Hc. induction p as [|x p IH].
  - change (strip_separators (String c EmptyString) = None).
    cbn [strip_separators]. fold (is_separator c). rewrite Hc. reflexivity.
  - cbn [without_separators] in Hp.
    destruct (is_separator x) eqn:Hx.
    + exfalso. assert (Hlen : (String.length (without_separators p) <= String.length p)%nat).
      { clear. induction p as [|y p IH]; cbn; [lia|].
        destruct (is_separator y); cbn; lia. }
      rewrite Hp in Hlen. cbn in Hlen. lia.
    + injection Hp as Hp. change (String x p +:+ String c "") with (String x (p +:+ String c "")).
      cbn [strip_separators]. fold (is_separator x). rewrite Hx.
      rewrite IH by exact Hp. reflexivity.
Qed.



(** ** Price histories *)

Lemma ascending_two t p t1 p1 h :
  ascending ((t, p) :: (t1, p1) :: h) = (t <? t1) && ascending ((t1, p1) :: h).
Proof. reflexivity. Qed.

Lemma ascending_cons t p h :
  ascending ((t, p) :: h) = true ->
  ascending h = true /\ forall t' p', In (t', p') h -> t < t'.
Proof.
  revert t p. induction h as [|[t1 p1] h IH]; intros t p H.
  - split; [reflexivity|]. intros ? ? [].
  - rewrite ascending_two in H. apply andb_true_iff in H as [Hlt Hasc].
    apply Z.ltb_lt in Hlt. split; [exact Hasc|].
    intros t' p' [[= <- <-]|Hin]; [exact Hlt|].
    destruct (IH _ _ Hasc) as [_ Hall]. specialize (Hall _ _ Hin). lia.
Qed.

Lemma ascending_snoc h t p :
  ascending (h ++ [(t, p)]) = true ->
  ascending h = true /\ forall t' p', In (t', p') h -> t' < t.
Proof.
  induction h as [|[a pa] h IH]; intros H.
  - split; [reflexivity|]. intros ? ? [].
  - change (((a, pa) :: h) ++ [(t, p)]) with ((a, pa) :: (h ++ [(t, p)])) in H.
    destruct (ascending_cons _ _ _ H) as [Hasc Hall].
    destruct (IH Hasc) as [Hh Hlt]. split.
    + destruct h as [|[b pb] h]; [reflexivity|].
      rewrite ascending_two, Hh. rewrite (proj2 (Z.ltb_lt a b)); [reflexivity|].
      apply (Hall b pb). left. reflexivity.
    + intros t' p' [[= <- <-]|Hin]; [|eauto].
      apply (Hall t p). apply in_or_app. right. left. reflexivity.
Qed.

Lemma find_price_newest h moment :
  ascending h = true -> moment <> 0 ->
  match find_price moment (rev h) with
  | Some (t, p) =>
      In (t, p) h /\ t <= moment /\
      forall t' p', In (t', p') h -> t' <= moment -> t' <= t
  | None => forall t' p', In (t', p') h -> moment < t'
  end.
Proof.
  intros Hasc Hm. induction h as [|[t p] h IH] using rev_ind.
  - cbn. intros ? ? [].
  - rewrite rev_app_distr. cbn [rev app find_price].
    destruct (ascending_snoc _ _ _ Hasc) as [Hh Hlt].
    rewrite (proj2 (Z.eqb_neq moment 0) Hm). cbn [orb].
    destruct (t <=? moment) eqn:Hle.
    + apply Z.leb_le in Hle. split; [apply in_or_app; right; left; reflexivity|].
      split; [exact Hle|]. intros t' p' Hin _.
      apply in_app_or in Hin as [Hin|[[= <- <-]|[]]]; [|lia].
      specialize (Hlt _ _ Hin). lia.
    + apply Z.leb_gt in Hle. specialize (IH Hh).
      destruct (find_price moment (rev h)) as [[t0 p0]|].
      * destruct IH as (Hin & Hle0 & Hmax). split; [apply in_or_app; left; exact Hin|].
        split; [exact Hle0|]. intros t' p' Hin' Hle'.
        apply in_app_or in Hin' as [Hin'|[[= <- <-]|[]]]; [eauto|lia].
      * intros t' p' Hin'.
        apply in_app_or in Hin' as [Hin'|[[= <- <-]|[]]]; [eauto|lia].
Qed.

(** X19: In a history ordered by date, the search of commodity_t::value for
    a moment other than 0 finds the newest entry dated at or before the
    moment, and none exactly when every entry is later; for the moment 0 it
    finds the newest entry of all. *)
Theorem commodity_value_picks_newest_price_not_after h moment :
  ascending h = true ->
  (moment <> 0 ->
     match find_price moment (rev h) with
     | Some (t, p) =>
         In (t, p) h /\ t <= moment /\
         forall t' p', In (t', p') h -> t' <= moment -> t' <= t
     | None => forall t' p', In (t', p') h -> moment < t'
     end) /\
  find_price 0 (rev h) = last h.
Proof.
  intros Hasc. split; [apply find_price_newest; exact Hasc|].
  clear Hasc. induction h as [|[t p] h IH] using rev_ind; [reflexivity|].
  rewrite rev_app_distr, last_snoc. reflexivity.
Qed.

Lemma commodity_value_picks_newest_price_not_after_witness :
  find_price 150 (rev [(100, sample_price); (200, sample_ten)])
    = Some (100, sample_price) /\
  find_price 0 (rev [(100, sample_price); (200, sample_ten)])
    = Some (200, sample_ten).
Proof.
  destruct (commodity_value_picks_newest_price_not_after
              [(100, sample_price); (200, sample_ten)] 150) as [_ Hzero].
  - reflexivity.
  - split; [reflexivity|exact Hzero].
Defined.

Lemma history_find_in h t p :
  ascending h = true -> (history_find t h = Some p <-> In (t, p) h).
Proof.
  induction h as [|[t1 p1] h IH]; intros Hasc.
  - cbn. split; [discriminate|intros []].
  - destruct (ascending_cons _ _ _ Hasc) as [Hh Hall].
    cbn [history_find]. destruct (t1 =? t) eqn:Heq.
    + apply Z.eqb_eq in Heq. subst t1. split.
      * intros [= ->]. left. reflexivity.
      * intros [[= ->]|Hin]; [reflexivity|]. specialize (Hall _ _ Hin). lia.
    + apply Z.eqb_neq in Heq. rewrite (IH Hh). split; [right; assumption|].
      intros [[= ? ?]|Hin]; [congruence|exact Hin].
Qed.

Lemma find_price_at_date h date p :
  ascending h = true -> date <> 0 -> history_find date h = Some p ->
  find_price date (rev h) = Some (date, p).
Proof.
  intros Hasc Hd Hfind. pose proof (find_price_newest h date Hasc Hd) as H.
  apply (history_find_in h date p Hasc) in Hfind.
  destruct (find_price date (rev h)) as [[t p']|].
  - destruct H as (Hin & Hle & Hmax).
    assert (t = date) by (specialize (Hmax _ _ Hfind); lia). subst t.
    apply (history_find_in h date p' Hasc) in Hin.
    apply (history_find_in h date p Hasc) in Hfind. congruence.
  - specialize (H _ _ Hfind). lia.
Qed.

Lemma history_set_spec date price h old :
  ascending h = true -> history_find date h = Some old ->
  ascending (history_set date price h) = true /\
  history_find date (history_set date price h) = Some price.
Proof.
  induction h as [|[t1 p1] h IH]; intros Hasc Hfind; [discriminate|].
  cbn [history_find history_set] in *. destruct (t1 =? date) eqn:Heq.
  - split; [|cbn [history_find]; rewrite Heq; reflexivity].
    destruct h as [|[t2 p2] h]; [reflexivity|exact Hasc].
  - destruct (ascending_cons _ _ _ Hasc) as [Hh Hall].
    destruct (IH Hh Hfind) as [Hasc' Hfind'].
    split; [|cbn [history_find]; rewrite Heq; exact Hfind'].
    destruct h as [|[t2 p2] h]; [discriminate|].
    cbn [history_set] in *. rewrite ascending_two in Hasc.
    apply andb_true_iff in Hasc as [Hlt _].
    destruct (t2 =? date); rewrite ascending_two, Hlt; exact Hasc'.
Qed.

Lemma history_insert_spec date price h :
  ascending h = true -> history_find date h = None ->
  ascending (history_insert date price h) = true /\
  history_find date (history_insert date price h) = Some price.
Proof.
  induction h as [|[t1 p1] h IH]; intros Hasc Hfind.
  - cbn. rewrite Z.eqb_refl. split; reflexivity.
  - cbn [history_find history_insert] in *. destruct (t1 =? date) eqn:Heq; [discriminate|].
    apply Z.eqb_neq in Heq.
    destruct (date <? t1) eqn:Hlt.
    + split; [|cbn [history_find]; rewrite Z.eqb_refl; reflexivity].
      rewrite ascending_two, Hlt. exact Hasc.
    + apply Z.ltb_ge in Hlt.
      destruct (ascending_cons _ _ _ Hasc) as [Hh Hall].
      destruct (IH Hh Hfind) as [Hasc' Hfind'].
      split; [|cbn [history_find]; rewrite (proj2 (Z.eqb_neq t1 date) Heq); exact Hfind'].
      destruct h as [|[t2 p2] h].
      * cbn. rewrite (proj2 (Z.ltb_lt t1 date)) by lia. reflexivity.
      * cbn [history_insert] in *. rewrite ascending_two in Hasc.
        apply andb_true_iff in Hasc as [Hlt12 _].
        destruct (date <? t2); rewrite ascending_two.
        -- rewrite (proj2 (Z.ltb_lt t1 date)) by lia. exact Hasc'.
        -- rewrite Hlt12. exact Hasc'.
Qed.

Lemma history_set_other date price h t :
  t <> date -> history_find t (history_set date price h) = history_find t h.
Proof.
  intros Hne. induction h as [|[t1 p1] h IH]; [reflexivity|].
  cbn [history_set]. destruct (t1 =? date) eqn:Heq.
  - apply Z.eqb_eq in Heq. subst t1. cbn [history_find].
    rewrite (proj2 (Z.eqb_neq date t)) by congruence. reflexivity.
  - cbn [history_find]. rewrite IH. reflexivity.
Qed.

Lemma history_insert_other date price h t :
  t <> date -> history_find t (history_insert date price h) = history_find t h.
Proof.
  intros Hne. induction h as [|[t1 p1] h IH].
  - cbn. rewrite (proj2 (Z.eqb_neq date t)) by congruence. reflexivity.
  - cbn [history_insert]. destruct (date <? t1).
    + cbn [history_find]. rewrite (proj2 (Z.eqb_neq date t)) by congruence. reflexivity.
    + cbn [history_find]. rewrite IH. reflexivity.
Qed.

(** Assigning a present amount to an entry, or copying it into a new one:
    the entry is then that amount and its cell is live. *)
Lemma copy_onto old price q c s :
  quantity price = Some q -> cells s !! q = Some c ->
  (forall q0, quantity old = Some q0 -> is_Some (cells s !! q0)) ->
  exists s1,
    _copy old price s = Ok price s1 /\ is_Some (cells s1 !! q) /\
    objects s1 = objects s.
Proof.
  intros Hq Hc Hold. unfold _copy.
  destruct (decide (quantity old = quantity price)) as [Heq|Hne].
  - exists s. unfold bind, ret. split; [|split; [eauto|reflexivity]].
    f_equal. destruct old, price. unfold with_commodity. cbn in *. congruence.
  - destruct (quantity old) as [q0|] eqn:Hq0.
    + destruct (Hold q0 eq_refl) as [c0 Hc0]. cbn [non_null].
      unfold bind at 1. unfold bind at 1.
      erewrite (release_eq old q0 c0 s Hq0 Hc0). norm. rewrite Hq.
      assert (q <> q0) by congruence.
      unfold bind at 1. cbn [deref ret]. unfold bind at 1.
      unfold update, bind, load, save. cbv beta. norm.
      rewrite lookup_released_ne by assumption. rewrite Hc. unfold ret.
      eexists. split; [f_equal; destruct price; cbn in *; congruence|].
      split; [norm; rewrite lookup_insert_eq; eauto|reflexivity].
    + cbn [non_null]. unfold bind at 1. unfold bind at 1. unfold ret at 1.
      norm. rewrite Hq. unfold bind at 1. cbn [deref ret]. unfold bind at 1.
      unfold update, bind, load, save. cbv beta. rewrite Hc. unfold ret.
      eexists. split; [f_equal; destruct price; cbn in *; congruence|].
      split; [norm; rewrite lookup_insert_eq; eauto|reflexivity].
Qed.

Lemma add_price_spec s k o date price q c :
  objects s !! k = Some o -> ascending (history o) = true ->
  quantity price = Some q -> cells s !! q = Some c ->
  1 <= ref c -> ref c + 2 < 4294967296 ->
  (forall old q0, history_find date (history o) = Some old ->
                  quantity old = Some q0 -> is_Some (cells s !! q0)) ->
  exists s1 o1,
    add_price k date price s = Ok tt s1 /\
    objects s1 !! k = Some o1 /\ is_Some (cells s1 !! q) /\
    ascending (history o1) = true /\
    history_find date (history o1) = Some price /\
    (forall t, t <> date -> history_find t (history o1) = history_find t (history o)).
Proof.
  intros Ho Hasc Hq Hc Hr1 Hr2 Hold. unfold add_price.
  erewrite bind_load_commodity_eq by exact Ho.
  destruct (history_find date (history o)) as [old|] eqn:Hfind.
  - unfold assign. rewrite Hq. cbn [non_null].
    destruct (copy_onto old price q c s Hq Hc (fun q0 => Hold old q0 eq_refl))
      as (s1 & Hcopy & Hlive & Hobj).
    unfold bind at 1. rewrite Hcopy.
    erewrite bind_load_commodity_eq by (rewrite Hobj; exact Ho).
    unfold save_commodity.
    destruct (history_set_spec date price (history o) old Hasc Hfind) as [Hasc' Hfind'].
    eexists _, _. split; [reflexivity|]. norm.
    split; [apply lookup_insert_eq|]. split; [exact Hlive|].
    cbn [history set_history]. split; [exact Hasc'|]. split; [exact Hfind'|].
    intros t Ht. apply history_set_other. exact Ht.
  - unfold bind at 1. rewrite (amount_copy_eq price q c s Hq Hc).
    rewrite uint_succ by lia.
    unfold bind at 1.
    erewrite (amount_copy_eq price q (set_ref (ref c + 1) c))
      by (try exact Hq; norm; apply lookup_insert_eq).
    cbn [ref set_ref]. rewrite uint_succ by lia.
    erewrite bind_load_commodity_eq by (norm; exact Ho).
    unfold save_commodity. unfold bind at 1.
    unfold amount_destroy. rewrite Hq. cbn [non_null].
    erewrite (release_eq price q (set_ref (ref c + 1 + 1) c))
      by (try exact Hq; norm; apply lookup_insert_eq).
    destruct (history_insert_spec date price (history o) Hasc Hfind) as [Hasc' Hfind'].
    eexists _, _. split; [reflexivity|]. norm.
    split; [apply lookup_insert_eq|].
    split.
    { rewrite lookup_released_eq; [eauto|].
      cbn [ref set_ref]. rewrite uint_pred by lia. lia. }
    cbn [history set_history]. split; [exact Hasc'|]. split; [exact Hfind'|].
    intros t Ht. apply history_insert_other. exact Ht.
Qed.



(** ** Binary output and input *)

Lemma u8_byte_of x : u8 (byte_of x) = x mod 256.
Proof.
  unfold u8, byte_of.
  pose proof (Z.mod_pos_bound x 256 ltac:(lia)) as Hb.
  destruct (Byte.of_N (Z.to_N (x mod 256))) as [b|] eqn:Hof.
  - apply Byte.to_of_N in Hof. rewrite Hof. apply Z2N.id. lia.
  - apply Byte.of_N_None_iff in Hof. lia.
Qed.

Lemma read_write_ushort x rest :
  0 <= x < 65536 -> read_ushort (write_ushort x ++ rest) = Some (x, rest).
Proof.
  intros Hx. unfold write_ushort, read_ushort. cbn [app].
  rewrite !u8_byte_of. f_equal. f_equal.
  rewrite (Z.mod_small (x / 256)) by (split; [apply Z.div_pos; lia|apply Z.div_lt_upper_bound; lia]).
  pose proof (Z.div_mod x 256 ltac:(lia)). lia.
Qed.

Lemma read_write_uint x rest :
  0 <= x < 4294967296 -> read_uint (write_uint x ++ rest) = Some (x, rest).
Proof.
  intros Hx. unfold write_uint, read_uint. cbn [app].
  rewrite !u8_byte_of. f_equal. f_equal.
  assert (H1 : x / 65536 = x / 256 / 256) by (rewrite Z.div_div by lia; reflexivity).
  assert (H2 : x / 16777216 = x / 256 / 256 / 256)
    by (rewrite !Z.div_div by lia; reflexivity).
  rewrite H1, H2.
  pose proof (Z.div_mod x 256 ltac:(lia)).
  pose proof (Z.div_mod (x / 256) 256 ltac:(lia)).
  pose proof (Z.div_mod (x / 256 / 256) 256 ltac:(lia)).
  rewrite (Z.mod_small (x / 256 / 256 / 256)).
  - lia.
  - split; [repeat apply Z.div_pos; lia|].
    repeat (apply Z.div_lt_upper_bound; [lia|]). lia.
Qed.

Lemma export_words_length n x : length (export_words n x) = (2 * n)%nat.
Proof.
  revert x. induction n as [|n IH]; intros x; [reflexivity|].
  cbn [export_words]. rewrite length_app, IH. cbn. lia.
Qed.

Lemma import_export_app n m x acc data :
  0 <= x ->
  mpz_import (n + m) acc (export_words n x ++ data)
    = mpz_import m (acc * 65536 ^ Z.of_nat n + x mod 65536 ^ Z.of_nat n) data.
Proof.
  revert m x acc data. induction n as [|n IH]; intros m x acc data Hx.
  - cbn [export_words app Nat.add Z.of_nat]. f_equal. rewrite Z.mod_1_r. cbn. lia.
  - cbn [export_words]. rewrite <- app_assoc.
    replace (S n + m)%nat with (n + S m)%nat by lia.
    rewrite IH by (apply Z.div_pos; lia).
    cbn [mpz_import]. rewrite read_write_ushort by (apply Z.mod_pos_bound; lia).
    f_equal. rewrite Nat2Z.inj_succ, Z.pow_succ_r by lia.
    assert (Hp : 0 < 65536 ^ Z.of_nat n) by (apply Z.pow_pos_nonneg; lia).
    rewrite (Z.rem_mul_r x 65536 (65536 ^ Z.of_nat n)) by lia. lia.
Qed.

Lemma import_export_words n x rest :
  0 <= x < 65536 ^ Z.of_nat n ->
  mpz_import n 0 (export_words n x ++ rest) = Some x.
Proof.
  intros Hx. replace n with (n + 0)%nat at 1 by lia.
  rewrite import_export_app by lia. cbn [mpz_import]. f_equal.
  rewrite Z.mod_small by exact Hx. lia.
Qed.

Lemma word_count_fits x : 0 < x -> x < 65536 ^ Z.of_nat (word_count x).
Proof.
  intros Hx. unfold word_count. rewrite (proj2 (Z.eqb_neq x 0)) by lia.
  pose proof (Z.log2_nonneg x) as Hl.
  rewrite Nat2Z.inj_succ, Z2Nat.id by (apply Z.div_pos; lia).
  change 65536 with (2 ^ 16). rewrite <- Z.pow_mul_r by (try lia; apply Z.le_le_succ_r, Z.div_pos; lia).
  destruct (Z.log2_spec x Hx) as [_ Hlt].
  eapply Z.lt_le_trans; [exact Hlt|].
  apply Z.pow_le_mono_r; [lia|].
  pose proof (Z.div_mod (Z.log2 x) 16 ltac:(lia)).
  pose proof (Z.mod_pos_bound (Z.log2 x) 16 ltac:(lia)). lia.
Qed.

Lemma u8_byte_of_small x : 0 <= x < 256 -> u8 (byte_of x) = x.
Proof. intros H. rewrite u8_byte_of. apply Z.mod_small. exact H. Qed.

(** The record of a cell written for the first time. *)
Lemma write_new_eq s a q c w :
  quantity a = Some q -> cells s !! q = Some c -> index c = 0 ->
  val c <> 0 -> 2 * Z.of_nat (word_count (Z.abs (val c))) <= 4096 ->
  write_quantity a w s
    = Ok ([byte_of 1]
            ++ write_ushort (Z.of_nat (word_count (Z.abs (val c))) * 2)
            ++ export_words (word_count (Z.abs (val c))) (Z.abs (val c))
            ++ [byte_of (if val c <? 0 then 1 else 0)]
            ++ write_ushort (prec c),
          Writer (uint (bigints_index w + 1)) (uint (bigints_count w + 1)))
         (with_cells (<[q := set_index (uint (bigints_index w + 1)) c]> (cells s)) s).
Proof.
  intros Hq Hc Hi Hv Hsize. unfold write_quantity. rewrite Hq.
  unfold bind at 1. rewrite (load_eq _ _ _ Hc). rewrite Hi. cbn [Z.eqb].
  cbv zeta. cbn [bigints_index].
  unfold bind at 1. unfold update, bind, load, save. cbv beta. rewrite Hc.
  unfold mpz_export. set (n := word_count (Z.abs (val c))) in *.
  rewrite (proj2 (Z.ltb_ge 4096 (2 * Z.of_nat n))) by lia.
  assert (Hn : (1 <= n)%nat).
  { unfold n, word_count. rewrite (proj2 (Z.eqb_neq _ 0)) by lia. lia. }
  rewrite ushort_small by lia.
  rewrite (proj2 (Z.eqb_neq (Z.of_nat n * 2) 0)) by lia. cbn [negb].
  unfold ret. f_equal.
  rewrite firstn_all2 by (rewrite export_words_length; lia).
  unfold mpz_sgn. replace (Z.sgn (val c) <? 0) with (val c <? 0)
    by (destruct (val c); reflexivity).
  rewrite <- !app_assoc. reflexivity.
Qed.

(** The record of a new cell read back into the next slot of the arena. *)
Lemma read_new_eq v p b rest s2 slot :
  v <> 0 -> 2 * Z.of_nat (word_count (Z.abs v)) <= 4096 -> 0 <= p < 65536 ->
  bigints s2 !! bigints_next s2 = Some slot ->
  read_quantity b
    (([byte_of 1]
        ++ write_ushort (Z.of_nat (word_count (Z.abs v)) * 2)
        ++ export_words (word_count (Z.abs v)) (Z.abs v)
        ++ [byte_of (if v <? 0 then 1 else 0)]
        ++ write_ushort p) ++ rest) s2
    = Ok (with_quantity (Some slot) b, rest)
         (set_bigints_next (S (bigints_next s2))
            (with_cells
               (<[slot := Bigint v p BIGINT_BULK_ALLOC 1 0]> (cells s2)) s2)).
Proof.
  intros Hv Hsize Hp Hslot.
  set (n := word_count (Z.abs v)) in *.
  assert (Hn : (1 <= n)%nat).
  { unfold n, word_count. rewrite (proj2 (Z.eqb_neq _ 0)) by lia. lia. }
  rewrite <- !app_assoc. cbn [app]. unfold read_quantity.
  rewrite u8_byte_of_small by lia.
  change (1 =? 0) with false. change (1 =? 1) with true. cbv iota beta.
  rewrite Hslot. cbv zeta.
  unfold bind at 1. unfold update, bind, load, save. cbv beta. norm.
  rewrite lookup_insert_eq.
  rewrite read_write_ushort by lia.
  replace (Z.of_nat n * 2 / 2) with (Z.of_nat n) by (rewrite Z.div_mul; lia).
  rewrite Nat2Z.id.
  rewrite import_export_words
    by (split; [lia|apply word_count_fits; lia]).
  norm. rewrite lookup_insert_eq.
  replace (Z.to_nat (Z.of_nat n * 2)) with (length (export_words n (Z.abs v)))
    by (rewrite export_words_length; lia).
  rewrite drop_app_length.
  cbn [app].
  assert (Hneg : u8 (byte_of (if v <? 0 then 1 else 0))
                 = if v <? 0 then 1 else 0).
  { apply u8_byte_of_small. destruct (v <? 0); lia. }
  rewrite Hneg. rewrite read_write_ushort by lia.
  destruct (v <? 0) eqn:Hlt.
  - change (negb (1 =? 0)) with true. cbv iota beta. norm.
    rewrite lookup_insert_eq. norm. rewrite lookup_insert_eq.
    unfold ret. f_equal.
    unfold set_bigints_next, with_cells, set_cells. cbn. f_equal.
    rewrite !insert_insert_eq. f_equal. apply Z.ltb_lt in Hlt.
    unfold set_prec, set_val, set_flags. cbn. f_equal. lia.
  - change (negb (0 =? 0)) with false. cbv iota beta. unfold ret at 1. norm.
    rewrite lookup_insert_eq. unfold ret. f_equal.
    unfold set_bigints_next, with_cells, set_cells. cbn. f_equal.
    rewrite !insert_insert_eq. f_equal. apply Z.ltb_ge in Hlt.
    unfold set_prec, set_val, set_flags. cbn. f_equal. lia.
Qed.

(** X21: write_quantity of an amount whose cell has a magnitude other than
    zero and has not been written yet gives the cell the next index and
    emits a record that read_quantity reads back, consuming exactly the
    record, into the next arena slot: same magnitude, sign and scale,
    flagged as bulk allocated, held once. *)
Theorem write_then_read_round_trips s a q c w :
  quantity a = Some q -> cells s !! q = Some c -> index c = 0 ->
  val c <> 0 -> 2 * Z.of_nat (word_count (Z.abs (val c))) <= 4096 ->
  0 <= prec c < 65536 ->
  exists bytes s1,
    write_quantity a w s
      = Ok (bytes, Writer (uint (bigints_index w + 1)) (uint (bigints_count w + 1))) s1 /\
    cells s1 !! q = Some (set_index (uint (bigints_index w + 1)) c) /\
    forall b rest s2 slot,
      bigints s2 !! bigints_next s2 = Some slot ->
      read_quantity b (bytes ++ rest) s2
        = Ok (with_quantity (Some slot) b, rest)
             (set_bigints_next (S (bigints_next s2))
                (with_cells
                   (<[slot := Bigint (val c) (prec c) BIGINT_BULK_ALLOC 1 0]> (cells s2))
                   s2)).
Proof.
  intros Hq Hc Hi Hv Hsize Hp.
  eexists _, _. split; [apply (write_new_eq s a q c w Hq Hc Hi Hv Hsize)|].
  split; [cbn; apply lookup_insert_eq|].
  intros b rest s2 slot Hslot. apply read_new_eq; assumption.
Qed.

Lemma write_then_read_round_trips_witness :
  exists bytes w1 s1,
    write_quantity sample_ten (Writer 0 0) sample_store = Ok (bytes, w1) s1 /\
    read_quantity amount_absent bytes sample_store
      = Ok (Amount (Some 10%positive) None, [])
           (set_bigints_next 1
              (with_cells
                 (<[10%positive := Bigint 1000 2 BIGINT_BULK_ALLOC 1 0]>
                    (cells sample_store)) sample_store)).
Proof.
  destruct (write_then_read_round_trips sample_store sample_ten 2%positive
              (Bigint 1000 2 0 1 0) (Writer 0 0))
    as (bytes & s1 & Hwrite & _ & Hread).
  - reflexivity.
  - reflexivity.
  - reflexivity.
  - simpl. lia.
  - vm_compute. discriminate.
  - simpl. lia.
  - eexists bytes, _, s1. split; [exact Hwrite|].
    rewrite <- (app_nil_r bytes) at 1.
    apply (Hread amount_absent [] sample_store 10%positive). reflexivity.
Defined.

(** A reference record read back: one more handle on the slot it names. *)
Lemma read_reference_eq idx b rest s2 slot cs :
  0 < idx < 4294967296 ->
  bigints s2 !! Z.to_nat (idx - 1) = Some slot -> cells s2 !! slot = Some cs ->
  read_quantity b (([byte_of 2] ++ write_uint idx) ++ rest) s2
    = Ok (with_quantity (Some slot) b, rest)
         (with_cells (<[slot := set_ref (uint (ref cs + 1)) cs]> (cells s2)) s2).
Proof.
  intros Hidx Hslot Hcs. rewrite <- app_assoc. cbn [app]. unfold read_quantity.
  rewrite u8_byte_of_small by lia.
  change (2 =? 0) with false. change (2 =? 1) with false. cbv iota.
  change (byte_of idx :: byte_of (idx / 256) :: byte_of (idx / 65536)
            :: byte_of (idx / 16777216) :: rest) with (write_uint idx ++ rest).
  rewrite read_write_uint by lia. rewrite uint_small by lia. rewrite Hslot.
  unfold bind at 1. unfold update, bind, load, save. cbv beta. rewrite Hcs.
  reflexivity.
Qed.

(** X22: For a cell of magnitude zero write_quantity emits the three bytes
    1, 0, 0 only (no sign, no scale), and read_quantity does not read this
    record back: it either reads beyond the end of the data or consumes
    three bytes of whatever follows the record. *)
Theorem write_zero_does_not_read_back s a q c w :
  quantity a = Some q -> cells s !! q = Some c -> index c = 0 -> val c = 0 ->
  exists s1 w1,
    write_quantity a w s = Ok ([byte_of 1; byte_of 0; byte_of 0], w1) s1 /\
    forall b rest s2,
      match read_quantity b ([byte_of 1; byte_of 0; byte_of 0] ++ rest) s2 with
      | Ok (_, rest') _ => (length rest' + 3 = length rest)%nat
      | Throw _ _ _ => False
      | Undefined f => f = OutOfBounds
      end.
Proof.
  intros Hq Hc Hi Hv. eexists _, _. split.
  - unfold write_quantity. rewrite Hq.
    unfold bind at 1. rewrite (load_eq _ _ _ Hc). rewrite Hi. cbn [Z.eqb].
    cbv zeta. cbn [bigints_index].
    unfold bind at 1. unfold update, bind, load, save. cbv beta. rewrite Hc.
    rewrite Hv. reflexivity.
  - intros b rest s2. cbn [app]. unfold read_quantity.
    rewrite u8_byte_of_small by lia.
    change (1 =? 0) with false. change (1 =? 1) with true. cbv iota beta.
    destruct (bigints s2 !! bigints_next s2) as [slot|]; [|reflexivity].
    cbv zeta.
    unfold bind at 1. unfold update, bind, load, save. cbv beta. norm.
    rewrite lookup_insert_eq.
    change (byte_of 0 :: byte_of 0 :: rest) with (write_ushort 0 ++ rest).
    rewrite read_write_ushort by lia.
    change (Z.to_nat (0 / 2)) with O. cbn [mpz_import Z.to_nat drop].
    norm. rewrite lookup_insert_eq.
    destruct rest as [|negative rest]; [reflexivity|].
    change (drop (Z.to_nat 0) (negative :: rest)) with (negative :: rest).
    cbv iota beta.
    destruct (read_ushort rest) as [[p data]|] eqn:Hread.
    + assert (Hlen : (length data + 2 = length rest)%nat).
      { unfold read_ushort in Hread. destruct rest as [|b0 [|b1 rest]]; try discriminate.
        injection Hread as _ <-. cbn. lia. }
      destruct (negb (u8 negative =? 0)); cbv beta; norm;
        rewrite ?lookup_insert_eq; unfold ret; norm; rewrite ?lookup_insert_eq;
        cbn [length]; lia.
    + destruct (negb (u8 negative =? 0)); cbv beta; norm;
        rewrite ?lookup_insert_eq; reflexivity.
Qed.

Lemma write_zero_does_not_read_back_witness :
  exists s1 w1,
    write_quantity sample_ten (Writer 0 0) zero_store
      = Ok ([byte_of 1; byte_of 0; byte_of 0], w1) s1 /\
    read_quantity amount_absent ([byte_of 1; byte_of 0; byte_of 0] ++ []) zero_store
      = Undefined OutOfBounds.
Proof.
  destruct (write_zero_does_not_read_back zero_store sample_ten 2%positive
              (Bigint 0 2 0 1 0) (Writer 0 0))
    as (s1 & w1 & Hwrite & Hread).
  - reflexivity.
  - reflexivity.
  - reflexivity.
  - reflexivity.
  - exists s1, w1. split; [exact Hwrite|].
    specialize (Hread amount_absent [] zero_store).
    destruct (read_quantity amount_absent
                ([byte_of 1; byte_of 0; byte_of 0] ++ []) zero_store)
      as [[a rest'] s'|e t s'|f].
    + cbn in Hread. lia.
    + destruct Hread.
    + rewrite Hread. reflexivity.
Defined.

(** X23: Writing two amounts that share a cell emits a full record and then
    a reference to it; reading the two records back, into a store whose next
    arena slot is the one the index names, gives two amounts sharing that
    slot, whose cell holds the number with a reference count of 2. *)
Theorem shared_cell_round_trips s a1 a2 q c w :
  quantity a1 = Some q -> quantity a2 = Some q ->
  cells s !! q = Some c -> index c = 0 -> 1 < ref c ->
  val c <> 0 -> 2 * Z.of_nat (word_count (Z.abs (val c))) <= 4096 ->
  0 <= prec c < 65536 ->
  0 <= bigints_index w -> bigints_index w + 1 < 4294967296 ->
  exists bytes1 bytes2 w1 s1,
    (let* r1 := write_quantity a1 w in
     let* r2 := write_quantity a2 (snd r1) in
     ret (fst r1, fst r2, snd r2)) s = Ok (bytes1, bytes2, w1) s1 /\
    bigints_index w1 = bigints_index w + 1 /\
    forall b1 b2 rest s2 slot,
      bigints_next s2 = Z.to_nat (bigints_index w) ->
      bigints s2 !! bigints_next s2 = Some slot ->
      exists s3,
        (let* x := read_quantity b1 (bytes1 ++ bytes2 ++ rest) in
         let* y := read_quantity b2 (snd x) in
         ret (fst x, fst y, snd y)) s2
          = Ok (with_quantity (Some slot) b1, with_quantity (Some slot) b2, rest) s3 /\
        cells s3 !! slot = Some (Bigint (val c) (prec c) BIGINT_BULK_ALLOC 2 0).
Proof.
  intros Hq1 Hq2 Hc Hi Href Hv Hsize Hp Hw1 Hw2.
  eexists _, _, _, _. split; [|split].
  - unfold bind at 1. rewrite (write_new_eq s a1 q c w Hq1 Hc Hi Hv Hsize).
    cbn [fst snd]. unfold bind at 1. unfold write_quantity at 1. rewrite Hq2.
    unfold bind at 1. rewrite (load_eq _ q (set_index (uint (bigints_index w + 1)) c))
      by (cbn; apply lookup_insert_eq).
    cbn [index set_index ref]. rewrite uint_small by lia.
    rewrite (proj2 (Z.eqb_neq (bigints_index w + 1) 0)) by lia.
    rewrite (proj2 (Z.gtb_lt (ref c) 1)) by lia. cbn [negb].
    unfold ret. cbn [fst snd]. reflexivity.
  - cbn [bigints_index]. rewrite ?uint_small by lia. reflexivity.
  - intros b1 b2 rest s2 slot Hnext Hslot.
    unfold bind at 1.
    rewrite (read_new_eq (val c) (prec c) b1 _ s2 slot Hv Hsize Hp Hslot).
    cbn [fst snd]. unfold bind at 1.
    erewrite (read_reference_eq (bigints_index w + 1) b2 rest _ slot);
      [|lia
       |cbn [bigints set_bigints_next with_cells set_cells];
        replace (bigints_index w + 1 - 1) with (bigints_index w) by lia;
        rewrite <- Hnext; exact Hslot
       |cbn; apply lookup_insert_eq].
    unfold ret. cbn [fst snd]. eexists. split; [reflexivity|].
    cbn. rewrite lookup_insert_eq. reflexivity.
Qed.

Lemma shared_cell_round_trips_witness :
  exists bytes1 bytes2 w1 s1 s3,
    (let* r1 := write_quantity sample_debt (Writer 0 0) in
     let* r2 := write_quantity sample_debt (snd r1) in
     ret (fst r1, fst r2, snd r2)) sample_store = Ok (bytes1, bytes2, w1) s1 /\
    (let* x := read_quantity amount_absent (bytes1 ++ bytes2 ++ []) in
     let* y := read_quantity amount_absent (snd x) in
     ret (fst x, fst y, snd y)) sample_store
      = Ok (Amount (Some 10%positive) None, Amount (Some 10%positive) None, []) s3 /\
    cells s3 !! 10%positive = Some (Bigint (-15) 1 BIGINT_BULK_ALLOC 2 0).
Proof.
  destruct (shared_cell_round_trips sample_store sample_debt sample_debt 4%positive
              (Bigint (-15) 1 0 2 0) (Writer 0 0))
    as (bytes1 & bytes2 & w1 & s1 & Hwrite & _ & Hread).
  - reflexivity.
  - reflexivity.
  - reflexivity.
  - reflexivity.
  - simpl. lia.
  - simpl. lia.
  - vm_compute. discriminate.
  - simpl. lia.
  - simpl. lia.
  - simpl. lia.
  - destruct (Hread amount_absent amount_absent [] sample_store 10%positive)
      as (s3 & Hrun & Hcell).
    + reflexivity.
    + reflexivity.
    + exists bytes1, bytes2, w1, s1, s3.
      split; [exact Hwrite|]. split; [exact Hrun|exact Hcell].
Defined.

(** ** Valuation without a price *)

Lemma find_price_none moment rh :
  moment <> 0 -> (forall t p, In (t, p) rh -> moment < t) ->
  find_price moment rh = None.
Proof.
  intros Hm. induction rh as [|[t p] rh IH]; intros Hall; [reflexivity|].
  cbn [find_price]. rewrite (proj2 (Z.eqb_neq moment 0) Hm). cbn [orb].
  rewrite (proj2 (Z.leb_gt t moment)) by (apply (Hall t p); left; reflexivity).
  apply IH. intros t' p' Hin. apply (Hall t' p'). right. exact Hin.
Qed.



(** ** Construction from a double *)

(** X25: Constructing an amount from a finite double makes a new cell at
    scale 0 under the null commodity, holding the value truncated toward
    zero: the sign of the double, and the integer part of its absolute
    value; a double below one in absolute value gives zero. *)
Theorem amount_of_double_truncates s sign m e :
  exists q v,
    cells s !! q = None /\
    amount_of_double (S754_finite sign m e) s
      = Ok (Amount (Some q) (null_commodity s))
           (with_cells (<[q := Bigint v 0 0 1 0]> (cells s)) s) /\
    (if sign then v <= 0 else 0 <= v) /\
    (0 <= e -> Z.abs v = Z.pos m * 2 ^ e) /\
    (e < 0 -> Z.abs v * 2 ^ (- e) <= Z.pos m < (Z.abs v + 1) * 2 ^ (- e)) /\
    (Z.pos m < 2 ^ (- e) -> v = 0).
Proof.
  exists (heap_fresh s).
  set (mag := if 0 <=? e then Z.pos m * 2 ^ e else Z.quot (Z.pos m) (2 ^ (- e))).
  exists (if sign then - mag else mag).
  split; [apply heap_fresh_not_live|]. split.
  { unfold amount_of_double. cbn [double_nonzero].
    unfold bind at 1. unfold new_bigint. cbv zeta. cbn [mpz_set_d]. fold mag.
    unfold bind at 1. unfold update, bind, load, save. cbv beta. norm.
    rewrite lookup_insert_eq. unfold get_null_commodity, ret. norm.
    f_equal. unfold with_cells, set_cells. cbn. f_equal. apply insert_insert_eq. }
  assert (Hmag : 0 <= mag /\
                 (0 <= e -> mag = Z.pos m * 2 ^ e) /\
                 (e < 0 -> mag * 2 ^ (- e) <= Z.pos m < (mag + 1) * 2 ^ (- e))).
  { unfold mag. destruct (0 <=? e) eqn:He.
    - apply Z.leb_le in He. split; [|split; [reflexivity|lia]].
      apply Z.mul_nonneg_nonneg; [lia|]. apply Z.pow_nonneg. lia.
    - apply Z.leb_gt in He.
      assert (Hd : 0 < 2 ^ (- e)) by (apply Z.pow_pos_nonneg; lia).
      rewrite Z.quot_div_nonneg by lia.
      pose proof (Z.div_mod (Z.pos m) (2 ^ (- e)) ltac:(lia)) as Hdm.
      pose proof (Z.mod_pos_bound (Z.pos m) (2 ^ (- e)) Hd) as Hb.
      split; [apply Z.div_pos; lia|]. split; [lia|]. intros _. nia. }
  destruct Hmag as (Hpos & Hup & Hdown).
  assert (Habs : Z.abs (if sign then - mag else mag) = mag)
    by (destruct sign; lia).
  rewrite Habs. split; [destruct sign; lia|]. split; [exact Hup|].
  split; [exact Hdown|].
  intros Hsmall.
  assert (He : e < 0).
  { destruct (Z_lt_dec e 0); [assumption|].
    exfalso. destruct (Z.eq_dec e 0) as [->|].
    - cbn in Hsmall. lia.
    - rewrite Z.pow_neg_r in Hsmall by lia. lia. }
  specialize (Hdown He).
  assert (mag = 0) by nia. destruct sign; lia.
Qed.

Lemma amount_of_double_truncates_witness :
  exists q,
    amount_of_double (S754_finite false 1 (-1)) sample_store
      = Ok (Amount (Some q) (Some 1%positive))
           (with_cells (<[q := Bigint 0 0 0 1 0]> (cells sample_store)) sample_store).
Proof.
  destruct (amount_of_double_truncates sample_store false 1 (-1))
    as (q & v & _ & Hrun & _ & _ & _ & Hzero).
  exists q. rewrite Hrun. rewrite Hzero; [reflexivity|]. reflexivity.
Defined.

(** ** Printing *)

Lemma string_app_assoc (a b c : string) : (a +:+ b) +:+ c = a +:+ (b +:+ c).
Proof.
  induction a as [|x a IH]; [reflexivity|].
  change (String x ((a +:+ b) +:+ c) = String x (a +:+ (b +:+ c))).
  f_equal. exact IH.
Qed.

(** X26: An amount at scale 0 whose commodity has precision 0 and no style
    flag prints as the commodity symbol immediately followed by the decimal
    digits of the magnitude, with a minus sign before the digits when
    negative; the store is unchanged. *)
Theorem format_integer_in_default_style s a q c k o :
  quantity a = Some q -> cells s !! q = Some c ->
  commodity a = Some k -> objects s !! k = Some o ->
  prec c = 0 -> precision o = 0 -> c_flags o = COMMODITY_STYLE_DEFAULTS ->
  format a s = Ok (print_symbol o +:+ pretty (val c)) s.
Proof.
  intros Hq Hc Hk Ho Hp Hn Hf. unfold format. rewrite Hq, Hk. cbn [negb non_null].
  erewrite bind_get_eq by exact Hc.
  erewrite bind_load_commodity_eq by exact Ho.
  rewrite Hp, Hn, Hf.
  change (0 <? 0) with false. change (0 >? 0) with false.
  change (negb (0 =? 0)) with false. cbv iota.
  change (has_flag COMMODITY_STYLE_DEFAULTS COMMODITY_STYLE_EUROPEAN) with false.
  change (has_flag COMMODITY_STYLE_DEFAULTS COMMODITY_STYLE_SUFFIXED) with false.
  change (has_flag COMMODITY_STYLE_DEFAULTS COMMODITY_STYLE_SEPARATED) with false.
  change (has_flag COMMODITY_STYLE_DEFAULTS COMMODITY_STYLE_THOUSANDS) with false.
  cbn [negb]. cbv iota. unfold mpz_sgn, mpz_get_str.
  change (Z.sgn 0 <? 0) with false. rewrite orb_false_r.
  change (EmptyString +:+ print_symbol o) with (print_symbol o).
  destruct (val c) as [|v|v].
  - reflexivity.
  - reflexivity.
  - change (Z.sgn (Z.neg v) <? 0) with true. cbv iota.
    change (Z.abs (Z.neg v)) with (Z.pos v).
    change (Z.sgn (Z.pos v) =? 0) with false. cbv iota.
    unfold bind, ret. f_equal.
    change (pretty (Z.neg v)) with ("-" +:+ pretty (Z.pos v)).
    apply string_app_assoc.
Qed.

Lemma format_integer_in_default_style_witness :
  format (Amount (Some 4%positive) (Some 1%positive))
    (Store {[ 4%positive := Bigint (-15) 0 0 1 0 ]}
           {[ 1%positive := Commodity "" false 0 0 [] ]}
           {[ "" := 1%positive ]} (Some 1%positive) [] 0)
    = Ok "-15"
         (Store {[ 4%positive := Bigint (-15) 0 0 1 0 ]}
                {[ 1%positive := Commodity "" false 0 0 [] ]}
                {[ "" := 1%positive ]} (Some 1%positive) [] 0).
Proof.
  apply (format_integer_in_default_style _ _ 4%positive (Bigint (-15) 0 0 1 0)
           1%positive (Commodity "" false 0 0 [])); reflexivity.
Defined.

(** ** Valuation at a price *)

Lemma copy_absent_eq price q s :
  quantity price = Some q -> _copy amount_absent price s = amount_copy price s.
Proof. intros Hq. unfold amount_copy. rewrite Hq. reflexivity. Qed.

(** X27: When the commodity of an amount is not NOMARKET and has a price for
    the moment that does not truncate to zero, value returns, in the
    commodity of the price, the product of price and amount rounded as by *=
    and then rounded to the precision of the commodity of the amount. *)
Theorem value_multiplies_by_price s a q c k o moment t price qp cp kp op :
  a = Amount (Some q) (Some k) -> cells s !! q = Some c ->
  objects s !! k = Some o ->
  has_flag (c_flags o) COMMODITY_STYLE_NOMARKET = false ->
  find_price moment (rev (history o)) = Some (t, price) ->
  price = Amount (Some qp) (Some kp) -> cells s !! qp = Some cp ->
  objects s !! kp = Some op ->
  10 ^ Z.max 0 (prec cp - precision op) <= Z.abs (val cp) ->
  1 <= ref c -> 1 <= ref cp -> ref cp + 2 < 4294967296 ->
  0 <= prec c -> 0 <= prec cp -> prec cp + prec c < 65536 ->
  0 <= precision op -> precision op + 6 < 65536 ->
  0 <= precision o ->
  exists q' c' s',
    value None a moment s = Ok (Amount (Some q') (Some kp)) s' /\
    cells s' !! q' = Some c' /\
    (val c', prec c')
      = (let '(v, p) := headroom (val cp * val c) (prec cp + prec c) (precision op) in
         if p >? precision o
         then ((v + 5 * 10 ^ (p - precision o - 1)) / 10 ^ (p - precision o),
               precision o)
         else (v, p)).
Proof.
  intros -> Hc Ho Hflag Hfind -> Hcp Hop Htrue Hr Hrp1 Hrp2 Hp Hpp Hsum Hn1 Hn2 Hn3.
  unfold value. cbn [quantity commodity non_null].
  erewrite bind_load_commodity_eq by exact Ho. rewrite Hflag. cbn [negb].
  unfold bind at 1. cbn [deref ret].
  (* the price *)
  set (price := Amount (Some qp) (Some kp)) in *.
  set (cp1 := set_ref (ref cp + 1) cp).
  assert (Hcv : commodity_value None k moment s
                = Ok price (with_cells (<[qp := cp1]> (cells s)) s)).
  { unfold commodity_value. erewrite bind_load_commodity_eq by exact Ho.
    rewrite Hfind. unfold assign. cbn [price quantity non_null].
    unfold bind at 1. unfold bind at 1.
    rewrite (copy_absent_eq price qp s eq_refl).
    rewrite (amount_copy_eq price qp cp s eq_refl Hcp).
    unfold ret. cbn [fst snd]. rewrite uint_succ by lia. reflexivity. }
  unfold bind at 1. rewrite Hcv.
  set (s1 := with_cells (<[qp := cp1]> (cells s)) s).
  assert (Hcp1 : cells s1 !! qp = Some cp1) by (cbn; apply lookup_insert_eq).
  (* it is not zero *)
  unfold bind at 1.
  rewrite (to_bool_value s1 price qp cp1 kp op eq_refl Hcp1 eq_refl Hop).
  cbn [val prec cp1 set_ref].
  rewrite (proj2 (Z.ltb_ge _ _) Htrue). cbn [negb].
  (* the product *)
  unfold bind at 1. unfold mul, binary. unfold bind at 1.
  rewrite (amount_copy_eq price qp cp1 s1 eq_refl Hcp1).
  cbn [ref cp1 set_ref]. rewrite uint_succ by lia. unfold s1. flat.
  rewrite insert_insert_eq.
  set (cp2 := set_ref (ref cp + 1 + 1) cp1).
  set (s2 := with_cells (<[qp := cp2]> (cells s)) s).
  assert (Hcp2 : cells s2 !! qp = Some cp2) by (cbn; apply lookup_insert_eq).
  assert (Hc2 : exists c2, cells s2 !! q = Some c2 /\ val c2 = val c /\
                           prec c2 = prec c /\ 1 <= ref c2).
  { cbn. destruct (decide (q = qp)) as [->|Hne].
    - rewrite lookup_insert_eq. eexists. split; [reflexivity|].
      assert (c = cp) by congruence. subst c. cbn. repeat split; lia.
    - rewrite lookup_insert_ne by congruence. exists c. auto. }
  destruct Hc2 as (c2 & Hc2 & Hv2 & Hp2 & Hr2).
  destruct (mul_assign_spec s2 price (Amount (Some q) (Some k)) qp q cp2 c2 kp op
              eq_refl Hcp2 eq_refl Hc2 eq_refl Hop)
    as (q1 & c1 & m3 & Hmul & Hq1 & Hval1 & Href1 & Hq1q & Hq1p & Hframe);
    [cbn; lia|exact Hr2|cbn; lia|cbn; lia|lia|cbn; lia|exact Hn1|exact Hn2|].
  specialize (Hq1p ltac:(cbn; lia)).
  rewrite Hmul. cbn [val prec cp2 cp1 set_ref] in Hval1. rewrite Hv2, Hp2 in Hval1.
  assert (Hqp3 : exists cq, m3 !! qp = Some cq).
  { specialize (Hframe qp ltac:(congruence)). unfold payload, s2 in Hframe.
    cbn [cells with_cells set_cells] in Hframe. rewrite lookup_insert_eq in Hframe.
    destruct (m3 !! qp); [eauto|discriminate]. }
  destruct Hqp3 as [cq Hqp3].
  erewrite bind_load_commodity_eq by (cbn; exact Ho).
  destruct (headroom (val cp * val c) (prec cp + prec c) (precision op))
    as [v p] eqn:Hhead.
  injection Hval1 as Hv1 Hp1.
  assert (Hp0 : 0 <= p < 65536).
  { unfold headroom in Hhead. destruct (_ >? _); injection Hhead as <- <-; lia. }
  destruct (round_value (with_cells m3 s2) (Amount (Some q1) (Some kp)) q1 c1
              (precision o) eq_refl Hq1 ltac:(lia) ltac:(lia)) as [Hsame Hround].
  unfold s2 in Hsame, Hround |- *.
  rewrite ?with_cells_with_cells, ?cells_with_cells in Hsame, Hround |- *.
  destruct (p >? precision o) eqn:Hgt.
  - apply Z.gtb_lt in Hgt.
    destruct Hround as (q2 & Hfresh & Hround); [lia|lia|].
    unfold bind at 1. rewrite Hround. flat. cbn [commodity].
    unfold bind at 1.
    rewrite (destroy_unique q1 c1 _ _ s)
      by (try (rewrite lookup_insert_ne by (cbn in Hfresh; congruence); exact Hq1); exact Href1).
    unfold bind at 1. unfold amount_destroy. cbn [price quantity non_null].
    assert (q2 <> qp) by (cbn in Hfresh; congruence).
    erewrite (release_eq _ qp cq); [|reflexivity|
      cbn; rewrite lookup_delete_ne, lookup_insert_ne by congruence; exact Hqp3].
    unfold ret. eexists q2, _, _. split; [reflexivity|].
    split.
    { cbn. rewrite lookup_released_ne by congruence.
      rewrite lookup_delete_ne by (cbn in Hfresh; congruence).
      apply lookup_insert_eq. }
    cbn [val prec]. rewrite Hv1, Hp1. reflexivity.
  - rewrite Z.gtb_ltb in Hgt. apply Z.ltb_ge in Hgt.
    unfold bind at 1. rewrite Hsame by lia. flat.
    unfold bind at 1. unfold amount_destroy at 1. cbn [quantity non_null].
    erewrite (release_eq _ q1 (set_ref (ref c1 + 1) c1));
      [|reflexivity|cbn; apply lookup_insert_eq].
    flat. unfold bind at 1. unfold amount_destroy. cbn [price quantity non_null].
    assert (Hrel : released q1 (set_ref (ref c1 + 1) c1)
                     (<[q1 := set_ref (ref c1 + 1) c1]> m3) !! q1
                   = Some (set_ref 1 c1)).
    { rewrite lookup_released_eq
        by (cbn [ref set_ref]; rewrite Href1; compute; discriminate).
      cbn [ref set_ref]. rewrite Href1. reflexivity. }
    erewrite (release_eq _ qp cq); [|reflexivity|
      cbn; rewrite lookup_released_ne, lookup_insert_ne by congruence; exact Hqp3].
    unfold ret. eexists q1, _, _. split; [reflexivity|].
    split.
    { cbn. rewrite lookup_released_ne by congruence. exact Hrel. }
    cbn [val prec set_ref]. rewrite Hv1, Hp1. reflexivity.
Qed.

Lemma value_multiplies_by_price_witness :
  exists q' c' s',
    value None sample_euros 150 priced_store
      = Ok (Amount (Some q') (Some 2%positive)) s' /\
    cells s' !! q' = Some c' /\ (val c', prec c') = (250, 2).
Proof.
  apply (value_multiplies_by_price priced_store sample_euros 6%positive
           (Bigint 200 2 0 1 0) 3%positive
           (Commodity "EUR" false 2 0 [(100, sample_price)]) 150 100 sample_price
           10%positive (Bigint 125 2 BIGINT_BULK_ALLOC 1 0) 2%positive
           (Commodity "$" false 2 0 [])).
  - reflexivity.
  - reflexivity.
  - reflexivity.
  - reflexivity.
  - reflexivity.
  - reflexivity.
  - reflexivity.
  - reflexivity.
  - vm_compute. discriminate.
  - simpl. lia.
  - simpl. lia.
  - simpl. lia.
  - simpl. lia.
  - simpl. lia.
  - simpl. lia.
  - simpl. lia.
  - simpl. lia.
  - simpl. lia.
Defined.

(** X28: For two present amounts of one commodity, a += b followed by -= b
    gives back the magnitude of a, at the larger of the two scales. *)
Theorem add_then_sub_restores_value s a b qa qb ca cb :
  quantity a = Some qa -> cells s !! qa = Some ca ->
  quantity b = Some qb -> cells s !! qb = Some cb ->
  commodity a = commodity b ->
  1 <= ref ca < 4294967296 -> 1 <= ref cb -> ref cb + 1 < 4294967296 ->
  (qa = qb -> 2 <= ref ca) ->
  0 <= prec ca < 256 -> 0 <= prec cb < 256 ->
  exists q' c' s',
    (let* sum := add_assign a b in sub_assign sum b) s
      = Ok (Amount (Some q') (commodity a)) s' /\
    cells s' !! q' = Some c' /\
    prec c' = Z.max (prec ca) (prec cb) /\
    val c' = val ca * 10 ^ (Z.max (prec ca) (prec cb) - prec ca).
Proof.
  intros Ha Hca Hb Hcb Hk Hra Hrb1 Hrb2 Halias Hpa Hpb.
  destruct (dup_combine_value Z.add "Adding amounts with different commodities"
              s a b qa qb ca cb Ha Hca Hb Hcb Hk Hra Hrb1 Hrb2 Halias Hpa Hpb)
    as (q1 & c1 & s1 & Hrun1 & Hq1 & Hp1 & Hv1 & Hr1 & _ & _ & Hne & cb1 & Hcb1 & Hvb & Hpb1 & Hrb).
  assert (Hadd : add_assign a b s = Ok (Amount (Some q1) (commodity a)) s1).
  { unfold add_assign. rewrite Ha, Hb. exact Hrun1. }
  destruct (dup_combine_value Z.sub "Subtracting amounts with different commodities"
              s1 (Amount (Some q1) (commodity a)) b q1 qb c1 cb1
              eq_refl Hq1 Hb Hcb1 Hk)
    as (q2 & c2 & s2 & Hrun2 & Hq2 & Hp2 & Hv2 & _); try lia.
  exists q2, c2, s2. unfold bind. rewrite Hadd.
  split; [unfold sub_assign; cbn [quantity non_null negb]; rewrite Hb; exact Hrun2|].
  split; [exact Hq2|]. split; [lia|].
  rewrite Hv2. unfold aligned. cbn [fst snd]. rewrite Hv1, Hp1, Hvb, Hpb1.
  unfold aligned. cbn [fst snd].
  set (pm := Z.max (prec ca) (prec cb)).
  replace (Z.max pm (prec cb)) with pm by lia.
  rewrite Z.sub_diag. cbn [Z.pow]. lia.
Qed.

Lemma add_then_sub_restores_value_witness :
  exists q' c' s',
    (let* sum := add_assign sample_ten sample_three in sub_assign sum sample_three)
      sample_store = Ok (Amount (Some q') (Some 2%positive)) s' /\
    cells s' !! q' = Some c' /\ prec c' = 3 /\ val c' = 10000.
Proof.
  apply (add_then_sub_restores_value sample_store sample_ten sample_three
           2%positive 3%positive (Bigint 1000 2 0 1 0) (Bigint 3000 3 0 1 0)).
  - reflexivity.
  - reflexivity.
  - reflexivity.
  - reflexivity.
  - reflexivity.
  - simpl. lia.
  - simpl. lia.
  - simpl. lia.
  - intros Heq. discriminate Heq.
  - simpl. lia.
  - simpl. lia.
Defined.

(** ** Prices that outlive a journal *)

Lemma settled_refl pool s : settled pool s s.
Proof. unfold settled. auto. Qed.

Lemma settled_trans pool s0 s1 s2 :
  settled pool s0 s1 -> settled pool s1 s2 -> settled pool s0 s2.
Proof.
  intros (Hb1 & Hout1 & Hin1) (Hb2 & Hout2 & Hin2). unfold settled.
  split; [congruence|]. split; eauto.
Qed.

Lemma heap_fresh_not_arena s : heap_fresh s ∉ bigints s.
Proof.
  unfold heap_fresh.
  match goal with |- fresh ?X ∉ _ => pose proof (is_fresh X) as Hf end.
  intros Hin. apply Hf. apply elem_of_union_r. apply elem_of_list_to_set.
  exact Hin.
Qed.

Lemma clean_price_spec pool s0 s1 p p' s2 :
  pool_in_arena pool s1 -> settled pool s0 s1 ->
  clean_price pool p s1 = Ok p' s2 ->
  settled pool s1 s2 /\ objects s2 = objects s1 /\
  commodity p' = commodity p /\ outside pool p' /\
  (forall x, number s0 p = Some x -> number s2 p' = Some x) /\
  (outside pool p -> p' = p).
Proof.
  intros Harena Hset H. unfold clean_price in H.
  destruct (quantity p) as [q|] eqn:Hq.
  - destruct (pool q) eqn:Hpool.
    + apply bind_ok in H as (c & s' & Hload & H).
      apply load_ok in Hload as [-> Hc].
      destruct (negb (has_flag (flags c) BIGINT_BULK_ALLOC)); [discriminate|].
      apply bind_ok in H as (q' & sa & Hnew & H).
      unfold new_bigint in Hnew. injection Hnew as <- <-.
      pose proof (heap_fresh_ne s1 q c Hc) as Hne.
      pose proof (heap_fresh_not_live s1) as Hfresh.
      assert (Hpool' : pool (heap_fresh s1) = false).
      { destruct (pool (heap_fresh s1)) eqn:E; [|reflexivity].
        exfalso. apply (heap_fresh_not_arena s1). apply Harena. exact E. }
      set (q' := heap_fresh s1) in *.
      apply bind_ok in H as ([] & sb & Hupd & H).
      apply update_ok in Hupd as (c1 & Hc1 & ->).
      cbn [cells set_cells] in Hc1. rewrite lookup_insert_ne in Hc1 by congruence.
      assert (c1 = c) by congruence. subst c1.
      apply bind_ok in H as ([] & sc & Hdel & H). apply ret_ok in H as [-> ->].
      set (m2 := <[q := set_ref (uint (ref c - 1)) c]> (<[q' := bigint_copy c]> (cells s1))) in *.
      assert (Hsc : exists m, sc = with_cells m s1 /\ m !! q' = Some (bigint_copy c) /\
                (forall r, r <> q -> r <> q' -> m !! r = cells s1 !! r) /\
                (forall cq, m !! q = Some cq -> val cq = val c /\ prec cq = prec c)).
      { destruct (uint (ref c - 1) =? 0).
        - injection Hdel as <-. exists (delete q m2). split; [reflexivity|].
          split; [unfold m2; rewrite lookup_delete_ne, lookup_insert_ne, lookup_insert_eq by congruence; reflexivity|].
          split.
          + intros r Hr1 Hr2. unfold m2.
            rewrite lookup_delete_ne, !lookup_insert_ne by congruence. reflexivity.
          + intros cq Hcq. rewrite lookup_delete_eq in Hcq. discriminate.
        - apply ret_ok in Hdel as [_ ->]. exists m2. split; [reflexivity|].
          split; [unfold m2; rewrite lookup_insert_ne, lookup_insert_eq by congruence; reflexivity|].
          split.
          + intros r Hr1 Hr2. unfold m2. rewrite !lookup_insert_ne by congruence. reflexivity.
          + intros cq Hcq. unfold m2 in Hcq. rewrite lookup_insert_eq in Hcq.
            injection Hcq as <-. split; reflexivity. }
      destruct Hsc as (m & -> & Hmq' & Hmframe & Hmq).
      split; [|split; [reflexivity|split; [reflexivity|split; [|split]]]].
      * split; [reflexivity|]. split.
        -- intros r x Hr Hx. unfold payload in *. cbn [cells with_cells set_cells].
           assert (r <> q) by congruence.
           assert (r <> q') by (intros ->; rewrite Hfresh in Hx; discriminate).
           rewrite Hmframe by assumption. exact Hx.
        -- intros r x Hr Hx. unfold payload in *. cbn [cells with_cells set_cells] in Hx.
           assert (r <> q') by congruence.
           destruct (decide (r = q)) as [->|Hrq].
           ++ destruct (m !! q) as [cq|] eqn:Hcq; [|discriminate].
              destruct (Hmq cq eq_refl) as [Hv Hp]. rewrite Hc. congruence.
           ++ rewrite Hmframe in Hx by assumption. exact Hx.
      * intros r Hr. cbn in Hr. injection Hr as <-. exact Hpool'.
      * intros x Hx. unfold number in *. rewrite Hq in Hx. cbn [quantity with_quantity].
        destruct Hset as (_ & _ & Hin).
        assert (Hp1 : payload s1 q = Some (val c, prec c))
          by (unfold payload; rewrite Hc; reflexivity).
        apply (Hin q _ Hpool) in Hp1. rewrite Hp1 in Hx. injection Hx as <-.
        unfold payload. cbn [cells with_cells set_cells]. rewrite Hmq'. reflexivity.
      * intros Hout. rewrite (Hout q Hq) in Hpool. discriminate.
    + apply ret_ok in H as [-> ->].
      split; [apply settled_refl|]. split; [reflexivity|]. split; [reflexivity|].
      split; [intros r Hr; congruence|]. split; [|reflexivity].
      intros x Hx. unfold number in *. rewrite Hq in *.
      destruct Hset as (_ & Hout & _). eauto.
  - apply ret_ok in H as [-> ->].
    split; [apply settled_refl|]. split; [reflexivity|]. split; [reflexivity|].
    split; [intros r Hr; congruence|]. split; [|reflexivity].
    intros x Hx. unfold number in Hx. rewrite Hq in Hx. discriminate.
Qed.

Lemma pool_in_arena_settled pool s0 s1 :
  settled pool s0 s1 -> pool_in_arena pool s0 -> pool_in_arena pool s1.
Proof. intros (Hb & _) H q Hq. rewrite Hb. apply H. exact Hq. Qed.

Lemma number_settled pool s1 s2 a x :
  settled pool s1 s2 -> outside pool a -> number s1 a = Some x -> number s2 a = Some x.
Proof.
  intros (_ & Hout & _) Ha Hx. unfold number in *.
  destruct (quantity a) as [q|] eqn:Hq; [|discriminate]. eauto.
Qed.

Lemma clean_history_spec pool s0 h : forall s1 h' s2,
  pool_in_arena pool s1 -> settled pool s0 s1 ->
  clean_history pool h s1 = Ok h' s2 ->
  settled pool s1 s2 /\ objects s2 = objects s1 /\
  Forall2 (fun e e' => cleaned pool s0 s2 e e' /\ (outside pool (snd e) -> e' = e)) h h'.
Proof.
  induction h as [|[t p] h IH]; intros s1 h' s2 Harena Hset H.
  - apply ret_ok in H as [-> ->]. split; [apply settled_refl|]. split; [reflexivity|].
    constructor.
  - cbn [clean_history] in H.
    apply bind_ok in H as (p' & sa & Hp & H).
    apply bind_ok in H as (h1 & sb & Hh & H). apply ret_ok in H as [-> ->].
    apply (clean_price_spec pool s0) in Hp as (Hsa & Hoa & Hcom & Hout & Hnum & Hsame);
      [|assumption..].
    apply IH in Hh as (Hsb & Hob & Hall);
      [|eapply pool_in_arena_settled; eauto|eapply settled_trans; eauto].
    split; [eapply settled_trans; eauto|]. split; [congruence|].
    constructor; [|exact Hall]. split.
    + unfold cleaned. cbn [fst snd]. split; [reflexivity|]. split; [exact Hcom|].
      split; [exact Hout|]. intros x Hx.
      eapply number_settled; [exact Hsb|exact Hout|]. apply Hnum. exact Hx.
    + cbn [snd]. intros Ho. rewrite (Hsame Ho). reflexivity.
Qed.

Lemma load_commodity_inv k s o s' :
  load_commodity (Some k) s = Ok o s' -> s' = s /\ objects s !! k = Some o.
Proof.
  unfold load_commodity. destruct (objects s !! k); [|discriminate].
  intros [= <- <-]. split; reflexivity.
Qed.

Lemma cleaned_settled pool s0 s1 s2 e e' :
  settled pool s1 s2 -> cleaned pool s0 s1 e e' -> cleaned pool s0 s2 e e'.
Proof.
  intros Hset (Hf & Hc & Hout & Hnum). unfold cleaned.
  split; [exact Hf|]. split; [exact Hc|]. split; [exact Hout|].
  intros x Hx. eapply number_settled; eauto.
Qed.

Lemma carried_settled pool s0 s1 s2 e e' :
  settled pool s1 s2 -> carried pool s0 s1 e e' -> carried pool s0 s2 e e'.
Proof.
  intros Hset [->|H]; [left; reflexivity|right; eapply cleaned_settled; eauto].
Qed.

Lemma clean_commodity_step pool s0 s1 k s2 :
  pool_in_arena pool s0 -> visiting pool s0 s1 ->
  clean_commodity pool k s1 = Ok tt s2 ->
  visiting pool s0 s2 /\ visited pool s2 k /\
  (forall k', visited pool s1 k' -> visited pool s2 k').
Proof.
  intros Harena (Hset & Hobj) H. unfold clean_commodity in H.
  apply bind_ok in H as (o1 & s' & Hload & H).
  apply load_commodity_inv in Hload as [-> Ho1].
  apply bind_ok in H as (h' & sa & Hh & H).
  apply (clean_history_spec pool s0) in Hh as (Hsa & Hoa & Hall);
    [|eapply pool_in_arena_settled; eauto|exact Hset].
  apply bind_ok in H as (o1' & s' & Hload & H).
  apply load_commodity_inv in Hload as [-> Ho1'].
  rewrite Hoa, Ho1 in Ho1'. injection Ho1' as <-.
  unfold save_commodity in H. injection H as <-.
  assert (Hs2 : settled pool sa (set_objects <[k := set_history h' o1]> sa))
    by (unfold settled; auto).
  assert (Hs12 : settled pool s1 (set_objects <[k := set_history h' o1]> sa))
    by (eapply settled_trans; eauto).
  split; [|split].
  - split; [eapply settled_trans; eauto|].
    intros k0 o Ho. destruct (Hobj k0 o Ho) as (o0 & Ho0 & Hsym & Hquo & Hpre & Hfl & Hcar).
    cbn [objects set_objects]. destruct (decide (k0 = k)) as [->|Hne].
    + assert (o0 = o1) by congruence. subst o0.
      exists (set_history h' o1). rewrite lookup_insert_eq.
      split; [reflexivity|]. cbn [symbol quote precision c_flags history set_history].
      split; [exact Hsym|]. split; [exact Hquo|]. split; [exact Hpre|]. split; [exact Hfl|].
      eapply Forall2_trans; [|exact Hcar|exact Hall].
      intros e e1 e' Hc1 [Hcl Hsame]. right.
      destruct Hcl as (Hf & Hc & Hout & Hnum).
      destruct Hc1 as [->|(Hf1 & Hcm1 & Hout1 & Hnum1)].
      * unfold cleaned. split; [exact Hf|]. split; [exact Hc|]. split; [exact Hout|].
        intros x Hx. eapply number_settled; [exact Hs2|exact Hout|]. auto.
      * rewrite (Hsame Hout1) in *. unfold cleaned.
        split; [exact Hf1|]. split; [exact Hcm1|]. split; [exact Hout1|].
        intros x Hx. eapply number_settled; [exact Hs12|exact Hout1|]. auto.
    + exists o0. rewrite lookup_insert_ne by congruence.
      split; [rewrite Hoa; exact Ho0|].
      split; [exact Hsym|]. split; [exact Hquo|]. split; [exact Hpre|]. split; [exact Hfl|].
      eapply Forall2_impl; [exact Hcar|].
      intros e e1 Hc1. eapply carried_settled; eauto.
  - exists (set_history h' o1). cbn [objects set_objects]. rewrite lookup_insert_eq.
    split; [reflexivity|]. cbn [history set_history].
    eapply Forall2_Forall_r; [exact Hall|].
    apply Forall_forall. intros e _ e' [(_ & _ & Hout & _) _]. exact Hout.
  - intros k' (o' & Ho' & Hout'). destruct (decide (k' = k)) as [->|Hne].
    + assert (o' = o1) by congruence. subst o'.
      exists (set_history h' o1). cbn [objects set_objects]. rewrite lookup_insert_eq.
      split; [reflexivity|]. cbn [history set_history].
      eapply Forall2_Forall_r; [exact Hall|].
      apply Forall_forall. intros e _ e' [(_ & _ & Hout & _) _]. exact Hout.
    + exists o'. cbn [objects set_objects]. rewrite lookup_insert_ne by congruence.
      split; [rewrite Hoa; exact Ho'|exact Hout'].
Qed.

Lemma clean_commodities_spec pool s0 ks : forall s1 s2,
  pool_in_arena pool s0 -> visiting pool s0 s1 ->
  clean_commodities pool ks s1 = Ok tt s2 ->
  visiting pool s0 s2 /\
  (forall k, k ∈ ks -> visited pool s2 k) /\
  (forall k, visited pool s1 k -> visited pool s2 k).
Proof.
  induction ks as [|k ks IH]; intros s1 s2 Harena Hvis H.
  - apply ret_ok in H as [_ ->]. split; [exact Hvis|]. split; [|auto].
    intros k Hk. apply elem_of_nil in Hk. destruct Hk.
  - cbn [clean_commodities] in H. apply bind_ok in H as ([] & sa & Hk & H).
    apply (clean_commodity_step pool s0) in Hk as (Hvisa & Hdone & Hkeep);
      [|assumption..].
    apply IH in H as (Hvis2 & Hall & Hkeep2); [|assumption..].
    split; [exact Hvis2|]. split; [|auto].
    intros k' Hk'. apply elem_of_cons in Hk' as [->|Hk']; auto.
Qed.

(** X29: When the item pool holds arena cells only, a
    clean_commodity_history that returns leaves every registered commodity
    with its symbol, quote, precision and flags and with prices of the same
    dates and commodities; no price has its quantity in the pool any more,
    and each price stands for the same number as before. *)
Theorem clean_commodity_history_moves_prices_out pool s s' :
  pool_in_arena pool s ->
  clean_commodity_history pool s = Ok tt s' ->
  forall sym k o,
    commodities s !! sym = Some k -> objects s !! k = Some o ->
    exists o',
      objects s' !! k = Some o' /\
      symbol o' = symbol o /\ quote o' = quote o /\
      precision o' = precision o /\ c_flags o' = c_flags o /\
      Forall2 (cleaned pool s s') (history o) (history o').
Proof.
  intros Harena H sym k o Hsym Ho. unfold clean_commodity_history in H.
  assert (Hvis : visiting pool s s).
  { split; [apply settled_refl|]. intros k0 o0 Ho0. exists o0.
    split; [exact Ho0|]. repeat (split; [reflexivity|]).
    apply Forall_Forall2_diag. apply Forall_forall. intros e _. left. reflexivity. }
  apply (clean_commodities_spec pool s) in H as ((Hset & Hobj) & Hall & _);
    [|assumption..].
  assert (Hk : k ∈ commodities_in_order s).
  { unfold commodities_in_order. apply list_elem_of_fmap.
    exists (sym, k). split; [reflexivity|].
    rewrite merge_sort_Permutation. apply elem_of_map_to_list. exact Hsym. }
  destruct (Hall k Hk) as (o1 & Ho1 & Hout).
  destruct (Hobj k o Ho) as (o' & Ho' & Hs & Hq & Hp & Hf & Hcar).
  assert (o1 = o') by congruence. subst o1.
  exists o'. split; [exact Ho'|].
  split; [exact Hs|]. split; [exact Hq|]. split; [exact Hp|]. split; [exact Hf|].
  clear Ho' Ho. revert Hout. induction Hcar as [|e e' h h' He Hcar IH]; intros Hout.
  - constructor.
  - apply Forall_cons in Hout as [Hout1 Hout]. constructor; [|apply IH; exact Hout].
    destruct He as [->|He]; [|exact He].
    unfold cleaned. split; [reflexivity|]. split; [reflexivity|]. split; [exact Hout1|].
    intros x Hx. eapply number_settled; eauto.
Qed.

Lemma clean_commodity_history_moves_prices_out_witness :
  exists s' o',
    clean_commodity_history sample_pool priced_store = Ok tt s' /\
    objects s' !! 3%positive = Some o' /\
    Forall2 (cleaned sample_pool priced_store s')
      [(100, sample_price)] (history o').
Proof.
  eexists _. 
  edestruct (clean_commodity_history_moves_prices_out sample_pool priced_store)
    as (o' & Ho' & _ & _ & _ & _ & Hall).
  - intros q Hq. apply bool_decide_eq_true in Hq. exact Hq.
  - vm_compute. reflexivity.
  - instantiate (1 := 3%positive). instantiate (1 := "EUR"). reflexivity.
  - reflexivity.
  - exists o'. split; [vm_compute; reflexivity|]. split; [exact Ho'|exact Hall].
Defined.
